(** * log2life: access-log lines to Life 1.05 patterns

    A shallow embedding of [main.go] (the revision with timestamp
    playback, second half of the file) together with the parts of the
    Go runtime and standard library it calls: byte strings,
    [strings.SplitN], [strings.TrimSpace], [net.ParseIP],
    [time.Parse], [time.Time.Sub], IEEE-754 binary64 arithmetic and the
    64-bit integer conversions.

    Go values are represented as follows.
    - [string]: a Rocq [string]; one [ascii] is one byte.
    - [byte], [int], [int64], [time.Duration]: [Z], with the wrap-around
      of the machine type written where the source can reach it.
    - [float64]: [spec_float] at precision 53 and maximal exponent 1024.
    - [[8]byte], [net.IP], [[]string]: lists.
    - a call that returns [(value, error)] and may also panic: [outcome]. *)

From Stdlib Require Import ZArith List String Ascii Bool Lia.
From Stdlib Require Import DecimalString DecimalZ DecimalPos.
From Stdlib Require Import Floats.SpecFloat.
Import ListNotations.

Open Scope string_scope.
Open Scope Z_scope.

(* ================================================================= *)
(** ** Results of fallible calls *)

(** A Go call either returns normally, returns a non-nil [error], or
    panics (a run-time error such as an index out of range, which
    nothing in [main.go] recovers). *)
Inductive outcome (A : Type) : Type :=
| Ok (a : A)
| Err (msg : string)
| Panic (why : string).

Arguments Ok {A} a.
Arguments Err {A} msg.
Arguments Panic {A} why.

Definition bind {A B} (m : outcome A) (k : A -> outcome B) : outcome B :=
  match m with
  | Ok a => k a
  | Err e => Err e
  | Panic w => Panic w
  end.

Notation "x <- m ;; k" := (bind m (fun x => k))
  (at level 61, m at next level, right associativity).
Notation "' p <- m ;; k" := (bind m (fun p => k))
  (at level 61, p pattern, m at next level, right associativity).

(* ================================================================= *)
(** ** Machine integers *)

Module Int64.

Definition min_int : Z := - 2 ^ 63.
Definition max_int : Z := 2 ^ 63 - 1.

Definition in_range (z : Z) : bool := (min_int <=? z) && (z <=? max_int).

(** Two's-complement wrap-around of [int64] arithmetic. *)
Definition wrap (z : Z) : Z := (z + 2 ^ 63) mod 2 ^ 64 - 2 ^ 63.

End Int64.

(* ================================================================= *)
(** ** Byte strings *)

Module GoString.

Definition byte_of (c : ascii) : Z := Z.of_N (N_of_ascii c).

(** [[]byte(s)] *)
Definition bytes (s : string) : list Z := map byte_of (list_ascii_of_string s).

(** [len(s)] *)
Definition len (s : string) : Z := Z.of_nat (String.length s).

Definition quote : ascii := ascii_of_nat 34.

(** A one-byte string. *)
Definition str1 (c : ascii) : string := String c EmptyString.

(** [s[i]], with the run-time bounds check. *)
Definition index (s : string) (i : nat) : outcome ascii :=
  match String.get i s with
  | Some c => Ok c
  | None => Panic "index out of range"
  end.

(** [s[i:]], with the run-time bounds check. *)
Definition sliceFrom (s : string) (i : nat) : outcome string :=
  if (i <=? String.length s)%nat
  then Ok (String.substring i (String.length s - i) s)
  else Panic "slice bounds out of range".

(** [strings.Cut] on a one-byte separator: the text before the first
    occurrence and the text after it, or [None] when it is absent. *)
Fixpoint cut (sep : ascii) (s : string) : option (string * string) :=
  match s with
  | EmptyString => None
  | String c r =>
      if Ascii.eqb c sep then Some (EmptyString, r)
      else match cut sep r with
           | Some (a, b) => Some (String c a, b)
           | None => None
           end
  end.

(** [strings.SplitN(s, sep, n)] for a one-byte [sep] and [n > 0]: at
    most [n] substrings, the last one being the unsplit remainder.
    ([n = 0] returns nil in Go; the program only passes 4 and 2.) *)
Fixpoint SplitN (s : string) (sep : ascii) (n : nat) : list string :=
  match n with
  | O => []
  | S O => [s]
  | S n' =>
      match cut sep s with
      | Some (a, b) => a :: SplitN b sep n'
      | None => [s]
      end
  end.

(** [fields[i]] on a [[]string], with the run-time bounds check. *)
Definition field (fields : list string) (i : nat) : outcome string :=
  match nth_error fields i with
  | Some f => Ok f
  | None => Panic "index out of range"
  end.

(** White space as [unicode.IsSpace] sees it, on the UTF-8 encoding:
    the ASCII ones, U+0085 and U+00A0 (two bytes), and U+1680,
    U+2000..U+200A, U+2028, U+2029, U+202F, U+205F, U+3000 (three
    bytes). [spaceWidth bs] is the width of the space rune [bs] starts
    with, or 0. *)
Definition isAsciiSpace (b : Z) : bool :=
  (b =? 9) || (b =? 10) || (b =? 11) || (b =? 12) || (b =? 13) || (b =? 32).

Definition spaceWidth (bs : list Z) : nat :=
  match bs with
  | b0 :: r =>
      if isAsciiSpace b0 then 1%nat
      else match r with
           | b1 :: r' =>
               if (b0 =? 194) && ((b1 =? 133) || (b1 =? 160)) then 2%nat
               else match r' with
                    | b2 :: _ =>
                        if (b0 =? 225) && (b1 =? 154) && (b2 =? 128) then 3%nat
                        else if (b0 =? 226) && (b1 =? 128)
                                && (((128 <=? b2) && (b2 <=? 138))
                                    || (b2 =? 168) || (b2 =? 169) || (b2 =? 175))
                             then 3%nat
                        else if (b0 =? 226) && (b1 =? 129) && (b2 =? 159) then 3%nat
                        else if (b0 =? 227) && (b1 =? 128) && (b2 =? 128) then 3%nat
                        else 0%nat
                    | [] => 0%nat
                    end
           | [] => 0%nat
           end
  | [] => 0%nat
  end.

(** The same test read backwards, for the rune a string ends with;
    [rs] is the string reversed. *)
Definition spaceWidthRev (rs : list Z) : nat :=
  match rs with
  | b0 :: r =>
      if isAsciiSpace b0 then 1%nat
      else match r with
           | b1 :: r' =>
               if spaceWidth [b1; b0] =? 2 then 2%nat
               else match r' with
                    | b2 :: _ => if spaceWidth [b2; b1; b0] =? 3 then 3%nat else 0%nat
                    | [] => 0%nat
                    end
           | [] => 0%nat
           end
  | [] => 0%nat
  end%nat.

Fixpoint trimWith (width : list Z -> nat) (fuel : nat) (cs : list ascii) : list ascii :=
  match fuel with
  | O => cs
  | S fuel' =>
      match width (map byte_of cs) with
      | O => cs
      | w => trimWith width fuel' (skipn w cs)
      end
  end.

(** [strings.TrimSpace] *)
Definition TrimSpace (s : string) : string :=
  let cs := list_ascii_of_string s in
  let l := trimWith spaceWidth (List.length cs) cs in
  let r := trimWith spaceWidthRev (List.length l) (rev l) in
  string_of_list_ascii (rev r).

(** [strings.Join(a, sep)] *)
Fixpoint Join (a : list string) (sep : string) : string :=
  match a with
  | [] => ""
  | [x] => x
  | x :: r => x ++ sep ++ Join r sep
  end.

(** [fmt.Sprintf("%d", z)] *)
Definition fmt_d (z : Z) : string := NilZero.string_of_int (Z.to_int z).

End GoString.

(* ================================================================= *)
(** ** The XOR fold and the Life 1.05 renderer *)

Module Pattern.
Import GoString.

(** [data[i]] and [data[i] = v] on the [[8]byte] array. *)
Definition get (data : list Z) (i : Z) : Z := nth (Z.to_nat i) data 0.

Fixpoint set_nat (data : list Z) (i : nat) (v : Z) : list Z :=
  match data, i with
  | [], _ => []
  | _ :: r, O => v :: r
  | d :: r, S i' => d :: set_nat r i' v
  end.

Definition set (data : list Z) (i : Z) (v : Z) : list Z := set_nat data (Z.to_nat i) v.

(** One turn of the loop of [LineToPattern] over [[]byte(fields[1])]:
    the state is [(data, idx)]. *)
Definition xorStep (st : list Z * Z) (b : Z) : list Z * Z :=
  let '(data, idx) := st in
  if b =? byte_of quote then st
  else (set data idx (Z.lxor (get data idx) b), (idx + 1) mod 8).

(** [var data [8]byte; var idx int] *)
Definition xorInit : list Z * Z := (repeat 0 8, 0).

(** The whole loop: the 8 bytes XORed out of a byte sequence. *)
Definition encode (payload : list Z) : list Z :=
  fst (fold_left xorStep payload xorInit).

(** The inner loop of [MakeLife105]: [n] turns left, [b] the byte as
    shifted so far, [line] the text so far. *)
Fixpoint rowLoop (n : nat) (b : Z) (line : string) : string :=
  match n with
  | O => line
  | S n' =>
      let line' := if Z.land b 128 =? 128 then line ++ "*" else line ++ "." in
      rowLoop n' (Z.shiftl b 1 mod 256) line'
  end.

Definition row (b : Z) : string := rowLoop 8 b "".

(** [MakeLife105] *)
Definition MakeLife105 (x y : Z) (data : list Z) : list string :=
  ["#Life 1.05";
   "#D log2life ouput";
   "#N";
   "#P " ++ fmt_d x ++ " " ++ fmt_d y]
  ++ map row data.

End Pattern.

(* ================================================================= *)
(** ** float64 *)

Module Float64.

Definition prec : Z := 53.
Definition emax : Z := 1024.

(** [float64(n)] for an integer [n]: round to nearest, ties to even. *)
Definition of_int (n : Z) : spec_float := binary_normalize prec emax n 0 false.

Definition mul : spec_float -> spec_float -> spec_float := SFmul prec emax.
Definition div : spec_float -> spec_float -> spec_float := SFdiv prec emax.

Definition one : spec_float := of_int 1.

(** The real value [m * 2^e] cut towards zero. *)
Definition trunc_mag (m : positive) (e : Z) : Z :=
  if 0 <=? e then Z.pos m * 2 ^ e else Z.pos m / 2 ^ (- e).

(** The target the program was built for. The Go specification leaves
    the conversion of a float that no [int64] holds (NaN, infinities,
    out of range) to the implementation; the two 64-bit targets differ:
    amd64 always gives [-2^63], arm64 saturates and turns NaN into 0. *)
Inductive GOARCH := amd64 | arm64.

Definition to_int64_invalid (arch : GOARCH) (f : spec_float) : Z :=
  match arch with
  | amd64 => Int64.min_int
  | arm64 =>
      match f with
      | S754_nan => 0
      | S754_infinity true | S754_finite true _ _ => Int64.min_int
      | _ => Int64.max_int
      end
  end.

(** [int64(f)], [int(f)], [time.Duration(f)] *)
Definition to_int64 (arch : GOARCH) (f : spec_float) : Z :=
  match f with
  | S754_zero _ => 0
  | S754_finite s m e =>
      let v := if s then - trunc_mag m e else trunc_mag m e in
      if Int64.in_range v then v else to_int64_invalid arch f
  | _ => to_int64_invalid arch f
  end.

End Float64.

(* ================================================================= *)
(** ** net.ParseIP *)

(** After [net/ip.go] of the Go 1.19 library, the release current when
    the program was written: [ParseIP] looks for the first dot or colon
    and hands the text to [parseIPv4] or [parseIPv6]; both return nil or
    a slice of 16 bytes. *)

Module GoNet.
Import GoString.

Definition IPv4len : Z := 4.
Definition IPv6len : Z := 16.

(** [const big = 0xFFFFFF] *)
Definition big : Z := 16777215.

Definition isDigit (b : Z) : bool := (48 <=? b) && (b <=? 57).

(** [dtoi]: decimal to integer; number, bytes consumed, success. The
    accumulator pair is [(n, i)]. *)
Fixpoint dtoi_loop (s : list Z) (n : Z) (i : Z) : Z * Z * bool :=
  match s with
  | b :: r =>
      if isDigit b then
        let n' := n * 10 + (b - 48) in
        if big <=? n' then (big, i, false) else dtoi_loop r n' (i + 1)
      else if i =? 0 then (0, 0, false) else (n, i, true)
  | [] => if i =? 0 then (0, 0, false) else (n, i, true)
  end.

Definition dtoi (s : list Z) : Z * Z * bool := dtoi_loop s 0 0.

Definition hexval (b : Z) : option Z :=
  if (48 <=? b) && (b <=? 57) then Some (b - 48)
  else if (97 <=? b) && (b <=? 102) then Some (b - 97 + 10)
  else if (65 <=? b) && (b <=? 70) then Some (b - 65 + 10)
  else None.

(** [xtoi]: hexadecimal to integer. *)
Fixpoint xtoi_loop (s : list Z) (n : Z) (i : Z) : Z * Z * bool :=
  match s with
  | b :: r =>
      match hexval b with
      | Some d =>
          let n' := n * 16 + d in
          if big <=? n' then (0, i, false) else xtoi_loop r n' (i + 1)
      | None => if i =? 0 then (0, i, false) else (n, i, true)
      end
  | [] => if i =? 0 then (0, i, false) else (n, i, true)
  end.

Definition xtoi (s : list Z) : Z * Z * bool := xtoi_loop s 0 0.

Definition drop (c : Z) (s : list Z) : list Z := skipn (Z.to_nat c) s.

(** The loop of [parseIPv4] over the four octets; [i] counts them. *)
Fixpoint parseIPv4_loop (fuel : nat) (i : Z) (s : list Z) (p : list Z) : option (list Z) :=
  match fuel with
  | O => match s with [] => Some p | _ => None end
  | S fuel' =>
      match s with
      | [] => None
      | b0 :: r =>
          let dotted :=
            if 0 <? i then (if b0 =? 46 then Some r else None)
            else Some s in
          match dotted with
          | None => None
          | Some s1 =>
              let '(n, c, ok) := dtoi s1 in
              if negb ok || (255 <? n) then None
              else if (1 <? c) && (nth 0 s1 0 =? 48) then None
              else parseIPv4_loop fuel' (i + 1) (drop c s1) (p ++ [n])
          end
      end
  end.

(** [v4InV6Prefix] *)
Definition v4InV6Prefix : list Z := [0; 0; 0; 0; 0; 0; 0; 0; 0; 0; 255; 255].

(** [IPv4(a, b, c, d)]: the 16-byte form of an IPv4 address. *)
Definition IPv4 (p : list Z) : list Z := v4InV6Prefix ++ p.

Definition parseIPv4 (s : list Z) : option (list Z) :=
  match parseIPv4_loop 4 0 s [] with
  | Some p => Some (IPv4 p)
  | None => None
  end.

(** [ip[i] = v] on the 16-byte slice. *)
Definition put (ip : list Z) (i : Z) (v : Z) : list Z := Pattern.set ip i v.

(** The state of the main loop of [parseIPv6] when it is left: the
    address so far, the write position, the ellipsis position and the
    text not yet read. *)
Record v6state := { v6ip : list Z; v6i : Z; v6ellipsis : Z; v6rest : list Z }.

Fixpoint parseIPv6_loop (fuel : nat) (ip : list Z) (i : Z) (ellipsis : Z) (s : list Z)
  : option v6state :=
  let stop := Some {| v6ip := ip; v6i := i; v6ellipsis := ellipsis; v6rest := s |} in
  match fuel with
  | O => stop
  | S fuel' =>
      if negb (i <? IPv6len) then stop
      else
        let '(n, c, ok) := xtoi s in
        if negb ok || (65535 <? n) then None
        else if (c <? Z.of_nat (List.length s)) && (nth (Z.to_nat c) s 0 =? 46) then
          if (ellipsis <? 0) && negb (i =? IPv6len - IPv4len) then None
          else if IPv6len <? i + IPv4len then None
          else match parseIPv4 s with
               | None => None
               | Some ip4 =>
                   let ip1 := put ip i (nth 12 ip4 0) in
                   let ip2 := put ip1 (i + 1) (nth 13 ip4 0) in
                   let ip3 := put ip2 (i + 2) (nth 14 ip4 0) in
                   let ip4' := put ip3 (i + 3) (nth 15 ip4 0) in
                   Some {| v6ip := ip4'; v6i := i + IPv4len;
                           v6ellipsis := ellipsis; v6rest := [] |}
               end
        else
          let ip1 := put (put ip i (Z.shiftr n 8 mod 256)) (i + 1) (n mod 256) in
          let i1 := i + 2 in
          let s1 := drop c s in
          match s1 with
          | [] => Some {| v6ip := ip1; v6i := i1; v6ellipsis := ellipsis; v6rest := [] |}
          | b0 :: s2 =>
              if negb (b0 =? 58) || (Z.of_nat (List.length s1) =? 1) then None
              else match s2 with
                   | b1 :: s3 =>
                       if b1 =? 58 then
                         if 0 <=? ellipsis then None
                         else match s3 with
                              | [] => Some {| v6ip := ip1; v6i := i1;
                                              v6ellipsis := i1; v6rest := [] |}
                              | _ => parseIPv6_loop fuel' ip1 i1 i1 s3
                              end
                       else parseIPv6_loop fuel' ip1 i1 ellipsis s2
                   | [] => parseIPv6_loop fuel' ip1 i1 ellipsis s2
                   end
          end
  end.

(** [for j := i - 1; j >= ellipsis; j-- { ip[j+n] = ip[j] }] *)
Fixpoint shiftUp (count : nat) (j : Z) (n : Z) (ip : list Z) : list Z :=
  match count with
  | O => ip
  | S count' => shiftUp count' (j - 1) n (put ip (j + n) (Pattern.get ip j))
  end.

(** [for j := ellipsis + n - 1; j >= ellipsis; j-- { ip[j] = 0 }] *)
Fixpoint zeroDown (count : nat) (j : Z) (ip : list Z) : list Z :=
  match count with
  | O => ip
  | S count' => zeroDown count' (j - 1) (put ip j 0)
  end.

Definition parseIPv6 (s : list Z) : option (list Z) :=
  let ip := repeat 0 16 in
  let lead :=
    match s with
    | b0 :: b1 :: r => if (b0 =? 58) && (b1 =? 58) then (0, r) else (-1, s)
    | _ => (-1, s)
    end in
  let '(ellipsis, s0) := lead in
  if (ellipsis =? 0) && (Z.of_nat (List.length s0) =? 0) then Some ip
  else
    match parseIPv6_loop 8 ip 0 ellipsis s0 with
    | None => None
    | Some st =>
        match v6rest st with
        | _ :: _ => None
        | [] =>
            let i := v6i st in
            let e := v6ellipsis st in
            if i <? IPv6len then
              if e <? 0 then None
              else
                let n := IPv6len - i in
                let ip1 := shiftUp (Z.to_nat (i - e)) (i - 1) n (v6ip st) in
                Some (zeroDown (Z.to_nat n) (e + n - 1) ip1)
            else if 0 <=? e then None
            else Some (v6ip st)
        end
    end.

(** The dispatch of [ParseIP] on the first dot or colon. *)
Fixpoint firstSep (s : list Z) : option Z :=
  match s with
  | [] => None
  | b :: r => if (b =? 46) || (b =? 58) then Some b else firstSep r
  end.

(** [net.ParseIP]: [None] is the nil [IP]. *)
Definition ParseIP (addr : string) : option (list Z) :=
  let s := bytes addr in
  match firstSep s with
  | Some sep => if sep =? 46 then parseIPv4 s else parseIPv6 s
  | None => None
  end.

End GoNet.

(* ================================================================= *)
(** ** time.Time, time.Parse and time.Duration *)

(** After [time/format.go] and [time/time.go] of the Go 1.19 library:
    [Parse] is unrolled for the one layout the program uses,
    [02/Jan/2006:15:04:05 -0700]. *)

Module GoTime.
Import GoString.

(** An instant: seconds since the Unix epoch, nanoseconds within the
    second, and the location pointer ([None] is the nil pointer that
    stands for UTC in a zero [time.Time]; [Some off] is a location
    object with the given offset in seconds). [==] on the Go struct
    compares the fields, the pointer included; the program only
    compares with the zero value, where comparing the pointer is
    telling [Some] from [None]. *)
Record t := mk { unix : Z; nsec : Z; loc : option Z }.

(** [time.Time{}]: January 1, year 1, 00:00:00 UTC, nil location. *)
Definition zero : t := {| unix := -62135596800; nsec := 0; loc := None |}.

Definition eqb (a b : t) : bool :=
  (unix a =? unix b) && (nsec a =? nsec b)
  && match loc a, loc b with
     | None, None => true
     | Some x, Some y => x =? y
     | _, _ => false
     end.

Definition isDigit (s : list Z) (i : nat) : bool :=
  match nth_error s i with
  | Some b => (48 <=? b) && (b <=? 57)
  | None => false
  end.

Definition errBad : string := "parsing time: bad value for field".

(** [getnum]: one or two digits ([fixed]: exactly two). *)
Definition getnum (s : list Z) (fixed : bool) : outcome (Z * list Z) :=
  if negb (isDigit s 0) then Err errBad
  else if negb (isDigit s 1) then
    if fixed then Err errBad else Ok (nth 0 s 0 - 48, skipn 1 s)
  else Ok ((nth 0 s 0 - 48) * 10 + (nth 1 s 0 - 48), skipn 2 s).

(** [skip] of a one-byte literal prefix other than a space. *)
Definition skipByte (c : Z) (s : list Z) : outcome (list Z) :=
  match s with
  | b :: r => if b =? c then Ok r else Err errBad
  | [] => Err errBad
  end.

Fixpoint cutspace (s : list Z) : list Z :=
  match s with
  | b :: r => if b =? 32 then cutspace r else s
  | [] => s
  end.

(** [skip] of the literal prefix that is one space: any run of spaces
    in the value, which must not start with anything else. *)
Definition skipSpace (s : list Z) : outcome (list Z) :=
  match s with
  | b :: _ => if b =? 32 then Ok (cutspace s) else Err errBad
  | [] => Ok []
  end.

Definition shortMonthNames : list string :=
  ["Jan"; "Feb"; "Mar"; "Apr"; "May"; "Jun"; "Jul"; "Aug"; "Sep"; "Oct"; "Nov"; "Dec"].

(** [match]: equality of two texts of the same length, ignoring the
    case of letters. *)
Fixpoint matchFold (s1 s2 : list Z) : bool :=
  match s1, s2 with
  | c1 :: r1, c2 :: r2 =>
      (if c1 =? c2 then true
       else let l1 := Z.lor c1 32 in
            let l2 := Z.lor c2 32 in
            (l1 =? l2) && (97 <=? l1) && (l1 <=? 122))
      && matchFold r1 r2
  | _, _ => true
  end.

(** [lookup] in a table of names; the index found and the rest. *)
Fixpoint lookup (tab : list string) (i : Z) (val : list Z) : outcome (Z * list Z) :=
  match tab with
  | [] => Err errBad
  | v :: tab' =>
      let n := String.length v in
      if (n <=? List.length val)%nat && matchFold (firstn n val) (bytes v)
      then Ok (i, skipn n val)
      else lookup tab' (i + 1) val
  end.

(** The value of a run of decimal digits. *)
Definition digitsValue (s : list Z) : Z := fold_left (fun n b => n * 10 + (b - 48)) s 0.

Definition allDigits (s : list Z) : bool := forallb (fun b => (48 <=? b) && (b <=? 57)) s.

(** [atoi] of the time package: an optional sign, then digits and
    nothing else. (The texts it is given here have at most four bytes,
    so its overflow check never fires.) *)
Definition atoi (s : list Z) : outcome Z :=
  let '(neg, digits) :=
    match s with
    | b :: r => if (b =? 45) || (b =? 43) then (b =? 45, r) else (false, s)
    | [] => (false, s)
    end in
  if allDigits digits
  then Ok (if neg then - digitsValue digits else digitsValue digits)
  else Err errBad.

(** The four-digit year of [stdLongYear]. *)
Definition getyear (s : list Z) : outcome (Z * list Z) :=
  if (List.length s <? 4)%nat || negb (isDigit s 0) then Err errBad
  else
    year <- atoi (firstn 4 s) ;;
    Ok (year, skipn 4 s).

Fixpoint digitRun (s : list Z) : nat :=
  match s with
  | b :: r => if (48 <=? b) && (b <=? 57) then S (digitRun r) else O
  | [] => O
  end.

(** The fractional second the input may carry after the seconds even
    though the layout has none: a comma or period and digits, of
    which [parseNanoseconds] reads at most nine. *)
Definition getfrac (s : list Z) : Z * list Z :=
  match s with
  | c :: r =>
      if ((c =? 46) || (c =? 44)) && isDigit s 1 then
        let n := digitRun r in
        let used := firstn 9 (firstn n r) in
        (digitsValue used * 10 ^ (9 - Z.of_nat (List.length used)), skipn n r)
      else (0, s)
  | [] => (0, s)
  end.

(** The numeric zone of [stdNumTZ]: a sign, two bytes of hours and two
    of minutes, each read by [atoi]; the offset in seconds. *)
Definition getzone (s : list Z) : outcome (Z * list Z) :=
  if (List.length s <? 5)%nat then Err errBad
  else
    hr <- atoi (firstn 2 (skipn 1 s)) ;;
    mm <- atoi (firstn 2 (skipn 3 s)) ;;
    let off := (hr * 60 + mm) * 60 in
    let sign := nth 0 s 0 in
    if sign =? 43 then Ok (off, skipn 5 s)
    else if sign =? 45 then Ok (- off, skipn 5 s)
    else Err errBad.

Definition isLeap (year : Z) : bool :=
  (year mod 4 =? 0) && (negb (year mod 100 =? 0) || (year mod 400 =? 0)).

Definition daysIn (month year : Z) : Z :=
  if (month =? 2) then (if isLeap year then 29 else 28)
  else if (month =? 4) || (month =? 6) || (month =? 9) || (month =? 11) then 30
  else 31.

(** Days from 1970-01-01 to the given day of the proleptic Gregorian
    calendar. *)
Definition daysFromCivil (y m d : Z) : Z :=
  let y' := if m <=? 2 then y - 1 else y in
  let era := y' / 400 in
  let yoe := y' - era * 400 in
  let mp := (m + 9) mod 12 in
  let doy := (153 * mp + 2) / 5 + d - 1 in
  let doe := yoe * 365 + yoe / 4 - yoe / 100 + doy in
  era * 146097 + doe - 719468.

(** [time.Date(year, month, day, hour, min, sec, nsec, UTC)] followed
    by [addSec(-zoneOffset)] and [setLoc] of a zone with that offset. *)
Definition Date (year month day hour min sec ns zoneOffset : Z) : t :=
  {| unix := daysFromCivil year month day * 86400 + hour * 3600 + min * 60 + sec
             - zoneOffset;
     nsec := ns;
     loc := Some zoneOffset |}.

Definition rangeErr (what : string) : string := "parsing time: " ++ what ++ " out of range".

(** [time.Parse("02/Jan/2006:15:04:05 -0700", value)] *)
Definition Parse (value : string) : outcome t :=
  '(day, v) <- getnum (bytes value) true ;;
  v <- skipByte 47 v ;;
  '(mi, v) <- lookup shortMonthNames 0 v ;;
  let month := mi + 1 in
  v <- skipByte 47 v ;;
  '(year, v) <- getyear v ;;
  v <- skipByte 58 v ;;
  '(hour, v) <- getnum v false ;;
  if 24 <=? hour then Err (rangeErr "hour") else
  v <- skipByte 58 v ;;
  '(min, v) <- getnum v true ;;
  if 60 <=? min then Err (rangeErr "minute") else
  v <- skipByte 58 v ;;
  '(sec, v) <- getnum v true ;;
  if 60 <=? sec then Err (rangeErr "second") else
  let '(ns, v) := getfrac v in
  v <- skipSpace v ;;
  '(zoneOffset, v) <- getzone v ;;
  match v with
  | _ :: _ => Err "parsing time: extra text"
  | [] =>
      if (day <? 1) || (daysIn month year <? day) then Err (rangeErr "day")
      else Ok (Date year month day hour min sec ns zoneOffset)
  end.

(** [time.Duration] is a count of nanoseconds in an [int64]. *)
Definition Microsecond : Z := 1000.
Definition Second : Z := 1000000000.

(** [t.Sub(u)]: the difference, or the largest (smallest) duration
    when the difference does not fit. *)
Definition Sub (a u : t) : Z :=
  let d := (unix a - unix u) * Second + (nsec a - nsec u) in
  if d <? Int64.min_int then Int64.min_int
  else if Int64.max_int <? d then Int64.max_int
  else d.

(** [d.Microseconds()] *)
Definition Microseconds (d : Z) : Z := Z.quot d 1000.

End GoTime.

(* ================================================================= *)
(** ** main.go *)

Module Log2Life.
Import GoString.
Export Float64.

(** [cmdlineArgs] *)
Record cmdlineArgs := {
  Logfile : string;
  Speed : spec_float;
  Columns : Z;
  Rows : Z;
  Port : Z;
  Host : string
}.

(** [var cfg]: the defaults. *)
Definition cfg : cmdlineArgs :=
  {| Logfile := ""; Speed := Float64.one; Columns := 100; Rows := 100;
     Port := 3051; Host := "127.0.0.1" |}.

Section Program.

(** The target architecture the binary was compiled for. *)
Variable arch : GOARCH.

(** [ip[i]] on the slice [net.ParseIP] returned. *)
Definition ipByte (ip : list Z) (i : nat) : outcome Z :=
  match nth_error ip i with
  | Some b => Ok b
  | None => Panic "index out of range"
  end.

(** [int(float64(int(hi)<<8+int(lo))/0xffff*float64(size)) - size/2] *)
Definition scale (hi lo size : Z) : Z :=
  Int64.wrap
    (to_int64 arch
       (Float64.mul
          (Float64.div (Float64.of_int (Z.shiftl hi 8 + lo)) (Float64.of_int 65535))
          (Float64.of_int size))
     - Z.quot size 2).

(** [IPToXY] *)
Definition IPToXY (addr : string) (width height : Z) : outcome (Z * Z) :=
  match GoNet.ParseIP addr with
  | None => Ok (0, 0)
  | Some ip =>
      b12 <- ipByte ip 12 ;;
      b13 <- ipByte ip 13 ;;
      let x := scale b12 b13 width in
      b14 <- ipByte ip 14 ;;
      b15 <- ipByte ip 15 ;;
      let y := scale b14 b15 height in
      Ok (x, y)
  end.

(** [LineToPattern] *)
Definition LineToPattern (line : string) (width height : Z)
  : outcome (list string * GoTime.t) :=
  let fields := SplitN line " " 4 in
  f0 <- field fields 0 ;;
  if String.eqb f0 "-" || String.eqb (TrimSpace f0) ""
  then Err "No client IP address"
  else
    '(x, y) <- IPToXY f0 width height ;;
    f3 <- field fields 3 ;;
    let fields := SplitN f3 "]" 2 in
    g0 <- field fields 0 ;;
    stamp <- sliceFrom g0 1 ;;
    timestamp <- GoTime.Parse stamp ;;
    g1 <- field fields 1 ;;
    let data := Pattern.encode (bytes g1) in
    Ok (Pattern.MakeLife105 x y data, timestamp).

(** The delay expression of the main loop:
    [time.Duration(float64(timestamp.Sub(lastTime).Microseconds())*1/cfg.Speed)
     * time.Microsecond] *)
Definition delayOf (lastTime timestamp : GoTime.t) (speed : spec_float) : Z :=
  Int64.wrap
    (to_int64 arch
       (Float64.div
          (Float64.mul
             (Float64.of_int (GoTime.Microseconds (GoTime.Sub timestamp lastTime)))
             Float64.one)
          speed)
     * GoTime.Microsecond).

(** The pacing step: [None] when [lastTime] is the zero time, so that
    nothing is computed and [time.Sleep] is not called. *)
Definition pacing (lastTime timestamp : GoTime.t) (speed : spec_float) : option Z :=
  if GoTime.eqb lastTime GoTime.zero then None
  else Some (delayOf lastTime timestamp speed).

(** How long [time.Sleep(d)] blocks: not at all for [d <= 0]. *)
Definition slept (d : option Z) : Z :=
  match d with
  | Some d => Z.max 0 d
  | None => 0
  end.

(** What one run does that can be seen from outside. *)
Inductive event :=
| LogPrint (msg : string)
| Delaying (d : Z)
| Sleeping (d : Z)
| Echo (pattern : list string)
| Post (pattern : list string)
| PostError (msg : string).

(** How a run ends: [os.Exit]-style status, or a panic. *)
Inductive ending :=
| Exit (code : Z)
| Crash (why : string).

(** [SendPattern], as far as the program can tell: for the [n]-th
    input line and its pattern, nil or the error of the POST. *)
Variable SendPattern : nat -> list string -> option string.

(** The speed in force: [cfg.Speed = 0] when the file name is [-]. *)
Definition speedFor (filename : string) (c : cmdlineArgs) : spec_float :=
  if String.eqb filename "-" then S754_zero false else Speed c.

(** The [for scanner.Scan()] loop of [main] over the lines the
    scanner yields, then [scanner.Err()]: [readErr] is the error the
    scanner stopped on, if any, and [n] counts the lines read. A panic
    unwinds [main]; nothing of the line that panicked is printed. *)
Fixpoint scanLoop (c : cmdlineArgs) (speed : spec_float) (readErr : option string)
  (n : nat) (lines : list string) (lastTime : GoTime.t) : list event * ending :=
  match lines with
  | [] =>
      match readErr with
      | Some e => ([LogPrint e], Exit 1)
      | None => ([], Exit 0)
      end
  | line :: rest =>
      match LineToPattern line (Columns c) (Rows c) with
      | Panic why => ([], Crash why)
      | Err e =>
          let '(evs, fin) := scanLoop c speed readErr (S n) rest lastTime in
          (LogPrint e :: evs, fin)
      | Ok (pattern, timestamp) =>
          let paced :=
            match pacing lastTime timestamp speed with
            | Some delay => [Delaying delay; Sleeping delay]
            | None => []
            end in
          let sent :=
            match SendPattern n pattern with
            | Some e => [PostError e]
            | None => []
            end in
          let '(evs, fin) := scanLoop c speed readErr (S n) rest timestamp in
          ((paced ++ [Echo pattern; Post pattern] ++ sent ++ evs)%list, fin)
      end
  end.

(** [main], once the input is open. *)
Definition main (filename : string) (c : cmdlineArgs) (readErr : option string)
  (lines : list string) : list event * ending :=
  scanLoop c (speedFor filename c) readErr 0 lines GoTime.zero.

End Program.

End Log2Life.

(* ================================================================= *)
(** ** The specification's side *)

Module Spec.
Import GoString.

(** The payload with its double-quote bytes removed. *)
Definition withoutQuotes (payload : list Z) : list Z :=
  filter (fun b => negb (b =? 34)) payload.

(** The bytes of [q] paired with their fold positions [s], [s+1], ... *)
Definition positioned (s : nat) (q : list Z) : list (nat * Z) :=
  combine (seq s (List.length q)) q.

(** The XOR of the bytes of [q] whose position [i], counted from [s],
    satisfies [i mod 8 = j]. *)
Definition lane (s : nat) (j : Z) (q : list Z) : Z :=
  fold_right Z.lxor 0
    (map snd (filter (fun ib => Z.of_nat (fst ib) mod 8 =? j) (positioned s q))).

(** Fingerprint byte [j] as the specification words it: the XOR of all
    non-quote payload bytes whose quote-skipping position is [j]
    modulo 8. *)
Definition fingerprintByte (payload : list Z) (j : Z) : Z :=
  lane 0 j (withoutQuotes payload).

Definition lanes : list Z := [0; 1; 2; 3; 4; 5; 6; 7].

(** A row of the grid as the specification words it: cell [k] is alive
    iff bit [7 - k] of the byte is set. *)
Definition cell (b : Z) (k : Z) : ascii := if Z.testbit b (7 - k) then "*"%char else "."%char.

Definition rowOf (b : Z) : string := string_of_list_ascii (map (cell b) lanes).

(** The four header lines: format tag, description, name, and the
    position with both coordinates in decimal, one space between. *)
Definition header (x y : Z) : list string :=
  ["#Life 1.05"; "#D log2life ouput"; "#N"; "#P " ++ fmt_d x ++ " " ++ fmt_d y].

(** The integer a decimal text denotes. *)
Definition decimalValue (s : string) : option Z :=
  option_map Z.of_int (NilZero.int_of_string s).

Definition isByte (b : Z) : Prop := 0 <= b < 256.
Definition isAscii7 (b : Z) : Prop := 0 <= b < 128.

(** The log line of the specification's parsing example. *)
Definition exampleLine : string :=
  "10.0.0.1 - - [20/Nov/2022:02:27:49 +0000] "
  ++ str1 quote ++ "GET / HTTP/1.1" ++ str1 quote ++ " 200 100".

(** The request string of that line, quotes stripped. *)
Definition exampleRequest : string := "GET / HTTP/1.1".

(** What follows the first closing bracket of that line, quotes
    stripped. *)
Definition exampleRemainder : string := " GET / HTTP/1.1 200 100".

(** 2022-11-20T02:27:49+00:00 *)
Definition exampleInstant : GoTime.t := GoTime.Date 2022 11 20 2 27 49 0 0.

(** What follows the first closing bracket of that line, as it is. *)
Definition exampleAfterBracket : string :=
  " " ++ str1 quote ++ "GET / HTTP/1.1" ++ str1 quote ++ " 200 100".

(** The same line answered with status 404 instead of 200. *)
Definition exampleLine404 : string :=
  "10.0.0.1 - - [20/Nov/2022:02:27:49 +0000] "
  ++ str1 quote ++ "GET / HTTP/1.1" ++ str1 quote ++ " 404 100".

(** A line of one field only. *)
Definition shortLine : string := "10.0.0.1".

(** An IPv6 literal, its sixteen bytes, and the dotted IPv4 address
    made of its last four bytes. *)
Definition ipv6Example : string := "2001:db8::ff00:42:8329".
Definition ipv6ExampleBytes : list Z :=
  [32; 1; 13; 184; 0; 0; 0; 0; 0; 0; 255; 0; 0; 66; 131; 41].
Definition ipv4Twin : string := "0.66.131.41".

Definition below (n b : Z) : Prop := 0 <= b < 2 ^ n.

(** One second after the example instant. *)
Definition exampleNext : GoTime.t := GoTime.Date 2022 11 20 2 27 50 0 0.

(** The speeds 1.0, 2.0, 3.0 and -1.0. *)
Definition speed1 : spec_float := Float64.of_int 1.
Definition speedMinus1 : spec_float := Float64.of_int (-1).

(** No [time.Sleep] of the run blocks. *)
Definition neverBlocks (evs : list Log2Life.event) : Prop :=
  Forall (fun ev => match ev with
                    | Log2Life.Sleeping d => d <= 0
                    | _ => True
                    end) evs.

(** A byte sequence as a Go string. *)
Definition ofBytes (bs : list Z) : string :=
  string_of_list_ascii (map (fun b => ascii_of_N (Z.to_N b)) bs).

(** An octet printed in decimal without leading zeros. *)
Definition decimal (n : Z) : list Z :=
  if n <? 10 then [48 + n]
  else if n <? 100 then [48 + n / 10; 48 + n mod 10]
  else [48 + n / 100; 48 + n / 10 mod 10; 48 + n mod 10].

(** The dotted-quad text of four octets. *)
Definition dotted (a b c d : Z) : string :=
  ofBytes (decimal a ++ 46 :: decimal b ++ 46 :: decimal c ++ 46 :: decimal d)%list.

Definition hexDigit (d : Z) : Z := if d <? 10 then 48 + d else 87 + d.

(** A 16-bit group printed as four hexadecimal digits. *)
Definition hex4 (g : Z) : list Z :=
  [hexDigit (g / 4096); hexDigit (g / 256 mod 16); hexDigit (g / 16 mod 16);
   hexDigit (g mod 16)].

Fixpoint colonJoin (groups : list Z) : list Z :=
  match groups with
  | [] => []
  | [g] => hex4 g
  | g :: rest => (hex4 g ++ 58 :: colonJoin rest)%list
  end.

(** The full text form of an IPv6 address: its groups in hexadecimal,
    colons between. *)
Definition fullForm (groups : list Z) : string := ofBytes (colonJoin groups).

(** The bytes of a list of 16-bit groups, high byte first. *)
Definition groupBytes (groups : list Z) : list Z :=
  flat_map (fun g => [g / 256; g mod 256]) groups.

Definition isGroup (g : Z) : Prop := 0 <= g < 65536.

(** What may follow a printed octet: nothing, or a dot. *)
Definition sepOrEnd (rest : list Z) : Prop :=
  match rest with [] => True | b :: _ => b = 46 end.

(** 2001:0db8:0000:0000:0000:ff00:0042:8329 as groups. *)
Definition exampleGroups : list Z := [8193; 3512; 0; 0; 0; 65280; 66; 33577].

End Spec.

(* ================================================================= *)
(** ** SendPattern *)

Module Wire.
Import GoString.

(** The line feed [strings.Join] puts between the lines. *)
Definition lf : ascii := ascii_of_nat 10.
Definition newline : string := str1 lf.

(** What [http.Post] is called with. *)
Record request := { url : string; contentType : string; body : string }.

(** What comes back: the error of the POST, or a response whose body
    [io.ReadAll] reads to its end with or without an error. *)
Inductive reply :=
| PostFailed (err : string)
| Response (readErr : option string).

(** The call [SendPattern] makes. *)
Definition requestOf (host : string) (port : Z) (pattern : list string) : request :=
  {| url := "http://" ++ host ++ ":" ++ fmt_d port;
     contentType := "text/plain";
     body := Join pattern newline |}.

(** [SendPattern]: nil ([None]) or the error; [post] is the network. *)
Definition SendPattern (post : request -> reply) (host : string) (port : Z)
  (pattern : list string) : option string :=
  match post (requestOf host port pattern) with
  | PostFailed err => Some err
  | Response readErr => readErr
  end.

(** [main] with [SendPattern] spelled out: [net n] is the network as
    the [n]-th input line finds it. *)
Definition run (arch : Float64.GOARCH) (net : nat -> request -> reply)
  (filename : string) (c : Log2Life.cmdlineArgs) (readErr : option string)
  (lines : list string) : list Log2Life.event * Log2Life.ending :=
  Log2Life.main arch
    (fun n pattern => SendPattern (net n) (Log2Life.Host c) (Log2Life.Port c) pattern)
    filename c readErr lines.

End Wire.

(* ================================================================= *)
(** ** [main] from its first line *)

(** [Log2Life.main] is the loop of [main] over an input that is open.
    Here is what comes before it: the banner on standard output and
    the opening of the file. The banner is kept as the values
    [fmt.Printf] is given, not as the text it makes of them. *)

Module Startup.

(** [Playback of <stdin> to %s:%d in realtime] and
    [Playback of %s to %s:%d at %0.1fx speed]. *)
Inductive banner :=
| Realtime (host : string) (port : Z)
| Playback (filename host : string) (port : Z) (speed : spec_float).

(** A run from its first line: the banner if one is printed, what the
    loop shows after it, and how the run ends. *)
Record run := {
  heading : option banner;
  trace : list Log2Life.event;
  status : Log2Life.ending
}.

(** [log.Fatal(err)] before the loop. *)
Definition fatal (heading : option banner) (err : string) : run :=
  {| heading := heading; trace := [Log2Life.LogPrint err]; status := Log2Life.Exit 1 |}.

(** The loop under a banner. *)
Definition under (heading : option banner)
  (loop : list Log2Life.event * Log2Life.ending) : run :=
  {| heading := heading; trace := fst loop; status := snd loop |}.

(** [main] of the later revision, for a command line with a file
    name: [openErr] is the error of [os.Open], if any. Standard input
    is not opened. *)
Definition main (arch : Float64.GOARCH)
  (SendPattern : nat -> list string -> option string)
  (filename : string) (c : Log2Life.cmdlineArgs) (openErr readErr : option string)
  (lines : list string) : run :=
  if String.eqb filename "-"
  then under (Some (Realtime (Log2Life.Host c) (Log2Life.Port c)))
         (Log2Life.main arch SendPattern filename c readErr lines)
  else
    match openErr with
    | Some err => fatal None err
    | None =>
        under (Some (Playback filename (Log2Life.Host c) (Log2Life.Port c)
                       (Log2Life.Speed c)))
          (Log2Life.main arch SendPattern filename c readErr lines)
    end.

End Startup.

(* ================================================================= *)
(** ** main.go, the earlier revision *)

(** The first half of the file: the program before it read the
    timestamps. [IPToXY], [SendPattern] and [MakeLife105] are the same
    text in both halves. *)

Module Earlier.
Import GoString.

(** [cmdlineArgs] *)
Record cmdlineArgs := {
  Logfile : string;
  Speed : spec_float;
  Width : Z;
  Height : Z;
  Port : Z;
  Host : string
}.

(** [var cfg]: the defaults. *)
Definition cfg : cmdlineArgs :=
  {| Logfile := ""; Speed := Float64.one; Width := 100; Height := 100;
     Port := 3051; Host := "127.0.0.1" |}.

Section Program.

Variable arch : Float64.GOARCH.

(** [LineToPattern] *)
Definition LineToPattern (line : string) (width height : Z) : outcome (list string) :=
  let fields := SplitN line " " 4 in
  f0 <- field fields 0 ;;
  if String.eqb f0 "-" || String.eqb (TrimSpace f0) ""
  then Err "No client IP address"
  else
    '(x, y) <- Log2Life.IPToXY arch f0 width height ;;
    f3 <- field fields 3 ;;
    let fields := SplitN f3 "]" 2 in
    g1 <- field fields 1 ;;
    let data := Pattern.encode (bytes g1) in
    Ok (Pattern.MakeLife105 x y data).

Variable SendPattern : nat -> list string -> option string.

(** The [for scanner.Scan()] loop of [main], then [scanner.Err()]. *)
Fixpoint scanLoop (c : cmdlineArgs) (readErr : option string) (n : nat)
  (lines : list string) : list Log2Life.event * Log2Life.ending :=
  match lines with
  | [] =>
      match readErr with
      | Some e => ([Log2Life.LogPrint e], Log2Life.Exit 1)
      | None => ([], Log2Life.Exit 0)
      end
  | line :: rest =>
      match LineToPattern line (Width c) (Height c) with
      | Panic why => ([], Log2Life.Crash why)
      | Err e =>
          let '(evs, fin) := scanLoop c readErr (S n) rest in
          (Log2Life.LogPrint e :: evs, fin)
      | Ok pattern =>
          let sent :=
            match SendPattern n pattern with
            | Some e => [Log2Life.PostError e]
            | None => []
            end in
          let '(evs, fin) := scanLoop c readErr (S n) rest in
          (([Log2Life.Echo pattern; Log2Life.Post pattern] ++ sent ++ evs)%list, fin)
      end
  end.

(** [main], for a command line with a file name: [statErr] and
    [openErr] are the errors of [os.Stat] and [os.Open], if any. The
    banner is printed between the two, and only for a file. *)
Definition main (filename : string) (c : cmdlineArgs)
  (statErr openErr readErr : option string) (lines : list string) : Startup.run :=
  if String.eqb filename "-"
  then Startup.under None (scanLoop c readErr 0 lines)
  else
    match statErr with
    | Some err => Startup.fatal None err
    | None =>
        let heading := Some (Startup.Playback filename (Host c) (Port c) (Speed c)) in
        match openErr with
        | Some err => Startup.fatal heading err
        | None => Startup.under heading (scanLoop c readErr 0 lines)
        end
    end.

End Program.

End Earlier.

(* ================================================================= *)
(** ** Vocabulary of the further properties *)

Module Vocabulary.
Import GoString.

(** The byte [sep] does not occur in [s]. *)
Fixpoint free (sep : ascii) (s : string) : bool :=
  match s with
  | EmptyString => true
  | String c r => negb (Ascii.eqb c sep) && free sep r
  end.

(** The text of a line before its first space: all of it when it has
    no space. *)
Definition firstField (line : string) : string :=
  match cut " " line with
  | Some (a, _) => a
  | None => line
  end.

(** The timestamp text of a line, as [LineToPattern] takes it: the
    fourth field from its second byte up to the first closing bracket,
    or up to its end when it has none. There is none when the line has
    fewer than four fields or nothing stands before the bracket. *)
Definition stampOf (line : string) : option string :=
  match SplitN line " " 4 with
  | [_; _; _; f3] =>
      match (match cut "]" f3 with Some (g0, _) => g0 | None => f3 end) with
      | String _ stamp => Some stamp
      | EmptyString => None
      end
  | _ => None
  end.

(** A character of a number printed by [%d]: a digit or the minus
    sign. *)
Definition decimalChar (c : ascii) : bool :=
  Ascii.eqb c "-" || ((48 <=? byte_of c) && (byte_of c <=? 57)).

(** [s] starts with [pre]. *)
Definition startsWith (pre s : string) : bool := String.prefix pre s.

(** [s] cut at every occurrence of [sep]. *)
Fixpoint splitOn (sep : ascii) (s : string) : list string :=
  match s with
  | EmptyString => [EmptyString]
  | String c r =>
      if Ascii.eqb c sep then EmptyString :: splitOn sep r
      else match splitOn sep r with
           | h :: t => String c h :: t
           | [] => [str1 c]
           end
  end.

(** The byte a row of the grid stands for: a star is a 1 bit, a period
    a 0 bit, the leftmost cell the highest bit. *)
Fixpoint rowBits (acc : Z) (r : string) : option Z :=
  match r with
  | EmptyString => Some acc
  | String c r' =>
      if Ascii.eqb c "*" then rowBits (2 * acc + 1) r'
      else if Ascii.eqb c "." then rowBits (2 * acc) r'
      else None
  end.

Definition rowByte (r : string) : option Z := rowBits 0 r.

Fixpoint traverse {A B} (f : A -> option B) (l : list A) : option (list B) :=
  match l with
  | [] => Some []
  | a :: r =>
      match f a, traverse f r with
      | Some b, Some bs => Some (b :: bs)
      | _, _ => None
      end
  end.

(** A Life 1.05 document of one block read back: the position of the
    [#P] line and the bytes of the rows. *)
Definition decode (pattern : list string) : option (Z * Z * list Z) :=
  match pattern with
  | _ :: _ :: _ :: String "#" (String "P" (String " " position)) :: rows =>
      match cut " " position with
      | Some (a, b) =>
          match Spec.decimalValue a, Spec.decimalValue b, traverse rowByte rows with
          | Some x, Some y, Some data => Some (x, y, data)
          | _, _, _ => None
          end
      | None => None
      end
  | _ => None
  end.

(** The patterns posted, the patterns echoed and the sleeps of a run,
    in order. *)
Definition posts (evs : list Log2Life.event) : list (list string) :=
  flat_map (fun ev => match ev with Log2Life.Post p => [p] | _ => [] end) evs.

Definition echoes (evs : list Log2Life.event) : list (list string) :=
  flat_map (fun ev => match ev with Log2Life.Echo p => [p] | _ => [] end) evs.

Definition sleeps (evs : list Log2Life.event) : list Z :=
  flat_map (fun ev => match ev with Log2Life.Sleeping d => [d] | _ => [] end) evs.

Definition announced (evs : list Log2Life.event) : list Z :=
  flat_map (fun ev => match ev with Log2Life.Delaying d => [d] | _ => [] end) evs.

Definition isPostError (ev : Log2Life.event) : bool :=
  match ev with Log2Life.PostError _ => true | _ => false end.

Definition isPacing (ev : Log2Life.event) : bool :=
  match ev with Log2Life.Delaying _ | Log2Life.Sleeping _ => true | _ => false end.

(** A trace without the [ERROR:] lines of failed POSTs. *)
Definition withoutPostErrors (evs : list Log2Life.event) : list Log2Life.event :=
  filter (fun ev => negb (isPostError ev)) evs.

(** A trace without the pacing. *)
Definition withoutPacing (evs : list Log2Life.event) : list Log2Life.event :=
  filter (fun ev => negb (isPacing ev)) evs.

(** What the lines give, in order, up to the first one that panics:
    the pattern and the timestamp of each line that is accepted. *)
Fixpoint delivered (arch : Float64.GOARCH) (width height : Z) (lines : list string)
  : list (list string * GoTime.t) :=
  match lines with
  | [] => []
  | line :: rest =>
      match Log2Life.LineToPattern arch line width height with
      | Ok pt => pt :: delivered arch width height rest
      | Err _ => delivered arch width height rest
      | Panic _ => []
      end
  end.

(** The delays between an instant and those that follow it, each
    measured from the one before. *)
Fixpoint gaps (delay : GoTime.t -> GoTime.t -> Z) (last : GoTime.t)
  (stamps : list GoTime.t) : list Z :=
  match stamps with
  | [] => []
  | s :: rest => delay last s :: gaps delay s rest
  end.

(** A line the later revision accepts or rejects for its address. *)
Definition timely (arch : Float64.GOARCH) (width height : Z) (line : string) : Prop :=
  (exists pattern ts,
     Log2Life.LineToPattern arch line width height = Ok (pattern, ts))
  \/ Log2Life.LineToPattern arch line width height = Err "No client IP address".

(** A network that always answers, and a log of three lines: the
    example line, a line without address, the example line answered
    with 404. *)
Definition quietNetwork (n : nat) (pattern : list string) : option string := None.

Definition exampleLog : list string := [Spec.exampleLine; "- - -"; Spec.exampleLine404].

(** A decimal digit in ASCII. *)
Definition digit (b : Z) : Prop := 48 <= b <= 57.

(** A number below 100 in two decimal digits, a number below 10000 in
    four. *)
Definition two (n : Z) : list Z := [48 + n / 10; 48 + n mod 10].

Definition four (n : Z) : list Z :=
  [48 + n / 1000; 48 + n / 100 mod 10; 48 + n / 10 mod 10; 48 + n mod 10].

(** The offset of a zone written as a sign, hours and minutes, in
    seconds east of Greenwich. *)
Definition zoneSeconds (east : bool) (zh zm : Z) : Z :=
  if east then (zh * 60 + zm) * 60 else - ((zh * 60 + zm) * 60).

(** An instant written as the log has it, [02/Jan/2006:15:04:05 -0700]:
    [month] counts from 0. *)
Definition stampText (day : Z) (month : nat) (year hour min sec : Z)
  (east : bool) (zh zm : Z) : string :=
  Spec.ofBytes
    (two day ++ 47 :: bytes (nth month GoTime.shortMonthNames "")
     ++ 47 :: four year ++ 58 :: two hour ++ 58 :: two min ++ 58 :: two sec
     ++ 32 :: (if east then 43 else 45) :: two zh ++ two zm)%list.

(** The time a run spends asleep: [time.Sleep] of a negative duration
    returns at once. *)
Definition totalSleep (evs : list Log2Life.event) : Z :=
  fold_right Z.add 0 (map (Z.max 0) (sleeps evs)).

(** Whole-second instants in order after [last], each within the reach
    of a [Duration] from the one before. *)
Fixpoint steady (last : GoTime.t) (stamps : list GoTime.t) : Prop :=
  match stamps with
  | [] => True
  | s :: rest =>
      GoTime.nsec s = 0
      /\ GoTime.unix last <= GoTime.unix s
      /\ (GoTime.unix s - GoTime.unix last) * GoTime.Second <= Int64.max_int
      /\ steady s rest
  end.

(** A log of three lines: the example line, a line without address,
    and a request three seconds after the first. *)
Definition laterLine : string :=
  "10.0.0.2 - - [20/Nov/2022:02:27:52 +0000] "
  ++ str1 quote ++ "GET /a HTTP/1.1" ++ str1 quote ++ " 200 7".

Definition laterInstant : GoTime.t := GoTime.Date 2022 11 20 2 27 52 0 0.

Definition pacedLog : list string := [Spec.exampleLine; "- - -"; laterLine].

(** Midnight of 1 January 1700, UTC. *)
Definition earlyInstant : GoTime.t := GoTime.Date 1700 1 1 0 0 0 0 0.

(** The log lines of a run: those of rejected records, of failed POSTs
    and of the read error. *)
Definition isReport (ev : Log2Life.event) : bool :=
  match ev with Log2Life.LogPrint _ | Log2Life.PostError _ => true | _ => false end.

(** A trace without its log lines. *)
Definition withoutReports (evs : list Log2Life.event) : list Log2Life.event :=
  filter (fun ev => negb (isReport ev)) evs.

(** What accepted records show, one record after the other: from the
    second record on the delay since the record before, announced and
    then slept; then the pattern, echoed and then posted. [last] is
    the instant of the record before, if there is one. *)
Fixpoint paced (delay : GoTime.t -> GoTime.t -> Z) (last : option GoTime.t)
  (records : list (list string * GoTime.t)) : list Log2Life.event :=
  match records with
  | [] => []
  | (pattern, ts) :: rest =>
      (match last with
       | Some l => [Log2Life.Delaying (delay l ts); Log2Life.Sleeping (delay l ts)]
       | None => []
       end
       ++ [Log2Life.Echo pattern; Log2Life.Post pattern]
       ++ paced delay (Some ts) rest)%list
  end.

(** No line of the list panics. *)
Definition panicFree (arch : Float64.GOARCH) (width height : Z) (lines : list string)
  : Prop :=
  Forall (fun line => forall why,
            Log2Life.LineToPattern arch line width height <> Panic why) lines.

(** The bytewise XOR of two fingerprints. *)
Fixpoint xorBytes (a b : list Z) : list Z :=
  match a, b with
  | x :: a', y :: b' => Z.lxor x y :: xorBytes a' b'
  | _, _ => []
  end.

(** A result of the time package's parser: never a panic, and an
    error text that starts with [parsing time]. ([GoTime] keeps the
    texts short, without the quoted value the library puts in; all
    that is used of them is that none is the text of the missing
    address.) *)
Definition parserResult {A} (o : outcome A) : Prop :=
  match o with
  | Ok _ => True
  | Err e => startsWith "parsing time" e = true
  | Panic _ => False
  end.

(** What [LineToPattern] does with the fourth field. *)
Definition bracketField (arch : Float64.GOARCH) (x y : Z) (f3 : string)
  : outcome (list string * GoTime.t) :=
  match f3 with
  | EmptyString => Panic "slice bounds out of range"
  | String _ r =>
      match cut "]" f3 with
      | Some (EmptyString, _) => Panic "slice bounds out of range"
      | Some (String _ stamp, rest) =>
          match GoTime.Parse stamp with
          | Ok ts => Ok (Pattern.MakeLife105 x y (Pattern.encode (bytes rest)), ts)
          | Err e => Err e
          | Panic w => Panic w
          end
      | None =>
          match GoTime.Parse r with
          | Ok _ => Panic "index out of range"
          | Err e => Err e
          | Panic w => Panic w
          end
      end
  end.

End Vocabulary.

(* ================================================================= *)
(** ** IPv6 address text *)

(** The text forms of an IPv6 address (RFC 4291, section 2.2): groups
    of one to four hexadecimal digits with colons between, at most one
    [::] standing for one or more groups of zeros, and optionally a
    dotted quad in place of the last two groups. This is the
    specification's side: what a well-formed literal is and which
    sixteen bytes it denotes, written without the parser. *)

Module IPv6Text.
Import GoString.

(** A hexadecimal digit, either case. *)
Definition isHexDigit (b : Z) : bool :=
  ((48 <=? b) && (b <=? 57)) || ((97 <=? b) && (b <=? 102))
  || ((65 <=? b) && (b <=? 70)).

Definition digitValue (b : Z) : Z :=
  if b <=? 57 then b - 48 else if b <=? 70 then b - 55 else b - 87.

(** A group as it is written: one to four hexadecimal digits. *)
Definition isGroupText (g : string) : bool :=
  (1 <=? String.length g)%nat && (String.length g <=? 4)%nat
  && forallb isHexDigit (bytes g).

(** The 16-bit value a group denotes, and its two bytes. *)
Definition groupValue (g : string) : Z :=
  fold_left (fun n b => n * 16 + digitValue b) (bytes g) 0.

Definition groupBytes (g : string) : list Z :=
  [groupValue g / 256; groupValue g mod 256].

Definition isOctet (n : Z) : bool := (0 <=? n) && (n <? 256).

(** What is written from some group on: a last group, a last group
    before a closing [::], a closing dotted quad, or a group followed
    by [:] or by [::] and more. *)
Inductive pieces :=
| Last (g : string)
| LastGap (g : string)
| Quad (a b c d : Z)
| Colon (g : string) (r : pieces)
| Gap (g : string) (r : pieces).

(** A literal: [::] alone, [::] and pieces, or pieces. *)
Inductive literal :=
| Unspecified
| FromGap (r : pieces)
| From (r : pieces).

Fixpoint piecesText (r : pieces) : string :=
  match r with
  | Last g => g
  | LastGap g => g ++ "::"
  | Quad a b c d => Spec.dotted a b c d
  | Colon g r => g ++ ":" ++ piecesText r
  | Gap g r => g ++ "::" ++ piecesText r
  end.

Definition text (l : literal) : string :=
  match l with
  | Unspecified => "::"
  | FromGap r => "::" ++ piecesText r
  | From r => piecesText r
  end.

(** The bytes the pieces denote, in order. *)
Fixpoint written (r : pieces) : list Z :=
  match r with
  | Last g | LastGap g => groupBytes g
  | Quad a b c d => [a; b; c; d]
  | Colon g r | Gap g r => (groupBytes g ++ written r)%list
  end.

(** Those in front of the first [::], and those behind it. *)
Fixpoint before (r : pieces) : list Z :=
  match r with
  | Last g | LastGap g => groupBytes g
  | Quad a b c d => [a; b; c; d]
  | Colon g r => (groupBytes g ++ before r)%list
  | Gap g _ => groupBytes g
  end.

Fixpoint after (r : pieces) : list Z :=
  match r with
  | Last _ | LastGap _ | Quad _ _ _ _ => []
  | Colon _ r => after r
  | Gap _ r => written r
  end.

(** How many times [::] is written. *)
Fixpoint gaps (r : pieces) : nat :=
  match r with
  | Last _ | Quad _ _ _ _ => 0
  | LastGap _ => 1
  | Colon _ r => gaps r
  | Gap _ r => S (gaps r)
  end.

(** Every group is a group text and every octet of the quad a byte. *)
Fixpoint wellWritten (r : pieces) : bool :=
  match r with
  | Last g | LastGap g => isGroupText g
  | Quad a b c d => isOctet a && isOctet b && isOctet c && isOctet d
  | Colon g r | Gap g r => isGroupText g && wellWritten r
  end.

(** A well-formed literal: without [::] it denotes all sixteen bytes,
    with one [::] at most fourteen, the [::] standing for the rest. *)
Definition wellFormed (l : literal) : bool :=
  match l with
  | Unspecified => true
  | FromGap r =>
      wellWritten r && (gaps r =? 0)%nat && (List.length (written r) <=? 14)%nat
  | From r =>
      wellWritten r
      && (((gaps r =? 0)%nat && (List.length (written r) =? 16)%nat)
          || ((gaps r =? 1)%nat && (List.length (written r) <=? 14)%nat))
  end.

(** The sixteen bytes a literal denotes: the [::] filled with zeros. *)
Definition address (l : literal) : list Z :=
  match l with
  | Unspecified => repeat 0 16
  | FromGap r => (repeat 0 (16 - List.length (written r)) ++ written r)%list
  | From r =>
      (before r ++ repeat 0 (16 - List.length (written r)) ++ after r)%list
  end.

(** [2001:db8::ff00:42:8329], and [::ffff:192.0.2.128]. *)
Definition example : literal :=
  From (Colon "2001" (Gap "db8" (Colon "ff00" (Colon "42" (Last "8329"))))).

Definition mapped : literal := FromGap (Colon "ffff" (Quad 192 0 2 128)).

End IPv6Text.

(* ================================================================= *)
(** * Lemmas *)

(* ================================================================= *)
(** ** The XOR fold *)

Module FoldFacts.
Import GoString Pattern Spec.

Lemma quote_byte : byte_of quote = 34.
Proof. reflexivity. Qed.

Lemma xorStep_quote (st : list Z * Z) : xorStep st 34 = st.
Proof. destruct st as [data idx]. reflexivity. Qed.

Lemma xorStep_other (data : list Z) (idx b : Z) :
  b <> 34 ->
  xorStep (data, idx) b = (set data idx (Z.lxor (get data idx) b), (idx + 1) mod 8).
Proof.
  intros Hb. unfold xorStep. rewrite quote_byte.
  destruct (Z.eqb_spec b 34) as [E | _]; [contradiction | reflexivity].
Qed.

Lemma fold_withoutQuotes (p : list Z) (st : list Z * Z) :
  fold_left xorStep p st = fold_left xorStep (withoutQuotes p) st.
Proof.
  revert st. induction p as [| b p IH]; intros st; [reflexivity |].
  simpl. destruct (Z.eqb_spec b 34) as [-> | Hb]; simpl.
  - rewrite xorStep_quote. apply IH.
  - apply IH.
Qed.

Lemma set_nat_length (data : list Z) (i : nat) (v : Z) :
  List.length (set_nat data i v) = List.length data.
Proof.
  revert i. induction data as [| d data IH]; intros [| i]; simpl; auto.
Qed.

Lemma set_length (data : list Z) (i v : Z) :
  List.length (set data i v) = List.length data.
Proof. apply set_nat_length. Qed.

Lemma xorStep_length (st : list Z * Z) (b : Z) :
  List.length (fst (xorStep st b)) = List.length (fst st).
Proof.
  destruct st as [data idx]. unfold xorStep.
  destruct (b =? byte_of quote); simpl; [reflexivity | apply set_length].
Qed.

Lemma fold_length (p : list Z) (st : list Z * Z) :
  List.length (fst (fold_left xorStep p st)) = List.length (fst st).
Proof.
  revert st. induction p as [| b p IH]; intros st; simpl; [reflexivity |].
  rewrite IH. apply xorStep_length.
Qed.

Lemma encode_length (p : list Z) : List.length (encode p) = 8%nat.
Proof. unfold encode. rewrite fold_length. reflexivity. Qed.

Lemma lane_nil (s : nat) (j : Z) : lane s j [] = 0.
Proof. reflexivity. Qed.

Lemma lane_cons (s : nat) (j b : Z) (q : list Z) :
  lane s j (b :: q) =
  if Z.of_nat s mod 8 =? j then Z.lxor b (lane (S s) j q) else lane (S s) j q.
Proof.
  unfold lane, positioned. simpl.
  destruct (Z.of_nat s mod 8 =? j); reflexivity.
Qed.

Lemma eight_cases (i : Z) :
  0 <= i < 8 -> i = 0 \/ i = 1 \/ i = 2 \/ i = 3 \/ i = 4 \/ i = 5 \/ i = 6 \/ i = 7.
Proof. lia. Qed.

Lemma length8 (data : list Z) :
  List.length data = 8%nat ->
  exists d0 d1 d2 d3 d4 d5 d6 d7, data = [d0; d1; d2; d3; d4; d5; d6; d7].
Proof.
  intros H.
  do 8 (destruct data as [| ? data]; [discriminate H |]).
  destruct data; [| discriminate H].
  do 8 eexists. reflexivity.
Qed.

Ltac lxor_norm :=
  repeat rewrite Z.lxor_0_r; repeat rewrite Z.lxor_assoc; reflexivity.

Ltac list_eq :=
  repeat match goal with
         | |- _ :: _ = _ :: _ => apply (f_equal2 cons)
         end.

(** The loop invariant: started on [data] at position [s], the fold
    leaves in lane [j] the old byte XORed with that lane's bytes. *)
Lemma fold_lanes (q : list Z) :
  Forall (fun b => b <> 34) q ->
  forall (data : list Z) (s : nat),
    List.length data = 8%nat ->
    fst (fold_left xorStep q (data, Z.of_nat s mod 8)) =
    map (fun j => Z.lxor (get data j) (lane s j q)) lanes.
Proof.
  induction 1 as [| b q Hb _ IH]; intros data s Hlen.
  - destruct (length8 data Hlen) as (d0 & d1 & d2 & d3 & d4 & d5 & d6 & d7 & ->).
    simpl. unfold get. simpl. repeat rewrite Z.lxor_0_r. reflexivity.
  - cbn [fold_left]. rewrite xorStep_other by exact Hb.
    replace ((Z.of_nat s mod 8 + 1) mod 8) with (Z.of_nat (S s) mod 8)
      by (rewrite Nat2Z.inj_succ, Zplus_mod_idemp_l; reflexivity).
    rewrite IH by (rewrite set_length; exact Hlen).
    destruct (length8 data Hlen) as (d0 & d1 & d2 & d3 & d4 & d5 & d6 & d7 & ->).
    unfold lanes. simpl map. repeat rewrite lane_cons.
    assert (Hi : 0 <= Z.of_nat s mod 8 < 8) by (apply Z.mod_pos_bound; lia).
    destruct (eight_cases _ Hi) as [E | [E | [E | [E | [E | [E | [E | E]]]]]]];
      rewrite E; unfold get, set; simpl; list_eq; lxor_norm.
Qed.

Lemma withoutQuotes_Forall (p : list Z) : Forall (fun b => b <> 34) (withoutQuotes p).
Proof.
  apply Forall_forall. intros b Hin. apply filter_In in Hin as [_ Hb].
  destruct (Z.eqb_spec b 34); [discriminate | assumption].
Qed.

Lemma encode_lanes (p : list Z) : encode p = map (fingerprintByte p) lanes.
Proof.
  unfold encode, xorInit. rewrite fold_withoutQuotes.
  change 0 with (Z.of_nat 0 mod 8) at 2.
  rewrite fold_lanes by (apply withoutQuotes_Forall || reflexivity).
  reflexivity.
Qed.

(** ** Seven-bit data stays seven-bit *)

Lemma lxor_below (n a b : Z) :
  0 < n -> 0 <= a < 2 ^ n -> 0 <= b < 2 ^ n -> 0 <= Z.lxor a b < 2 ^ n.
Proof.
  intros Hn Ha Hb.
  assert (H0 : 0 <= Z.lxor a b) by (apply Z.lxor_nonneg; lia).
  split; [exact H0 |].
  destruct (Z.eq_dec (Z.lxor a b) 0) as [E | NE].
  - rewrite E. apply Z.pow_pos_nonneg; lia.
  - apply Z.log2_lt_pow2; [lia |].
    pose proof (Z.log2_lxor a b (proj1 Ha) (proj1 Hb)) as Hl.
    assert (La : Z.log2 a < n).
    { destruct (Z.eq_dec a 0) as [-> | ?]; [simpl; lia | apply Z.log2_lt_pow2; lia]. }
    assert (Lb : Z.log2 b < n).
    { destruct (Z.eq_dec b 0) as [-> | ?]; [simpl; lia | apply Z.log2_lt_pow2; lia]. }
    lia.
Qed.

Lemma set_nat_Forall (P : Z -> Prop) (data : list Z) (i : nat) (v : Z) :
  Forall P data -> P v -> Forall P (set_nat data i v).
Proof.
  intros Hd Hv. revert i.
  induction Hd as [| d data Hd1 Hd2 IH]; intros [| i]; simpl; auto.
Qed.

Lemma get_Forall (P : Z -> Prop) (data : list Z) (i : Z) :
  Forall P data -> P 0 -> P (get data i).
Proof.
  intros Hd H0. unfold get.
  destruct (nth_in_or_default (Z.to_nat i) data 0) as [Hin | ->]; [| exact H0].
  rewrite Forall_forall in Hd. apply Hd, Hin.
Qed.

Section Below.
Variable n : Z.
Hypothesis n_pos : 0 < n.

Lemma xorStep_below (st : list Z * Z) (b : Z) :
  Forall (Spec.below n) (fst st) -> Spec.below n b -> Forall (Spec.below n) (fst (xorStep st b)).
Proof.
  destruct st as [data idx]. intros Hd Hb. unfold xorStep.
  destruct (b =? byte_of quote); simpl; [exact Hd |].
  apply set_nat_Forall; [exact Hd |].
  apply lxor_below; [exact n_pos | | exact Hb].
  apply (get_Forall (Spec.below n)); [exact Hd |].
  unfold Spec.below. split; [lia | apply Z.pow_pos_nonneg; lia].
Qed.

Lemma fold_below (p : list Z) (st : list Z * Z) :
  Forall (Spec.below n) (fst st) -> Forall (Spec.below n) p ->
  Forall (Spec.below n) (fst (fold_left xorStep p st)).
Proof.
  intros Hst Hp. revert st Hst.
  induction Hp as [| b p Hb _ IH]; intros st Hst; simpl; [exact Hst |].
  apply IH. apply xorStep_below; assumption.
Qed.

Lemma encode_below (p : list Z) : Forall (Spec.below n) p -> Forall (Spec.below n) (encode p).
Proof.
  intros Hp. unfold encode. apply fold_below; [| exact Hp].
  unfold xorInit, Spec.below. simpl.
  assert (0 < 2 ^ n) by (apply Z.pow_pos_nonneg; lia).
  repeat constructor; lia.
Qed.
End Below.

(** Checking a bound on every byte of a list by computation. *)
Lemma below_check (n : Z) (l : list Z) :
  forallb (fun b => (0 <=? b) && (b <? n)) l = true ->
  Forall (fun b => 0 <= b < n) l.
Proof.
  intros H. apply Forall_forall. intros b Hb.
  rewrite forallb_forall in H. specialize (H b Hb). lia.
Qed.

Lemma encode_bytes (p : list Z) : Forall isByte p -> Forall isByte (encode p).
Proof. apply (encode_below 8). lia. Qed.

Lemma encode_ascii7 (p : list Z) : Forall isAscii7 p -> Forall isAscii7 (encode p).
Proof. apply (encode_below 7). lia. Qed.

End FoldFacts.

(* ================================================================= *)
(** ** The renderer *)

Module RenderFacts.
Import GoString Pattern Spec.

Lemma below_forallb (n : nat) (f : Z -> bool) :
  forallb f (map Z.of_nat (seq 0 n)) = true ->
  forall b, 0 <= b < Z.of_nat n -> f b = true.
Proof.
  intros H b Hb. rewrite forallb_forall in H. apply H.
  apply in_map_iff. exists (Z.to_nat b). split; [lia |].
  apply in_seq. lia.
Qed.

(** The shifting loop and the bit test agree on every byte. *)
Lemma row_spec (b : Z) : isByte b -> row b = rowOf b.
Proof.
  intros Hb. apply String.eqb_eq.
  apply (below_forallb 256 (fun b => String.eqb (row b) (rowOf b)));
    [vm_compute; reflexivity | exact Hb].
Qed.

Lemma rows_spec (data : list Z) : Forall isByte data -> map row data = map rowOf data.
Proof.
  induction 1 as [| b data Hb _ IH]; simpl; [reflexivity |].
  rewrite IH, row_spec by exact Hb. reflexivity.
Qed.

Lemma rowOf_length (b : Z) : String.length (rowOf b) = 8%nat.
Proof. reflexivity. Qed.

Lemma rowOf_get (b k : Z) :
  0 <= k < 8 -> String.get (Z.to_nat k) (rowOf b) = Some (cell b k).
Proof.
  intros Hk.
  destruct (FoldFacts.eight_cases k Hk) as [E | [E | [E | [E | [E | [E | [E | E]]]]]]];
    subst k; reflexivity.
Qed.

Lemma cell_alive (b k : Z) : cell b k = "*"%char <-> Z.testbit b (7 - k) = true.
Proof. unfold cell. destruct (Z.testbit b (7 - k)); split; congruence. Qed.

Lemma cell_two (b k : Z) : cell b k = "*"%char \/ cell b k = "."%char.
Proof. unfold cell. destruct (Z.testbit b (7 - k)); auto. Qed.

Lemma fmt_d_value (z : Z) : decimalValue (fmt_d z) = Some z.
Proof.
  unfold decimalValue, fmt_d.
  rewrite NilZero.isi.
  - simpl. rewrite DecimalZ.of_to. reflexivity.
  - destruct z; simpl; try discriminate;
      intros H; injection H; apply Unsigned.to_uint_nonnil.
  - destruct z; simpl; try discriminate;
      intros H; injection H; apply Unsigned.to_uint_nonnil.
Qed.

(** A seven-bit byte has its top bit clear, so its row starts dead. *)
Lemma row_ascii7 (b : Z) : isAscii7 b -> String.get 0 (row b) = Some "."%char.
Proof.
  intros Hb.
  assert (H : (match String.get 0 (row b) with
               | Some c => Ascii.eqb c "."
               | None => false
               end) = true).
  { apply (below_forallb 128
             (fun b => match String.get 0 (row b) with
                       | Some c => Ascii.eqb c "."
                       | None => false
                       end)); [vm_compute; reflexivity | exact Hb]. }
  destruct (String.get 0 (row b)) as [c |]; [| discriminate].
  apply Ascii.eqb_eq in H. subst c. reflexivity.
Qed.

End RenderFacts.

(* ================================================================= *)
(** ** The address parser *)

Module AddressFacts.
Import GoString GoNet Log2Life.

Ltac break_in H :=
  match type of H with
  | context [match ?x with _ => _ end] => destruct x eqn:?
  end.

Lemma put_length (ip : list Z) (i v : Z) : List.length (put ip i v) = List.length ip.
Proof. apply FoldFacts.set_length. Qed.

Lemma parseIPv4_loop_length (fuel : nat) :
  forall i s p p',
    parseIPv4_loop fuel i s p = Some p' ->
    List.length p' = (List.length p + fuel)%nat.
Proof.
  induction fuel as [| fuel IH]; intros i s p p' H.
  - cbn [parseIPv4_loop] in H. destruct s; [| discriminate].
    injection H as <-. lia.
  - cbn [parseIPv4_loop] in H.
    repeat (break_in H; try discriminate);
      apply IH in H; rewrite H, length_app; simpl; lia.
Qed.

Lemma parseIPv4_length (s ip : list Z) :
  parseIPv4 s = Some ip -> List.length ip = 16%nat.
Proof.
  unfold parseIPv4. intros H.
  destruct (parseIPv4_loop 4 0 s []) as [p |] eqn:E; [| discriminate].
  injection H as <-. apply parseIPv4_loop_length in E.
  unfold IPv4. rewrite length_app, E. reflexivity.
Qed.

Lemma parseIPv6_loop_length (fuel : nat) :
  forall ip i e s st,
    parseIPv6_loop fuel ip i e s = Some st ->
    List.length (v6ip st) = List.length ip.
Proof.
  induction fuel as [| fuel IH]; intros ip i e s st H.
  - cbn [parseIPv6_loop] in H. injection H as <-. reflexivity.
  - cbn [parseIPv6_loop] in H.
    repeat (break_in H; try discriminate);
      first
        [ injection H as <-; cbn [v6ip]; repeat rewrite put_length; reflexivity
        | apply IH in H; rewrite H; repeat rewrite put_length; reflexivity ].
Qed.

Lemma shiftUp_length (count : nat) :
  forall j n ip, List.length (shiftUp count j n ip) = List.length ip.
Proof.
  induction count as [| count IH]; intros j n ip; simpl; [reflexivity |].
  rewrite IH. apply put_length.
Qed.

Lemma zeroDown_length (count : nat) :
  forall j ip, List.length (zeroDown count j ip) = List.length ip.
Proof.
  induction count as [| count IH]; intros j ip; simpl; [reflexivity |].
  rewrite IH. apply put_length.
Qed.

Lemma parseIPv6_length (s ip : list Z) :
  parseIPv6 s = Some ip -> List.length ip = 16%nat.
Proof.
  unfold parseIPv6. intros H.
  repeat (break_in H; try discriminate);
    try (injection H as <-);
    try reflexivity;
    repeat match goal with
           | E : parseIPv6_loop _ _ _ _ _ = Some _ |- _ =>
               apply parseIPv6_loop_length in E
           end;
    try rewrite zeroDown_length; try rewrite shiftUp_length;
    try assumption.
Qed.

(** Whatever text it is given, [net.ParseIP] returns nil or sixteen
    bytes. *)
Lemma ParseIP_length (addr : string) (ip : list Z) :
  ParseIP addr = Some ip -> List.length ip = 16%nat.
Proof.
  unfold ParseIP. intros H.
  destruct (firstSep (bytes addr)) as [sep |]; [| discriminate].
  destruct (sep =? 46).
  - apply parseIPv4_length in H. exact H.
  - apply parseIPv6_length in H. exact H.
Qed.

Lemma ipByte_in_range (ip : list Z) (i : nat) :
  (i < List.length ip)%nat -> ipByte ip i = Ok (nth i ip 0).
Proof.
  intros Hi. unfold ipByte.
  rewrite (nth_error_nth' ip 0 Hi). reflexivity.
Qed.

(** The coordinate of a parsed address: the indices 12 to 15 are in
    range, so the function returns, and what it returns is made of the
    last four bytes only. *)
Lemma IPToXY_parsed (arch : GOARCH) (addr : string) (width height : Z) (ip : list Z) :
  ParseIP addr = Some ip ->
  IPToXY arch addr width height =
  Ok (scale arch (nth 12 ip 0) (nth 13 ip 0) width,
      scale arch (nth 14 ip 0) (nth 15 ip 0) height).
Proof.
  intros H. pose proof (ParseIP_length addr ip H) as Hlen.
  unfold IPToXY. rewrite H.
  rewrite !ipByte_in_range by (rewrite Hlen; lia).
  reflexivity.
Qed.

Lemma IPToXY_unparsed (arch : GOARCH) (addr : string) (width height : Z) :
  ParseIP addr = None -> IPToXY arch addr width height = Ok (0, 0).
Proof. intros H. unfold IPToXY. rewrite H. reflexivity. Qed.

Lemma put_Forall (P : Z -> Prop) (ip : list Z) (i v : Z) :
  Forall P ip -> P v -> Forall P (put ip i v).
Proof. intros. unfold put, Pattern.set. apply FoldFacts.set_nat_Forall; assumption. Qed.

Lemma nth_isByte (ip : list Z) (i : nat) : Forall Spec.isByte ip -> Spec.isByte (nth i ip 0).
Proof.
  intros H. destruct (nth_in_or_default i ip 0) as [Hin | ->].
  - rewrite Forall_forall in H. apply H, Hin.
  - unfold Spec.isByte. lia.
Qed.

Lemma dtoi_loop_nonneg (s : list Z) :
  forall n i n' c ok, 0 <= n -> dtoi_loop s n i = (n', c, ok) -> 0 <= n'.
Proof.
  induction s as [| b s IH]; intros n i n' c ok Hn H; cbn [dtoi_loop] in H.
  - destruct (i =? 0); injection H as <- _ _; lia.
  - unfold isDigit in H.
    destruct ((48 <=? b) && (b <=? 57)) eqn:Hd.
    + apply andb_true_iff in Hd as [H48 _]. apply Z.leb_le in H48.
      destruct (big <=? n * 10 + (b - 48)).
      * injection H as <- _ _. unfold big. lia.
      * eapply IH; [| exact H]. lia.
    + destruct (i =? 0); injection H as <- _ _; lia.
Qed.

Lemma parseIPv4_loop_bytes (fuel : nat) :
  forall i s p p',
    Forall Spec.isByte p ->
    parseIPv4_loop fuel i s p = Some p' -> Forall Spec.isByte p'.
Proof.
  induction fuel as [| fuel IH]; intros i s p p' Hp H.
  - cbn [parseIPv4_loop] in H. destruct s; [| discriminate].
    injection H as <-. exact Hp.
  - cbn [parseIPv4_loop] in H.
    repeat (break_in H; try discriminate);
      (apply IH in H; [exact H |]);
      (apply Forall_app; split; [exact Hp |]);
      repeat constructor;
      match goal with
      | E : dtoi _ = (?n, _, _), F : negb _ || (255 <? ?n) = false |- _ =>
          apply orb_false_iff in F as [_ F]; apply Z.ltb_ge in F;
          apply dtoi_loop_nonneg in E; [unfold Spec.isByte; lia | lia]
      end.
Qed.

Lemma parseIPv4_bytes (s ip : list Z) : parseIPv4 s = Some ip -> Forall Spec.isByte ip.
Proof.
  unfold parseIPv4. intros H.
  destruct (parseIPv4_loop 4 0 s []) as [p |] eqn:E; [| discriminate].
  injection H as <-. apply parseIPv4_loop_bytes in E; [| constructor].
  unfold IPv4. apply Forall_app. split; [| exact E].
  apply (FoldFacts.below_check 256). reflexivity.
Qed.

Lemma mod256_isByte (z : Z) : Spec.isByte (z mod 256).
Proof. unfold Spec.isByte. apply Z.mod_pos_bound. lia. Qed.

Lemma parseIPv6_loop_bytes (fuel : nat) :
  forall ip i e s st,
    Forall Spec.isByte ip ->
    parseIPv6_loop fuel ip i e s = Some st -> Forall Spec.isByte (v6ip st).
Proof.
  induction fuel as [| fuel IH]; intros ip i e s st Hip H.
  - cbn [parseIPv6_loop] in H. injection H as <-. exact Hip.
  - cbn [parseIPv6_loop] in H.
    repeat (break_in H; try discriminate);
      first [ injection H as <-; cbn [v6ip] | apply IH in H; [exact H |] ];
      repeat (apply put_Forall);
      try exact Hip; try apply mod256_isByte;
      match goal with
      | E : parseIPv4 _ = Some ?ip4 |- Spec.isByte (nth _ ?ip4 0) =>
          apply nth_isByte, (parseIPv4_bytes _ _ E)
      end.
Qed.

Lemma shiftUp_bytes (count : nat) :
  forall j n ip, Forall Spec.isByte ip -> Forall Spec.isByte (shiftUp count j n ip).
Proof.
  induction count as [| count IH]; intros j n ip H; simpl; [exact H |].
  apply IH, put_Forall; [exact H |].
  apply (FoldFacts.get_Forall Spec.isByte); [exact H | unfold Spec.isByte; lia].
Qed.

Lemma zeroDown_bytes (count : nat) :
  forall j ip, Forall Spec.isByte ip -> Forall Spec.isByte (zeroDown count j ip).
Proof.
  induction count as [| count IH]; intros j ip H; simpl; [exact H |].
  apply IH, put_Forall; [exact H | unfold Spec.isByte; lia].
Qed.

Lemma zeros_bytes : Forall Spec.isByte (repeat 0 16).
Proof. apply (FoldFacts.below_check 256). reflexivity. Qed.

Lemma parseIPv6_bytes (s ip : list Z) : parseIPv6 s = Some ip -> Forall Spec.isByte ip.
Proof.
  unfold parseIPv6. intros H.
  repeat (break_in H; try discriminate);
    try (injection H as <-);
    try exact zeros_bytes;
    repeat match goal with
           | E : parseIPv6_loop _ _ _ _ _ = Some _ |- _ =>
               apply parseIPv6_loop_bytes in E; [| exact zeros_bytes]
           end;
    try apply zeroDown_bytes; try apply shiftUp_bytes; assumption.
Qed.

Lemma ParseIP_bytes (addr : string) (ip : list Z) :
  ParseIP addr = Some ip -> Forall Spec.isByte ip.
Proof.
  unfold ParseIP. intros H.
  destruct (firstSep (bytes addr)) as [sep |]; [| discriminate].
  destruct (sep =? 46).
  - apply parseIPv4_bytes in H. exact H.
  - apply parseIPv6_bytes in H. exact H.
Qed.

End AddressFacts.

(* ================================================================= *)
(** ** Printed addresses read back *)

Module ParseFacts.
Import GoString GoNet Spec.
Local Open Scope list_scope.

Lemma bytes_ofBytes (bs : list Z) : Forall Spec.isByte bs -> bytes (ofBytes bs) = bs.
Proof.
  unfold bytes, ofBytes. rewrite list_ascii_of_string_of_list_ascii, map_map.
  induction 1 as [| b bs Hb _ IH]; [reflexivity |].
  cbn [map]. rewrite IH. f_equal. unfold byte_of.
  rewrite N_ascii_embedding.
  - apply Z2N.id. unfold Spec.isByte in Hb. lia.
  - unfold Spec.isByte in Hb. lia.
Qed.

Lemma hexval_hexDigit (d : Z) : 0 <= d < 16 -> hexval (hexDigit d) = Some d.
Proof.
  intros Hd. unfold hexDigit, hexval.
  destruct (Z.ltb_spec d 10).
  - replace ((48 <=? 48 + d) && (48 + d <=? 57)) with true
      by (symmetry; apply andb_true_iff; split; apply Z.leb_le; lia).
    f_equal. lia.
  - replace ((48 <=? 87 + d) && (87 + d <=? 57)) with false
      by (symmetry; apply andb_false_iff; right; apply Z.leb_gt; lia).
    replace ((97 <=? 87 + d) && (87 + d <=? 102)) with true
      by (symmetry; apply andb_true_iff; split; apply Z.leb_le; lia).
    f_equal. lia.
Qed.

Lemma hexDigit_range (d : Z) : 0 <= d < 16 -> 48 <= hexDigit d <= 102 /\ hexDigit d <> 58.
Proof. intros Hd. unfold hexDigit. destruct (Z.ltb_spec d 10); lia. Qed.

Lemma group_digits (g : Z) :
  isGroup g ->
  0 <= g / 4096 < 16 /\ 0 <= g / 256 mod 16 < 16 /\ 0 <= g / 16 mod 16 < 16
  /\ 0 <= g mod 16 < 16
  /\ ((g / 4096 * 16 + g / 256 mod 16) * 16 + g / 16 mod 16) * 16 + g mod 16 = g.
Proof.
  unfold isGroup. intros Hg.
  pose proof (Z.div_mod g 16 ltac:(lia)). pose proof (Z.mod_pos_bound g 16 ltac:(lia)).
  pose proof (Z.div_mod (g / 16) 16 ltac:(lia)).
  pose proof (Z.mod_pos_bound (g / 16) 16 ltac:(lia)).
  pose proof (Z.div_mod (g / 256) 16 ltac:(lia)).
  pose proof (Z.mod_pos_bound (g / 256) 16 ltac:(lia)).
  assert (g / 16 / 16 = g / 256) by (rewrite Z.div_div by lia; reflexivity).
  assert (g / 256 / 16 = g / 4096) by (rewrite Z.div_div by lia; reflexivity).
  assert (0 <= g / 4096 < 16).
  { split; [apply Z.div_pos; lia | apply Z.div_lt_upper_bound; lia]. }
  lia.
Qed.

Lemma xtoi_loop_step (b d : Z) (r : list Z) (n i : Z) :
  hexval b = Some d -> n * 16 + d < big ->
  xtoi_loop (b :: r) n i = xtoi_loop r (n * 16 + d) (i + 1).
Proof.
  intros Hb Hn. cbn [xtoi_loop]. rewrite Hb.
  replace (big <=? n * 16 + d) with false by (symmetry; apply Z.leb_gt; exact Hn).
  reflexivity.
Qed.

Lemma xtoi_loop_stop (r : list Z) (n i : Z) :
  match r with [] => True | b :: _ => b = 58 end -> i <> 0 ->
  xtoi_loop r n i = (n, i, true).
Proof.
  intros Hr Hi. destruct r as [| b r]; cbn [xtoi_loop].
  - destruct (Z.eqb_spec i 0); [contradiction | reflexivity].
  - subst b. cbn. destruct (Z.eqb_spec i 0); [contradiction | reflexivity].
Qed.

Lemma xtoi_hex4 (g : Z) (rest : list Z) :
  isGroup g -> match rest with [] => True | b :: _ => b = 58 end ->
  xtoi (hex4 g ++ rest) = (g, 4, true).
Proof.
  intros Hg Hrest.
  destruct (group_digits g Hg) as (D3 & D2 & D1 & D0 & Hsum).
  unfold xtoi, hex4, big, isGroup in *. cbn [app].
  rewrite (xtoi_loop_step _ _ _ _ _ (hexval_hexDigit _ D3)) by (unfold big; lia).
  rewrite (xtoi_loop_step _ _ _ _ _ (hexval_hexDigit _ D2)) by (unfold big; lia).
  rewrite (xtoi_loop_step _ _ _ _ _ (hexval_hexDigit _ D1)) by (unfold big; lia).
  rewrite (xtoi_loop_step _ _ _ _ _ (hexval_hexDigit _ D0)) by (unfold big; lia).
  rewrite xtoi_loop_stop by (assumption || lia).
  f_equal. f_equal. lia.
Qed.

Lemma set_nat_app (pre : list Z) (x : Z) (tl : list Z) (v : Z) :
  Pattern.set_nat (pre ++ x :: tl) (List.length pre) v = pre ++ v :: tl.
Proof. induction pre as [| p pre IH]; simpl; [reflexivity | rewrite IH; reflexivity]. Qed.

Lemma put_two (pre : list Z) (x y : Z) (tl : list Z) (v w : Z) :
  put (put (pre ++ x :: y :: tl) (Z.of_nat (List.length pre)) v)
      (Z.of_nat (List.length pre) + 1) w
  = pre ++ v :: w :: tl.
Proof.
  unfold put, Pattern.set. rewrite Nat2Z.id, set_nat_app.
  replace (Z.to_nat (Z.of_nat (List.length pre) + 1)) with (List.length (pre ++ [v]))
    by (rewrite length_app; simpl; lia).
  replace (pre ++ v :: y :: tl) with ((pre ++ [v]) ++ y :: tl)
    by (rewrite <- app_assoc; reflexivity).
  rewrite set_nat_app, <- app_assoc. reflexivity.
Qed.

Lemma group_high (g : Z) : isGroup g -> Z.shiftr g 8 mod 256 = g / 256.
Proof.
  unfold isGroup. intros Hg. rewrite Z.shiftr_div_pow2 by lia. change (2 ^ 8) with 256.
  apply Z.mod_small. split; [apply Z.div_pos; lia | apply Z.div_lt_upper_bound; lia].
Qed.

Lemma colonJoin_head (g : Z) (rest : list Z) :
  isGroup g ->
  exists b r, colonJoin (g :: rest) = b :: r /\ b <> 58 /\ b <> 46.
Proof.
  intros Hg. destruct (group_digits g Hg) as (D3 & _).
  pose proof (hexDigit_range _ D3) as [R N].
  exists (hexDigit (g / 4096)).
  destruct rest as [| g' rest]; cbn [colonJoin hex4 app]; eexists;
    (split; [reflexivity | split; lia]).
Qed.

(** One turn of the loop on a group that is not the last. *)
Lemma v6_turn (fuel : nat) (pre : list Z) (x y : Z) (tl : list Z) (e g b : Z) (r : list Z) :
  isGroup g -> b <> 58 -> Z.of_nat (List.length pre) < 16 ->
  parseIPv6_loop (S fuel) (pre ++ x :: y :: tl) (Z.of_nat (List.length pre)) e
    (hex4 g ++ 58 :: b :: r)
  = parseIPv6_loop fuel (pre ++ g / 256 :: g mod 256 :: tl)
      (Z.of_nat (List.length pre) + 2) e (b :: r).
Proof.
  intros Hg Hb Hi. cbn [parseIPv6_loop].
  replace (Z.of_nat (List.length pre) <? IPv6len) with true
    by (symmetry; apply Z.ltb_lt; exact Hi).
  cbn [negb]. rewrite (xtoi_hex4 g (58 :: b :: r) Hg eq_refl).
  replace (65535 <? g) with false by (symmetry; apply Z.ltb_ge; unfold isGroup in Hg; lia).
  cbn [negb orb].
  replace (nth (Z.to_nat 4) (hex4 g ++ 58 :: b :: r) 0) with 58 by reflexivity.
  change (58 =? 46) with false. rewrite andb_false_r.
  rewrite group_high by exact Hg. rewrite put_two.
  change (drop 4 (hex4 g ++ 58 :: b :: r)) with (58 :: b :: r).
  change (58 =? 58) with true. cbn [negb orb].
  replace (Z.of_nat (List.length (58 :: b :: r)) =? 1) with false
    by (symmetry; apply Z.eqb_neq; cbn [List.length]; lia).
  replace (b =? 58) with false by (symmetry; apply Z.eqb_neq; exact Hb).
  reflexivity.
Qed.

(** The turn on the last group. *)
Lemma v6_last (fuel : nat) (pre : list Z) (x y : Z) (tl : list Z) (e g : Z) :
  isGroup g -> Z.of_nat (List.length pre) < 16 ->
  parseIPv6_loop (S fuel) (pre ++ x :: y :: tl) (Z.of_nat (List.length pre)) e (hex4 g)
  = Some {| v6ip := pre ++ g / 256 :: g mod 256 :: tl;
            v6i := Z.of_nat (List.length pre) + 2;
            v6ellipsis := e; v6rest := [] |}.
Proof.
  intros Hg Hi. cbn [parseIPv6_loop].
  replace (Z.of_nat (List.length pre) <? IPv6len) with true
    by (symmetry; apply Z.ltb_lt; exact Hi).
  cbn [negb]. rewrite <- (app_nil_r (hex4 g)) at 1.
  rewrite (xtoi_hex4 g [] Hg I).
  replace (65535 <? g) with false by (symmetry; apply Z.ltb_ge; unfold isGroup in Hg; lia).
  cbn [negb orb].
  change (4 <? Z.of_nat (List.length (hex4 g))) with false. cbn [andb].
  rewrite group_high by exact Hg. rewrite put_two.
  change (drop 4 (hex4 g)) with (@nil Z).
  reflexivity.
Qed.

Lemma v6_groups (groups : list Z) :
  Forall isGroup groups -> groups <> [] ->
  forall fuel pre tl e,
    (List.length groups <= fuel)%nat ->
    List.length tl = (2 * List.length groups)%nat ->
    (List.length pre + List.length tl = 16)%nat ->
    parseIPv6_loop fuel (pre ++ tl) (Z.of_nat (List.length pre)) e (colonJoin groups)
    = Some {| v6ip := pre ++ groupBytes groups; v6i := 16;
              v6ellipsis := e; v6rest := [] |}.
Proof.
  induction 1 as [| g groups Hg Hgs IH]; intros Hne fuel pre tl e Hfuel Htl Hsum;
    [contradiction |].
  destruct fuel as [| fuel]; [simpl in Hfuel; lia |].
  destruct tl as [| x [| y tl]]; simpl in Htl; try lia.
  assert (Hi : Z.of_nat (List.length pre) < 16) by (simpl in Hsum; lia).
  destruct groups as [| g' groups].
  - cbn [colonJoin]. rewrite v6_last by assumption.
    destruct tl; [| simpl in Htl; lia].
    f_equal. f_equal. simpl in Hsum. lia.
  - destruct (colonJoin_head g' groups (Forall_inv Hgs)) as (b & r & Ej & Hb & _).
    change (colonJoin (g :: g' :: groups)) with (hex4 g ++ 58 :: colonJoin (g' :: groups)).
    rewrite Ej, v6_turn by assumption. rewrite <- Ej.
    replace (pre ++ g / 256 :: g mod 256 :: tl)
      with ((pre ++ [g / 256; g mod 256]) ++ tl) by (rewrite <- app_assoc; reflexivity).
    replace (Z.of_nat (List.length pre) + 2)
      with (Z.of_nat (List.length (pre ++ [g / 256; g mod 256])))
      by (rewrite length_app; simpl; lia).
    rewrite IH.
    + rewrite <- app_assoc. reflexivity.
    + discriminate.
    + simpl in *. lia.
    + simpl in *. lia.
    + rewrite length_app. simpl in *. lia.
Qed.

Lemma hex4_bytes (g : Z) : isGroup g -> Forall Spec.isByte (hex4 g).
Proof.
  intros Hg. destruct (group_digits g Hg) as (D3 & D2 & D1 & D0 & _).
  pose proof (hexDigit_range _ D3). pose proof (hexDigit_range _ D2).
  pose proof (hexDigit_range _ D1). pose proof (hexDigit_range _ D0).
  unfold hex4, Spec.isByte. repeat constructor; lia.
Qed.

Lemma colonJoin_bytes (groups : list Z) :
  Forall isGroup groups -> Forall Spec.isByte (colonJoin groups).
Proof.
  induction 1 as [| g groups Hg Hgs IH]; [constructor |].
  destruct groups as [| g' groups]; [apply hex4_bytes; exact Hg |].
  change (colonJoin (g :: g' :: groups)) with (hex4 g ++ 58 :: colonJoin (g' :: groups)).
  apply Forall_app. split; [apply hex4_bytes; exact Hg |].
  constructor; [unfold Spec.isByte; lia | exact IH].
Qed.

Lemma firstSep_skip (b : Z) (r : list Z) :
  b <> 46 -> b <> 58 -> firstSep (b :: r) = firstSep r.
Proof.
  intros H1 H2. cbn [firstSep].
  replace (b =? 46) with false by (symmetry; apply Z.eqb_neq; exact H1).
  replace (b =? 58) with false by (symmetry; apply Z.eqb_neq; exact H2).
  reflexivity.
Qed.

Lemma firstSep_hex4 (g : Z) (rest : list Z) :
  isGroup g -> firstSep (hex4 g ++ rest) = firstSep rest.
Proof.
  intros Hg. destruct (group_digits g Hg) as (D3 & D2 & D1 & D0 & _).
  pose proof (hexDigit_range _ D3). pose proof (hexDigit_range _ D2).
  pose proof (hexDigit_range _ D1). pose proof (hexDigit_range _ D0).
  unfold hex4. cbn [app]. rewrite !firstSep_skip by lia. reflexivity.
Qed.

(** An IPv6 address written in full, eight groups of four hexadecimal
    digits, parses to the sixteen bytes of its groups. *)
Lemma ParseIP_fullForm (groups : list Z) :
  List.length groups = 8%nat -> Forall isGroup groups ->
  ParseIP (fullForm groups) = Some (groupBytes groups).
Proof.
  intros Hlen Hgs. unfold ParseIP, fullForm.
  rewrite bytes_ofBytes by (apply colonJoin_bytes; exact Hgs).
  destruct groups as [| g0 [| g1 groups]]; try discriminate Hlen.
  pose proof (Forall_inv Hgs) as Hg0.
  change (colonJoin (g0 :: g1 :: groups)) with (hex4 g0 ++ 58 :: colonJoin (g1 :: groups)).
  rewrite firstSep_hex4 by exact Hg0.
  cbn [firstSep]. change ((58 =? 46) || (58 =? 58)) with true. cbv iota.
  change (58 =? 46) with false. cbv iota.
  change (hex4 g0 ++ 58 :: colonJoin (g1 :: groups)) with (colonJoin (g0 :: g1 :: groups)).
  unfold parseIPv6.
  destruct (colonJoin_head g0 (g1 :: groups) Hg0) as (b & r & Ej & Hb & _).
  assert (Hlead : match colonJoin (g0 :: g1 :: groups) with
                  | b0 :: b1 :: r0 =>
                      if (b0 =? 58) && (b1 =? 58) then (0, r0)
                      else (-1, colonJoin (g0 :: g1 :: groups))
                  | _ => (-1, colonJoin (g0 :: g1 :: groups))
                  end = (-1, colonJoin (g0 :: g1 :: groups))).
  { rewrite Ej. destruct r as [| b1 r]; [reflexivity |].
    replace (b =? 58) with false by (symmetry; apply Z.eqb_neq; exact Hb).
    reflexivity. }
  rewrite Hlead. cbv iota beta. change (-1 =? 0) with false. cbn [andb].
  assert (Hloop := v6_groups (g0 :: g1 :: groups) Hgs ltac:(discriminate)
                     8%nat [] (repeat 0 16) (-1)).
  rewrite Hlen in Hloop.
  specialize (Hloop (le_n 8) eq_refl eq_refl).
  change ([] ++ repeat 0 16) with (repeat 0 16) in Hloop.
  change (Z.of_nat (List.length (@nil Z))) with 0 in Hloop.
  rewrite Hloop. reflexivity.
Qed.

Lemma dtoi_loop_step (b : Z) (r : list Z) (n i : Z) :
  48 <= b <= 57 -> n * 10 + (b - 48) < big ->
  dtoi_loop (b :: r) n i = dtoi_loop r (n * 10 + (b - 48)) (i + 1).
Proof.
  intros Hb Hn. cbn [dtoi_loop]. unfold isDigit.
  replace ((48 <=? b) && (b <=? 57)) with true
    by (symmetry; apply andb_true_iff; split; apply Z.leb_le; lia).
  replace (big <=? n * 10 + (b - 48)) with false by (symmetry; apply Z.leb_gt; exact Hn).
  reflexivity.
Qed.

Lemma dtoi_loop_stop (r : list Z) (n i : Z) :
  sepOrEnd r -> i <> 0 -> dtoi_loop r n i = (n, i, true).
Proof.
  intros Hr Hi. destruct r as [| b r]; cbn [dtoi_loop].
  - destruct (Z.eqb_spec i 0); [contradiction | reflexivity].
  - simpl in Hr. subst b. cbn. destruct (Z.eqb_spec i 0); [contradiction | reflexivity].
Qed.

(** Reading one printed octet back. *)
Lemma octet (n : Z) (rest : list Z) :
  Spec.isByte n -> sepOrEnd rest ->
  exists c b r,
    decimal n ++ rest = b :: r
    /\ 48 <= b <= 57
    /\ dtoi (decimal n ++ rest) = (n, c, true)
    /\ (1 <? c) && (nth 0 (decimal n ++ rest) 0 =? 48) = false
    /\ drop c (decimal n ++ rest) = rest.
Proof.
  unfold Spec.isByte. intros Hn Hrest. unfold decimal, dtoi.
  pose proof (Z.div_mod n 10 ltac:(lia)). pose proof (Z.mod_pos_bound n 10 ltac:(lia)).
  pose proof (Z.div_mod (n / 10) 10 ltac:(lia)).
  pose proof (Z.mod_pos_bound (n / 10) 10 ltac:(lia)).
  assert (n / 10 / 10 = n / 100) by (rewrite Z.div_div by lia; reflexivity).
  destruct (Z.ltb_spec n 10); [| destruct (Z.ltb_spec n 100)].
  - exists 1, (48 + n), rest. cbn [app].
    rewrite dtoi_loop_step by (unfold big; lia).
    rewrite dtoi_loop_stop by (assumption || lia).
    repeat split; try lia. f_equal. f_equal. lia.
  - exists 2, (48 + n / 10), ((48 + n mod 10) :: rest). cbn [app].
    rewrite !dtoi_loop_step by (unfold big; lia).
    rewrite dtoi_loop_stop by (assumption || lia).
    repeat split; try lia; [f_equal; f_equal; lia |].
    cbn [nth]. replace (48 + n / 10 =? 48) with false
      by (symmetry; apply Z.eqb_neq; lia).
    apply andb_false_r.
  - exists 3, (48 + n / 100), ((48 + n / 10 mod 10) :: (48 + n mod 10) :: rest). cbn [app].
    rewrite !dtoi_loop_step by (unfold big; lia).
    rewrite dtoi_loop_stop by (assumption || lia).
    repeat split; try lia; [f_equal; f_equal; lia |].
    cbn [nth]. replace (48 + n / 100 =? 48) with false
      by (symmetry; apply Z.eqb_neq; lia).
    apply andb_false_r.
Qed.

Lemma v4_first (fuel : nat) (n : Z) (rest p : list Z) :
  Spec.isByte n -> sepOrEnd rest ->
  parseIPv4_loop (S fuel) 0 (decimal n ++ rest) p = parseIPv4_loop fuel 1 rest (p ++ [n]).
Proof.
  intros Hn Hrest.
  destruct (octet n rest Hn Hrest) as (c & b & r & Es & Hb & Ed & Ez & Er).
  cbn [parseIPv4_loop]. rewrite Es. change (0 <? 0) with false. cbv iota.
  rewrite <- Es, Ed, Ez, Er. unfold Spec.isByte in Hn.
  replace (255 <? n) with false by (symmetry; apply Z.ltb_ge; lia).
  reflexivity.
Qed.

Lemma v4_next (fuel : nat) (i n : Z) (rest p : list Z) :
  0 < i -> Spec.isByte n -> sepOrEnd rest ->
  parseIPv4_loop (S fuel) i (46 :: decimal n ++ rest) p
  = parseIPv4_loop fuel (i + 1) rest (p ++ [n]).
Proof.
  intros Hi Hn Hrest.
  destruct (octet n rest Hn Hrest) as (c & b & r & Es & Hb & Ed & Ez & Er).
  cbn [parseIPv4_loop].
  replace (0 <? i) with true by (symmetry; apply Z.ltb_lt; exact Hi).
  change (46 =? 46) with true. cbv iota.
  rewrite Ed, Ez, Er. unfold Spec.isByte in Hn.
  replace (255 <? n) with false by (symmetry; apply Z.ltb_ge; lia).
  reflexivity.
Qed.

Lemma decimal_bytes (n : Z) : Spec.isByte n -> Forall (fun b => 48 <= b <= 57) (decimal n).
Proof.
  unfold Spec.isByte, decimal. intros Hn.
  pose proof (Z.div_mod n 10 ltac:(lia)). pose proof (Z.mod_pos_bound n 10 ltac:(lia)).
  pose proof (Z.div_mod (n / 10) 10 ltac:(lia)).
  pose proof (Z.mod_pos_bound (n / 10) 10 ltac:(lia)).
  assert (n / 10 / 10 = n / 100) by (rewrite Z.div_div by lia; reflexivity).
  destruct (Z.ltb_spec n 10); [| destruct (Z.ltb_spec n 100)];
    repeat constructor; lia.
Qed.

Lemma firstSep_digits (ds rest : list Z) :
  Forall (fun b => 48 <= b <= 57) ds -> firstSep (ds ++ rest) = firstSep rest.
Proof.
  induction 1 as [| b ds Hb _ IH]; [reflexivity |].
  cbn [app]. rewrite firstSep_skip by lia. exact IH.
Qed.

(** A dotted quad printed in decimal parses to its four bytes behind
    the IPv4-in-IPv6 prefix. *)
Lemma ParseIP_dotted (a b c d : Z) :
  Spec.isByte a -> Spec.isByte b -> Spec.isByte c -> Spec.isByte d ->
  ParseIP (dotted a b c d) = Some (IPv4 [a; b; c; d]).
Proof.
  intros Ha Hb Hc Hd. unfold ParseIP, dotted.
  assert (Hbytes : Forall Spec.isByte
                     (decimal a ++ 46 :: decimal b ++ 46 :: decimal c ++ 46 :: decimal d)).
  { assert (Hdig : forall n, Spec.isByte n -> Forall Spec.isByte (decimal n)).
    { intros n Hn. eapply Forall_impl; [| apply decimal_bytes; exact Hn].
      unfold Spec.isByte. intros; lia. }
    assert (H46 : Spec.isByte 46) by (unfold Spec.isByte; lia).
    repeat (apply Forall_app; split; [apply Hdig; assumption |]; constructor; [exact H46 |]).
    apply Hdig; assumption. }
  rewrite bytes_ofBytes by exact Hbytes.
  rewrite firstSep_digits by (apply decimal_bytes; exact Ha).
  cbn [firstSep]. change ((46 =? 46) || (46 =? 58)) with true. cbv iota.
  change (46 =? 46) with true. cbv iota.
  unfold parseIPv4.
  rewrite v4_first by (assumption || reflexivity).
  rewrite v4_next by (assumption || reflexivity || lia).
  rewrite v4_next by (assumption || reflexivity || lia).
  rewrite <- (app_nil_r (decimal d)).
  rewrite v4_next by (assumption || exact I || lia).
  reflexivity.
Qed.

End ParseFacts.

(* ================================================================= *)
(** ** One line *)

Module LineFacts.
Import GoString Log2Life.

Lemma IPToXY_returns (arch : GOARCH) (addr : string) (width height : Z) :
  exists xy, IPToXY arch addr width height = Ok xy.
Proof.
  destruct (GoNet.ParseIP addr) as [ip |] eqn:E.
  - eexists. apply AddressFacts.IPToXY_parsed. exact E.
  - eexists. apply AddressFacts.IPToXY_unparsed. exact E.
Qed.

(** A line with an address, four fields, a closing bracket in the
    fourth and a timestamp that parses: the pattern is folded out of
    everything after that bracket. *)
Lemma LineToPattern_wellformed (arch : GOARCH) (line : string) (width height : Z)
  (f0 f1 f2 f3 g0 g1 stamp : string) (ts : GoTime.t) :
  SplitN line " " 4 = [f0; f1; f2; f3] ->
  String.eqb f0 "-" || String.eqb (TrimSpace f0) "" = false ->
  SplitN f3 "]" 2 = [g0; g1] ->
  sliceFrom g0 1 = Ok stamp ->
  GoTime.Parse stamp = Ok ts ->
  LineToPattern arch line width height =
  ('(x, y) <- IPToXY arch f0 width height ;;
   Ok (Pattern.MakeLife105 x y (Pattern.encode (bytes g1)), ts)).
Proof.
  intros Hf Hf0 Hg Hs Ht. unfold LineToPattern.
  rewrite Hf. cbn [field nth_error bind]. rewrite Hf0.
  destruct (IPToXY arch f0 width height) as [[x y] | e | w]; cbn [bind];
    [| reflexivity | reflexivity].
  rewrite Hg. cbn [field nth_error bind]. rewrite Hs. cbn [bind].
  rewrite Ht. reflexivity.
Qed.

(** A line of fewer than four fields whose first field passes for an
    address: the read of [fields[3]] panics. *)
Lemma LineToPattern_short (arch : GOARCH) (line : string) (width height : Z)
  (f0 : string) (more : list string) :
  SplitN line " " 4 = f0 :: more ->
  (List.length more < 3)%nat ->
  String.eqb f0 "-" || String.eqb (TrimSpace f0) "" = false ->
  LineToPattern arch line width height = Panic "index out of range".
Proof.
  intros Hf Hn Hf0. unfold LineToPattern.
  rewrite Hf. cbn [field nth_error bind]. rewrite Hf0.
  destruct (IPToXY_returns arch f0 width height) as [[x y] ->]. cbn [bind].
  destruct more as [| f1 [| f2 [| f3 more]]]; try reflexivity.
  simpl in Hn. lia.
Qed.

End LineFacts.

(* ================================================================= *)
(** ** The run *)

Module RunFacts.
Import Log2Life.

(** A run in which no line panics reads every line and ends with the
    scanner's status: neither a returned error nor a failed POST stops
    it. *)
Lemma scanLoop_ending (arch : GOARCH)
  (SendPattern : nat -> list string -> option string) (c : cmdlineArgs)
  (speed : spec_float) (readErr : option string) (lines : list string) :
  Forall (fun line => forall why,
            LineToPattern arch line (Columns c) (Rows c) <> Panic why) lines ->
  forall n lastTime,
    snd (scanLoop arch SendPattern c speed readErr n lines lastTime)
    = Exit (match readErr with Some _ => 1 | None => 0 end).
Proof.
  induction 1 as [| line rest Hline _ IH]; intros n lastTime; cbn [scanLoop].
  - destruct readErr; reflexivity.
  - destruct (LineToPattern arch line (Columns c) (Rows c)) as [[pattern ts] | e | w].
    + specialize (IH (S n) ts).
      destruct (scanLoop arch SendPattern c speed readErr (S n) rest ts) as [evs fin].
      exact IH.
    + specialize (IH (S n) lastTime).
      destruct (scanLoop arch SendPattern c speed readErr (S n) rest lastTime)
        as [evs fin].
      exact IH.
    + exfalso. apply (Hline w). reflexivity.
Qed.

End RunFacts.

(* ================================================================= *)
(** ** float64 arithmetic *)

Module FloatFacts.
Import Float64.

Lemma digits2_size (p : positive) : digits2_pos p = Pos.size p.
Proof. induction p; simpl; congruence. Qed.

Lemma digits2_bounds (p : positive) :
  2 ^ (Z.pos (digits2_pos p) - 1) <= Z.pos p < 2 ^ Z.pos (digits2_pos p).
Proof.
  rewrite digits2_size.
  pose proof (Pos.size_gt p) as Hgt. pose proof (Pos.size_le p) as Hle.
  assert (E : Z.pos (2 ^ Pos.size p) = 2 ^ Z.pos (Pos.size p)) by (rewrite Pos2Z.inj_pow; reflexivity).
  split.
  - assert (2 ^ Z.pos (Pos.size p) = 2 * 2 ^ (Z.pos (Pos.size p) - 1)).
    { rewrite <- Z.pow_succ_r by lia. f_equal. lia. }
    lia.
  - lia.
Qed.

Lemma digits2_unique (p : positive) (d : Z) :
  2 ^ (d - 1) <= Z.pos p < 2 ^ d -> Z.pos (digits2_pos p) = d.
Proof.
  intros [Hlo Hhi]. pose proof (digits2_bounds p) as [Blo Bhi].
  assert (0 < d).
  { destruct (Z_lt_le_dec 0 d); [assumption |].
    assert (2 ^ d <= 2 ^ 0) by (apply Z.pow_le_mono_r; lia). simpl in *. lia. }
  destruct (Z_lt_le_dec (Z.pos (digits2_pos p)) d) as [L | L].
  - assert (2 ^ Z.pos (digits2_pos p) <= 2 ^ (d - 1)) by (apply Z.pow_le_mono_r; lia). lia.
  - destruct (Z_lt_le_dec d (Z.pos (digits2_pos p))) as [G | G]; [| lia].
    assert (2 ^ d <= 2 ^ (Z.pos (digits2_pos p) - 1)) by (apply Z.pow_le_mono_r; lia). lia.
Qed.

Lemma fexp_normal (x : Z) : -1021 <= x -> fexp prec emax x = x - 53.
Proof. intros H. unfold fexp, emin, prec, emax. lia. Qed.

Lemma binary_round_aux_canonical (s : bool) (m : positive) (e : Z) :
  Z.pos (digits2_pos m) = 53 -> -1074 <= e <= 971 ->
  binary_round_aux prec emax s (Z.pos m) e loc_Exact = S754_finite s m e.
Proof.
  intros Hd He. unfold binary_round_aux.
  assert (S1 : shr_fexp prec emax (Z.pos m) e loc_Exact
               = ({| shr_m := Z.pos m; shr_r := false; shr_s := false |}, e)).
  { unfold shr_fexp. cbn [Zdigits2 shr_record_of_loc]. rewrite Hd.
    rewrite fexp_normal by lia. replace (53 + e - 53 - e) with 0 by lia. reflexivity. }
  rewrite S1. cbn [shr_m loc_of_shr_record round_nearest_even].
  rewrite S1. cbn [shr_m].
  replace (e <=? emax - prec) with true by (unfold emax, prec; symmetry; apply Z.leb_le; lia).
  reflexivity.
Qed.

Lemma binary_round_aux_even (s : bool) (m : positive) (e : Z) :
  Z.pos (digits2_pos m) = 53 -> -1075 <= e <= 970 ->
  binary_round_aux prec emax s (Z.pos m~0) e loc_Exact = S754_finite s m (e + 1).
Proof.
  intros Hd He. unfold binary_round_aux.
  assert (S1 : shr_fexp prec emax (Z.pos m~0) e loc_Exact
               = ({| shr_m := Z.pos m; shr_r := false; shr_s := false |}, e + 1)).
  { unfold shr_fexp. cbn [Zdigits2 shr_record_of_loc digits2_pos].
    rewrite Pos2Z.inj_succ, Hd.
    rewrite fexp_normal by lia. replace (Z.succ 53 + e - 53 - e) with 1 by lia. reflexivity. }
  rewrite S1. cbn [shr_m loc_of_shr_record round_nearest_even].
  assert (S2 : shr_fexp prec emax (Z.pos m) (e + 1) loc_Exact
               = ({| shr_m := Z.pos m; shr_r := false; shr_s := false |}, e + 1)).
  { unfold shr_fexp. cbn [Zdigits2 shr_record_of_loc]. rewrite Hd.
    rewrite fexp_normal by lia. replace (53 + (e + 1) - 53 - (e + 1)) with 0 by lia. reflexivity. }
  rewrite S2. cbn [shr_m].
  replace (e + 1 <=? emax - prec) with true by (unfold emax, prec; symmetry; apply Z.leb_le; lia).
  reflexivity.
Qed.

Lemma iter_pos_nat {A} (f : A -> A) (n : positive) (x : A) :
  iter_pos f n x = Nat.iter (Pos.to_nat n) f x.
Proof.
  revert x. induction n as [n IH | n IH |]; intros x; cbn [iter_pos].
  - rewrite !IH. rewrite Pos2Nat.inj_xI. 
    replace (S (2 * Pos.to_nat n)) with (Pos.to_nat n + (Pos.to_nat n + 1))%nat by lia.
    rewrite !Nat.iter_add. reflexivity.
  - rewrite !IH. rewrite Pos2Nat.inj_xO.
    replace (2 * Pos.to_nat n)%nat with (Pos.to_nat n + Pos.to_nat n)%nat by lia.
    rewrite Nat.iter_add. reflexivity.
  - reflexivity.
Qed.

Lemma shr_iter_xO (k : nat) (m : positive) :
  Nat.iter k shr_1 {| shr_m := Z.pos (Nat.iter k xO m); shr_r := false; shr_s := false |}
  = {| shr_m := Z.pos m; shr_r := false; shr_s := false |}.
Proof.
  induction k as [| k IH]; [reflexivity |].
  rewrite Nat.iter_succ_r, Nat.iter_succ. cbn [shr_1 orb]. exact IH.
Qed.

Lemma mul_pow2_iter (m : positive) (k : nat) :
  (m * Nat.iter k xO 1 = Nat.iter k xO m)%positive.
Proof.
  induction k as [| k IH]; [apply Pos.mul_1_r |].
  rewrite !Nat.iter_succ, Pos.mul_xO_r, IH. reflexivity.
Qed.

Lemma digits2_iter_xO (k : nat) (m : positive) :
  Z.pos (digits2_pos (Nat.iter k xO m)) = Z.pos (digits2_pos m) + Z.of_nat k.
Proof.
  induction k as [| k IH]; [simpl; lia |].
  rewrite Nat.iter_succ. cbn [digits2_pos].
  rewrite Pos2Z.inj_succ, IH. lia.
Qed.

Lemma pos_iter_xO_value (k : nat) (m : positive) :
  Z.pos (Nat.iter k xO m) = Z.pos m * 2 ^ Z.of_nat k.
Proof.
  induction k as [| k IH]; [simpl; lia |].
  rewrite Nat.iter_succ, Pos2Z.inj_xO, IH, Nat2Z.inj_succ, Z.pow_succ_r by lia. lia.
Qed.

(** Exactly representable products: a 53-bit mantissa times 2^k. *)
Lemma binary_round_aux_shifted (s : bool) (m : positive) (e : Z) (k : positive) :
  Z.pos (digits2_pos m) = 53 -> -1074 <= e + Z.pos k <= 971 ->
  binary_round_aux prec emax s (Z.pos (Nat.iter (Pos.to_nat k) xO m)) e loc_Exact
  = S754_finite s m (e + Z.pos k).
Proof.
  intros Hd He. unfold binary_round_aux.
  assert (S1 : shr_fexp prec emax (Z.pos (Nat.iter (Pos.to_nat k) xO m)) e loc_Exact
               = ({| shr_m := Z.pos m; shr_r := false; shr_s := false |}, e + Z.pos k)).
  { unfold shr_fexp. cbn [Zdigits2 shr_record_of_loc].
    rewrite digits2_iter_xO, Hd, positive_nat_Z.
    rewrite fexp_normal by lia. replace (53 + Z.pos k + e - 53 - e) with (Z.pos k) by lia.
    cbn [shr]. rewrite iter_pos_nat, shr_iter_xO. reflexivity. }
  rewrite S1. cbn [shr_m loc_of_shr_record round_nearest_even].
  assert (S2 : shr_fexp prec emax (Z.pos m) (e + Z.pos k) loc_Exact
               = ({| shr_m := Z.pos m; shr_r := false; shr_s := false |}, e + Z.pos k)).
  { unfold shr_fexp. cbn [Zdigits2 shr_record_of_loc]. rewrite Hd.
    rewrite fexp_normal by lia.
    replace (53 + (e + Z.pos k) - 53 - (e + Z.pos k)) with 0 by lia. reflexivity. }
  rewrite S2. cbn [shr_m].
  replace (e + Z.pos k <=? emax - prec) with true
    by (unfold emax, prec; symmetry; apply Z.leb_le; lia).
  reflexivity.
Qed.

Lemma one_eq : Float64.one = S754_finite false 4503599627370496 (-52).
Proof. reflexivity. Qed.

Lemma two_eq : Float64.of_int 2 = S754_finite false 4503599627370496 (-51).
Proof. reflexivity. Qed.

Lemma pow52_iter : 4503599627370496%positive = Nat.iter (Pos.to_nat 52) xO 1%positive.
Proof. reflexivity. Qed.

Lemma mul_one (s : bool) (m : positive) (e : Z) :
  Z.pos (digits2_pos m) = 53 -> -1000 <= e <= 900 ->
  Float64.mul (S754_finite s m e) Float64.one = S754_finite s m e.
Proof.
  intros Hd He. rewrite one_eq. unfold Float64.mul. cbn [SFmul].
  rewrite pow52_iter, mul_pow2_iter.
  rewrite binary_round_aux_shifted by (assumption || lia).
  rewrite xorb_false_r. f_equal. lia.
Qed.

Lemma div_eucl_exact (a : positive) :
  Z.div_eucl (Z.pos a * 2 ^ 53) 4503599627370496 = (Z.pos a~0, 0).
Proof.
  pose proof (Z_div_mod (Z.pos a * 2 ^ 53) 4503599627370496 eq_refl) as H.
  destruct (Z.div_eucl (Z.pos a * 2 ^ 53) 4503599627370496) as [q r].
  change (2 ^ 53) with 9007199254740992 in H.
  rewrite Pos2Z.inj_xO. f_equal; lia.
Qed.

(** Division by a power of two whose mantissa is 2^52. *)
Lemma div_pow2 (s : bool) (m : positive) (e ey : Z) :
  Z.pos (digits2_pos m) = 53 -> -1000 <= e - ey <= 1000 ->
  Float64.div (S754_finite s m e) (S754_finite false 4503599627370496 ey)
  = S754_finite s m (e - ey - 52).
Proof.
  intros Hd He. unfold Float64.div. cbn [SFdiv]. unfold SFdiv_core_binary.
  cbn [Zdigits2]. rewrite Hd.
  change (Z.pos (digits2_pos 4503599627370496)) with 53.
  rewrite fexp_normal by lia.
  replace (Z.min (53 + e - (53 + ey) - 53) (e - ey)) with (e - ey - 53) by lia.
  replace (e - ey - (e - ey - 53)) with 53 by lia.
  rewrite Z.shiftl_mul_pow2 by lia.
  rewrite div_eucl_exact.
  change (new_location 4503599627370496 0) with loc_Exact.
  rewrite binary_round_aux_even by (assumption || lia).
  rewrite xorb_false_r. f_equal. lia.
Qed.

Lemma div_one (s : bool) (m : positive) (e : Z) :
  Z.pos (digits2_pos m) = 53 -> -900 <= e <= 900 ->
  Float64.div (S754_finite s m e) Float64.one = S754_finite s m e.
Proof.
  intros Hd He. rewrite one_eq, div_pow2 by (assumption || lia). f_equal. lia.
Qed.

Lemma div_two (s : bool) (m : positive) (e : Z) :
  Z.pos (digits2_pos m) = 53 -> -900 <= e <= 900 ->
  Float64.div (S754_finite s m e) (Float64.of_int 2) = S754_finite s m (e - 1).
Proof.
  intros Hd He. rewrite two_eq, div_pow2 by (assumption || lia). f_equal. lia.
Qed.

Lemma pos_iter_nat {A} (f : A -> A) (x : A) (k : positive) :
  Pos.iter f x k = Nat.iter (Pos.to_nat k) f x.
Proof. apply Pos2Nat.inj_iter. Qed.

(** [float64(n)] keeps an integer below 2^53, and an even one below
    2^54, as it is. *)
Lemma of_int_exact (n : Z) :
  0 < n < 2 ^ 54 -> (2 ^ 53 <= n -> Z.even n = true) ->
  exists m e,
    Float64.of_int n = S754_finite false m e
    /\ Z.pos (digits2_pos m) = 53
    /\ -52 <= e <= 1
    /\ Z.pos m * 2 ^ (e + 52) = n * 2 ^ 52.
Proof.
  intros Hn Heven. destruct n as [| p | p]; try lia.
  pose proof (digits2_bounds p) as [Blo Bhi].
  set (d := Z.pos (digits2_pos p)) in *.
  assert (Hd1 : 1 <= d) by (unfold d; lia).
  assert (Hd54 : d <= 54).
  { destruct (Z_lt_le_dec 54 d) as [G | G]; [| lia].
    assert (2 ^ 54 <= 2 ^ (d - 1)) by (apply Z.pow_le_mono_r; lia). lia. }
  unfold Float64.of_int, binary_normalize, binary_round.
  fold d. rewrite fexp_normal by lia. unfold shl_align.
  destruct (d + 0 - 53 - 0) as [| k | k] eqn:Ek.
  - (* d = 53 *)
    exists p, 0. rewrite binary_round_aux_canonical by (fold d; lia).
    repeat split; try lia; fold d; lia.
  - (* d = 54 *)
    assert (d = 54) by lia.
    assert (Hp : 2 ^ 53 <= Z.pos p) by (replace (d - 1) with 53 in Blo by lia; exact Blo).
    specialize (Heven Hp).
    destruct p as [q | q |]; try discriminate Heven.
    assert (Hq : Z.pos (digits2_pos q) = 53).
    { unfold d in *. cbn [digits2_pos] in *. lia. }
    exists q, 1. rewrite binary_round_aux_even by (assumption || lia).
    repeat split; try lia;
      rewrite Pos2Z.inj_xO; change (2 ^ (1 + 52)) with (2 * 2 ^ 52); lia.
  - (* d < 53 *)
    assert (Hk : Z.pos k = 53 - d) by lia.
    rewrite pos_iter_nat.
    assert (Hdm : Z.pos (digits2_pos (Nat.iter (Pos.to_nat k) xO p)) = 53).
    { rewrite digits2_iter_xO, positive_nat_Z. fold d. lia. }
    exists (Nat.iter (Pos.to_nat k) xO p), (d - 53).
    replace (d + 0 - 53) with (d - 53) by lia.
    rewrite binary_round_aux_canonical by (assumption || lia).
    repeat split; try lia;
      rewrite pos_iter_xO_value, positive_nat_Z, Hk;
      rewrite <- Z.mul_assoc, <- Z.pow_add_r by lia;
      f_equal; f_equal; lia.
Qed.

(** Conversion to [int64] of a float that holds the integer [n] scaled
    by a power of two: the integer part. *)
Lemma to_int64_scaled (arch : GOARCH) (m : positive) (e n k : Z) :
  0 <= k -> - k <= e -> 0 <= n <= Int64.max_int ->
  Z.pos m * 2 ^ (e + k) = n * 2 ^ k ->
  to_int64 arch (S754_finite false m e) = n.
Proof.
  intros Hk He Hn Hv. unfold to_int64, trunc_mag.
  assert (P : 0 < 2 ^ k) by (apply Z.pow_pos_nonneg; lia).
  assert (V : (if 0 <=? e then Z.pos m * 2 ^ e else Z.pos m / 2 ^ (- e)) = n).
  { destruct (Z.leb_spec 0 e) as [L | L].
    - rewrite Z.pow_add_r in Hv by lia. nia.
    - assert (Q : 0 < 2 ^ (- e)) by (apply Z.pow_pos_nonneg; lia).
      assert (S : 2 ^ k = 2 ^ (e + k) * 2 ^ (- e)).
      { rewrite <- Z.pow_add_r by lia. f_equal. lia. }
      assert (R : 0 < 2 ^ (e + k)) by (apply Z.pow_pos_nonneg; lia).
      assert (M : Z.pos m = n * 2 ^ (- e)) by (rewrite S in Hv; nia).
      rewrite M. apply Z.div_mul. lia. }
  rewrite V.
  replace (Int64.in_range n) with true; [reflexivity |].
  unfold Int64.in_range, Int64.min_int. symmetry. apply andb_true_iff.
  split; apply Z.leb_le; unfold Int64.max_int in *; lia.
Qed.

Lemma shr_1_m (mrs : shr_record) : 0 <= shr_m mrs -> shr_m (shr_1 mrs) = shr_m mrs / 2.
Proof.
  destruct mrs as [m r s]. cbn [shr_m]. intros Hm.
  destruct m as [| p | p]; [reflexivity | | lia].
  destruct p as [p | p |]; cbn [shr_1 shr_m].
  - rewrite Pos2Z.inj_xI. apply (Z.div_unique _ _ _ 1); lia.
  - rewrite Pos2Z.inj_xO. apply (Z.div_unique _ _ _ 0); lia.
  - reflexivity.
Qed.

Lemma shr_iter_m (k : nat) (mrs : shr_record) :
  0 <= shr_m mrs -> shr_m (Nat.iter k shr_1 mrs) = shr_m mrs / 2 ^ Z.of_nat k.
Proof.
  intros Hm. induction k as [| k IH].
  - simpl. rewrite Z.div_1_r. reflexivity.
  - rewrite Nat.iter_succ, shr_1_m, IH.
    + rewrite Nat2Z.inj_succ, Z.pow_succ_r by lia.
      rewrite Z.div_div by (try apply Z.pow_pos_nonneg; lia).
      f_equal. lia.
    + rewrite IH. apply Z.div_pos; [lia | apply Z.pow_pos_nonneg; lia].
Qed.

Lemma shr_record_of_loc_m (m : Z) (l : location) : shr_m (shr_record_of_loc m l) = m.
Proof. destruct l as [| []]; reflexivity. Qed.

(** The first shift of [binary_round_aux]: [n] bits are dropped. *)
Lemma shr_fexp_m (m : positive) (e : Z) (l : location) :
  53 <= Z.pos (digits2_pos m) -> -1000 <= Z.pos (digits2_pos m) + e ->
  let n := Z.pos (digits2_pos m) - 53 in
  exists mrs,
    shr_fexp prec emax (Z.pos m) e l = (mrs, e + n)
    /\ shr_m mrs = Z.pos m / 2 ^ n.
Proof.
  intros Hd He n. unfold shr_fexp. cbn [Zdigits2].
  rewrite fexp_normal by lia.
  replace (Z.pos (digits2_pos m) + e - 53 - e) with n by (unfold n; lia).
  destruct n as [| k | k] eqn:En; try lia.
  - eexists. split; [cbn [shr]; rewrite Z.add_0_r; reflexivity |].
    rewrite shr_record_of_loc_m, Z.div_1_r. reflexivity.
  - eexists. split; [cbn [shr]; reflexivity |].
    rewrite iter_pos_nat, shr_iter_m, shr_record_of_loc_m, positive_nat_Z;
      [reflexivity | rewrite shr_record_of_loc_m; lia].
Qed.

Lemma round_nearest_even_bounds (m : Z) (l : location) :
  m <= round_nearest_even m l <= m + 1.
Proof.
  destruct l as [| []]; cbn [round_nearest_even]; try lia.
  destruct (Z.even m); lia.
Qed.

(** Rounding a positive number of at least 53 bits: the result is a
    normal float, at most one unit in the last place above the number
    cut to 53 bits, and not below it. *)
Lemma binary_round_aux_bounds (m : positive) (e : Z) (l : location) :
  53 <= Z.pos (digits2_pos m) -> -1000 <= Z.pos (digits2_pos m) + e <= 1000 ->
  let n := Z.pos (digits2_pos m) - 53 in
  exists M E,
    binary_round_aux prec emax false (Z.pos m) e l = S754_finite false M E
    /\ Z.pos (digits2_pos M) = 53
    /\ e + n <= E <= e + n + 1
    /\ Z.pos m / 2 ^ n <= Z.pos M * 2 ^ (E - (e + n)) <= Z.pos m / 2 ^ n + 1
    /\ 2 ^ 52 <= Z.pos m / 2 ^ n.
Proof.
  intros Hd He n.
  destruct (shr_fexp_m m e l Hd (proj1 He)) as (mrs & S1 & Hm1). fold n in S1, Hm1.
  pose proof (digits2_bounds m) as [Blo Bhi].
  assert (Hn : 0 <= n) by (unfold n; lia).
  assert (P : 0 < 2 ^ n) by (apply Z.pow_pos_nonneg; lia).
  assert (B1 : 2 ^ 52 <= Z.pos m / 2 ^ n < 2 ^ 53).
  { replace (Z.pos (digits2_pos m) - 1) with (52 + n) in Blo by (unfold n; lia).
    replace (Z.pos (digits2_pos m)) with (53 + n) in Bhi by (unfold n; lia).
    rewrite Z.pow_add_r in Blo, Bhi by lia.
    split.
    - apply Z.div_le_lower_bound; lia.
    - apply Z.div_lt_upper_bound; lia. }
  set (m1 := Z.pos m / 2 ^ n) in *.
  pose proof (round_nearest_even_bounds m1 (loc_of_shr_record mrs)) as Hr.
  unfold binary_round_aux. rewrite S1, Hm1.
  set (r := round_nearest_even m1 (loc_of_shr_record mrs)) in *.
  change (2 ^ 52) with 4503599627370496 in *.
  change (2 ^ 53) with 9007199254740992 in *.
  destruct r as [| rp | rp] eqn:Er; try lia.
  destruct (Z.eq_dec (Z.pos rp) 9007199254740992) as [Etop | Hlt].
  - (* the mantissa overflowed into a 54th bit *)
    injection Etop as ->.
    exists 4503599627370496%positive, (e + n + 1).
    unfold shr_fexp. cbn [Zdigits2].
    change (Z.pos (digits2_pos 9007199254740992)) with 54.
    rewrite fexp_normal by (unfold n; lia).
    replace (54 + (e + n) - 53 - (e + n)) with 1 by lia.
    cbn [shr_record_of_loc shr iter_pos shr_1 orb shr_m].
    replace (e + n + 1 <=? emax - prec) with true
      by (symmetry; apply Z.leb_le; unfold emax, prec, n; lia).
    split; [reflexivity |].
    split; [reflexivity |].
    split; [lia |].
    replace (e + n + 1 - (e + n)) with 1 by lia.
    change (Z.pos 4503599627370496 * 2 ^ 1) with 9007199254740992. lia.
  - exists rp, (e + n).
    assert (Hdr : Z.pos (digits2_pos rp) = 53).
    { apply digits2_unique. change (2 ^ (53 - 1)) with 4503599627370496.
      change (2 ^ 53) with 9007199254740992. lia. }
    unfold shr_fexp. cbn [Zdigits2]. rewrite Hdr.
    rewrite fexp_normal by (unfold n; lia).
    replace (53 + (e + n) - 53 - (e + n)) with 0 by lia.
    cbn [shr_record_of_loc shr shr_m].
    replace (e + n <=? emax - prec) with true
      by (symmetry; apply Z.leb_le; unfold emax, prec, n; lia).
    split; [reflexivity |].
    split; [reflexivity |].
    split; [lia |].
    replace (e + n - (e + n)) with 0 by lia. rewrite Z.mul_1_r. lia.
Qed.

Lemma d65535_eq : Float64.of_int 65535 = S754_finite false 9007061815787520 (-37).
Proof. reflexivity. Qed.

Lemma pow2_split (a b : Z) : 0 <= a -> 0 <= b -> 2 ^ (a + b) = 2 ^ a * 2 ^ b.
Proof. intros. apply Z.pow_add_r; assumption. Qed.

Lemma digits2_range (p : positive) (lo hi : Z) :
  0 <= lo -> 2 ^ lo <= Z.pos p < 2 ^ hi -> lo + 1 <= Z.pos (digits2_pos p) <= hi.
Proof.
  intros Hlo [H1 H2]. pose proof (digits2_bounds p) as [Blo Bhi].
  split.
  - destruct (Z_lt_le_dec (Z.pos (digits2_pos p)) (lo + 1)) as [L | L]; [| lia].
    assert (2 ^ Z.pos (digits2_pos p) <= 2 ^ lo) by (apply Z.pow_le_mono_r; lia). lia.
  - destruct (Z_lt_le_dec hi (Z.pos (digits2_pos p))) as [L | L]; [| lia].
    assert (0 <= hi).
    { destruct (Z_lt_le_dec hi 0) as [N | N]; [| lia].
      rewrite (Z.pow_neg_r 2 hi N) in H2. lia. }
    assert (2 ^ hi <= 2 ^ (Z.pos (digits2_pos p) - 1)) by (apply Z.pow_le_mono_r; lia).
    lia.
Qed.

(** The quotient [float64(u) / 65535] for [0 < u < 65535]: a normal
    float below [1 - 2^-17]. *)
Lemma ratio_below_one (u : Z) :
  0 < u <= 65534 ->
  exists M E,
    Float64.div (Float64.of_int u) (Float64.of_int 65535) = S754_finite false M E
    /\ Z.pos (digits2_pos M) = 53
    /\ -69 <= E <= -10
    /\ Z.pos M * 2 ^ (E + 69) <= 2 ^ 69 - 2 ^ 52.
Proof.
  intros Hu.
  destruct (of_int_exact u) as (mu & eu & -> & Hdu & Heu & Hvu).
  { change (2 ^ 54) with 18014398509481984. lia. }
  { change (2 ^ 53) with 9007199254740992. lia. }
  rewrite d65535_eq. unfold Float64.div. cbn [SFdiv xorb]. unfold SFdiv_core_binary.
  cbn [Zdigits2]. rewrite Hdu.
  change (Z.pos (digits2_pos 9007061815787520)) with 53.
  rewrite fexp_normal by lia.
  replace (Z.min (53 + eu - (53 + -37) - 53) (eu - -37)) with (eu - 16) by lia.
  replace (eu - -37 - (eu - 16)) with 53 by lia.
  rewrite Z.shiftl_mul_pow2 by lia.
  pose proof (Z_div_mod (Z.pos mu * 2 ^ 53) 9007061815787520 eq_refl) as Hdiv.
  destruct (Z.div_eucl (Z.pos mu * 2 ^ 53) 9007061815787520) as [q rem].
  destruct Hdiv as [Hq Hrem].
  pose proof (digits2_bounds mu) as [Mlo Mhi]. rewrite Hdu in Mlo, Mhi.
  change (2 ^ (53 - 1)) with 4503599627370496 in Mlo.
  change (2 ^ 53) with 9007199254740992 in *.
  assert (Hqb : 4503599627370496 <= q < 18014398509481984) by lia.
  destruct q as [| qp | qp]; try lia.
  assert (Hdq : 53 <= Z.pos (digits2_pos qp) <= 54).
  { pose proof (digits2_range qp 52 54) as R.
    change (2 ^ 52) with 4503599627370496 in R.
    change (2 ^ 54) with 18014398509481984 in R. lia. }
  destruct (binary_round_aux_bounds qp (eu - 16)
              (new_location 9007061815787520 rem))
    as (M & E & -> & HdM & HE & HM & Hcut); [lia | lia |].
  set (n := Z.pos (digits2_pos qp) - 53) in *.
  exists M, E. split; [reflexivity |]. split; [exact HdM |]. split; [lia |].
  set (t := E - (eu - 16 + n)) in *.
  assert (Ht : 0 <= t) by (unfold t; lia).
  assert (Hn : 0 <= n) by (unfold n; lia).
  replace (E + 69) with (t + n + (eu + 52) + 1) by (unfold t; lia).
  rewrite !pow2_split by lia.
  set (Pe := 2 ^ (eu + 52)) in *.
  set (Pn := 2 ^ n) in *.
  assert (HPe : 0 < Pe) by (apply Z.pow_pos_nonneg; lia).
  assert (HPn : 0 < Pn) by (apply Z.pow_pos_nonneg; lia).
  set (X := Z.pos M * 2 ^ t) in *.
  set (q1 := Z.pos qp / Pn) in *.
  assert (Hq1 : q1 * Pn <= Z.pos qp).
  { unfold q1. pose proof (Z.mul_div_le (Z.pos qp) Pn HPn). lia. }
  change (2 ^ 1) with 2. change (2 ^ 52) with 4503599627370496 in *.
  change (2 ^ 69) with 590295810358705651712.
  assert (H1 : X * 4503599627370496 <= q1 * 4503599627370497) by lia.
  assert (H2 : X * Pn * 4503599627370496 <= Z.pos qp * 4503599627370497) by nia.
  assert (H3 : Z.pos qp * 9007061815787520 <= Z.pos mu * 9007199254740992) by lia.
  assert (H4 : X * Pn * 4503599627370496 * 9007061815787520
               <= Z.pos mu * 9007199254740992 * 4503599627370497) by nia.
  assert (H5 : X * Pn * Pe * 4503599627370496 * 9007061815787520
               <= u * 4503599627370496 * 9007199254740992 * 4503599627370497).
  { rewrite <- Hvu. nia. }
  replace (Z.pos M * (2 ^ t * Pn * Pe * 2)) with (X * Pn * Pe * 2) by (unfold X; ring).
  set (V := X * Pn * Pe) in *.
  assert (H6 : V * 9007061815787520 <= 65534 * 9007199254740992 * 4503599627370497) by nia.
  lia.
Qed.

Lemma trunc_mag_le (m : positive) (e k : Z) :
  0 <= e + k -> 0 <= k ->
  0 <= trunc_mag m e /\ trunc_mag m e * 2 ^ k <= Z.pos m * 2 ^ (e + k).
Proof.
  intros Hek Hk. unfold trunc_mag.
  destruct (Z.leb_spec 0 e) as [L | L].
  - assert (0 < 2 ^ e) by (apply Z.pow_pos_nonneg; lia).
    split; [lia |]. rewrite pow2_split by lia. lia.
  - assert (Q : 0 < 2 ^ (- e)) by (apply Z.pow_pos_nonneg; lia).
    assert (R : 0 < 2 ^ (e + k)) by (apply Z.pow_pos_nonneg; lia).
    split; [apply Z.div_pos; lia |].
    replace k with (- e + (e + k)) at 1 by lia.
    rewrite pow2_split by lia.
    pose proof (Z.mul_div_le (Z.pos m) (2 ^ (- e)) Q). nia.
Qed.

(** [float64(n)] for any positive [int64]: a normal float, at most one
    unit in the last place above [n]. *)
Lemma of_int_upper (n : Z) :
  0 < n <= Int64.max_int ->
  exists m e,
    Float64.of_int n = S754_finite false m e
    /\ Z.pos (digits2_pos m) = 53
    /\ -52 <= e <= 11
    /\ Z.pos m * 2 ^ (e + 52) * 2 ^ 52 <= n * 2 ^ 52 * (2 ^ 52 + 1).
Proof.
  intros Hn. unfold Int64.max_int in Hn.
  change (2 ^ 63 - 1) with 9223372036854775807 in Hn.
  destruct (Z_lt_le_dec n (2 ^ 53)) as [Small | Large].
  - destruct (of_int_exact n) as (m & e & E & Hd & He & Hv).
    { change (2 ^ 54) with 18014398509481984.
      change (2 ^ 53) with 9007199254740992 in Small. lia. }
    { lia. }
    exists m, e. rewrite Hv.
    repeat split; try assumption; try lia.
  - destruct n as [| p | p]; try lia.
    assert (Hdp : 54 <= Z.pos (digits2_pos p) <= 63).
    { pose proof (digits2_range p 53 63) as R.
      change (2 ^ 63) with 9223372036854775808 in R. lia. }
    unfold Float64.of_int, binary_normalize, binary_round.
    rewrite fexp_normal by lia. unfold shl_align.
    destruct (Z.pos (digits2_pos p) + 0 - 53 - 0) as [| k | k] eqn:Ek; try lia.
    destruct (binary_round_aux_bounds p 0 loc_Exact)
      as (M & E & -> & HdM & HE & HM & Hcut); [lia | lia |].
    set (n := Z.pos (digits2_pos p) - 53) in *.
    exists M, E. split; [reflexivity |]. split; [exact HdM |]. split; [lia |].
    set (t := E - (0 + n)) in *.
    assert (Ht : 0 <= t) by (unfold t; lia).
    replace (E + 52) with (t + n + 52) by (unfold t; lia).
    rewrite !pow2_split by lia.
    set (Pn := 2 ^ n) in *.
    assert (HPn : 0 < Pn) by (apply Z.pow_pos_nonneg; lia).
    set (p1 := Z.pos p / Pn) in *.
    assert (Hp1 : p1 * Pn <= Z.pos p).
    { unfold p1. pose proof (Z.mul_div_le (Z.pos p) Pn HPn). lia. }
    set (Y := Z.pos M * 2 ^ t) in *.
    change (2 ^ 52) with 4503599627370496 in *.
    assert (H1 : Y * 4503599627370496 <= p1 * 4503599627370497) by lia.
    assert (H2 : Y * Pn * 4503599627370496 <= Z.pos p * 4503599627370497) by nia.
    replace (Z.pos M * (2 ^ t * Pn * 4503599627370496) * 4503599627370496)
      with (Y * Pn * 4503599627370496 * 4503599627370496) by (unfold Y; ring).
    nia.
Qed.

(** The scaled coordinate before centring: for address bytes that are
    not both 255 and any positive size, it lies in [0, size). *)
Lemma scaled_below (arch : GOARCH) (u size : Z) :
  0 <= u <= 65534 -> 0 < size <= Int64.max_int ->
  0 <= to_int64 arch
         (Float64.mul (Float64.div (Float64.of_int u) (Float64.of_int 65535))
            (Float64.of_int size))
    < size.
Proof.
  intros Hu Hsize.
  destruct (of_int_upper size Hsize) as (mw & ew & -> & Hdw & Hew & Hvw).
  unfold Int64.max_int in Hsize.
  change (2 ^ 63 - 1) with 9223372036854775807 in Hsize.
  destruct (Z.eq_dec u 0) as [-> | Hnz]; [cbn; lia |].
  destruct (ratio_below_one u) as (M & E & -> & HdM & HE & HX); [lia |].
  unfold Float64.mul. cbn [SFmul xorb].
  pose proof (digits2_bounds M) as [Mlo Mhi]. rewrite HdM in Mlo, Mhi.
  pose proof (digits2_bounds mw) as [Wlo Whi]. rewrite Hdw in Wlo, Whi.
  change (2 ^ (53 - 1)) with 4503599627370496 in *.
  change (2 ^ 53) with 9007199254740992 in *.
  assert (Hdp : 105 <= Z.pos (digits2_pos (M * mw)) <= 106).
  { pose proof (digits2_range (M * mw) 104 106) as R.
    change (2 ^ 104) with (4503599627370496 * 4503599627370496) in R.
    change (2 ^ 106) with (9007199254740992 * 9007199254740992) in R.
    rewrite Pos2Z.inj_mul in R.
    assert (4503599627370496 * 4503599627370496 <= Z.pos M * Z.pos mw) by nia.
    assert (Z.pos M * Z.pos mw < 9007199254740992 * 9007199254740992) by nia.
    lia. }
  destruct (binary_round_aux_bounds (M * mw) (E + ew) loc_Exact)
    as (M' & E' & -> & HdM' & HE' & HM' & Hcut); [lia | lia |].
  set (n := Z.pos (digits2_pos (M * mw)) - 53) in *.
  assert (Hn : 52 <= n <= 53) by (unfold n; lia).
  set (t := E' - (E + ew + n)) in *.
  assert (Ht : 0 <= t) by (unfold t; lia).
  destruct (trunc_mag_le M' E' 121) as [T0 T1]; [lia | lia |].
  set (T := trunc_mag M' E') in *.
  (* everything in units of 2^-121 *)
  replace (E' + 121) with (t + n + (E + 69) + (ew + 52)) in T1 by (unfold t; lia).
  rewrite !pow2_split in T1 by lia.
  set (Pn := 2 ^ n) in *.
  set (PE := 2 ^ (E + 69)) in *.
  set (Pw := 2 ^ (ew + 52)) in *.
  assert (HPn : 0 < Pn) by (apply Z.pow_pos_nonneg; lia).
  assert (HPE : 0 < PE) by (apply Z.pow_pos_nonneg; lia).
  assert (HPw : 0 < Pw) by (apply Z.pow_pos_nonneg; lia).
  set (Y := Z.pos M' * 2 ^ t) in *.
  set (p1 := Z.pos (M * mw) / Pn) in *.
  assert (Hp1 : p1 * Pn <= Z.pos M * Z.pos mw).
  { unfold p1. rewrite <- Pos2Z.inj_mul.
    pose proof (Z.mul_div_le (Z.pos (M * mw)) Pn HPn). lia. }
  change (2 ^ 52) with 4503599627370496 in *.
  change (2 ^ 69) with 590295810358705651712 in HX.
  change (2 ^ 121) with 2658455991569831745807614120560689152 in T1.
  assert (H1 : Y * 4503599627370496 <= p1 * 4503599627370497) by lia.
  assert (H2 : Y * Pn * 4503599627370496 <= Z.pos M * Z.pos mw * 4503599627370497) by nia.
  assert (H3 : Y * Pn * PE * Pw * 4503599627370496
               <= (Z.pos M * PE) * (Z.pos mw * Pw) * 4503599627370497).
  { assert (0 < PE * Pw) by nia.
    replace (Y * Pn * PE * Pw * 4503599627370496)
      with (Y * Pn * 4503599627370496 * (PE * Pw)) by ring.
    replace (Z.pos M * PE * (Z.pos mw * Pw) * 4503599627370497)
      with (Z.pos M * Z.pos mw * 4503599627370497 * (PE * Pw)) by ring.
    apply Z.mul_le_mono_nonneg_r; lia. }
  set (A := Z.pos M * PE) in *.
  set (B := Z.pos mw * Pw) in *.
  assert (HA : 0 < A <= 590295810358705651712 - 4503599627370496) by (unfold A; nia).
  assert (HB : 0 < B /\ B * 4503599627370496
               <= size * 4503599627370496 * 4503599627370497) by (unfold B; nia).
  set (V := Y * Pn * PE * Pw) in *.
  assert (H5 : T * 2658455991569831745807614120560689152 <= V).
  { unfold V, Y. replace (Z.pos M' * 2 ^ t * Pn * PE * Pw)
      with (Z.pos M' * (2 ^ t * Pn * PE * Pw)) by ring. exact T1. }
  assert (H6 : V * 4503599627370496 * 4503599627370496
               <= (590295810358705651712 - 4503599627370496)
                  * (size * 4503599627370496 * 4503599627370497) * 4503599627370497).
  { assert (A * B <= (590295810358705651712 - 4503599627370496) * B)
      by (apply Z.mul_le_mono_nonneg_r; lia).
    nia. }
  assert (HT : 0 <= T < size) by nia.
  unfold to_int64. fold T.
  replace (Int64.in_range T) with true; [exact HT |].
  symmetry. unfold Int64.in_range, Int64.min_int, Int64.max_int.
  apply andb_true_iff. split; apply Z.leb_le.
  - change (- 2 ^ 63) with (-9223372036854775808). lia.
  - change (2 ^ 63 - 1) with 9223372036854775807. lia.
Qed.

Lemma mul_one_l (s : bool) (m : positive) (e : Z) :
  Z.pos (digits2_pos m) = 53 -> -1000 <= e <= 900 ->
  Float64.mul Float64.one (S754_finite s m e) = S754_finite s m e.
Proof.
  intros Hd He. rewrite one_eq. unfold Float64.mul. cbn [SFmul xorb].
  rewrite Pos.mul_comm, pow52_iter, mul_pow2_iter.
  rewrite binary_round_aux_shifted by (assumption || lia).
  f_equal. lia.
Qed.

(** With both address bytes at 255 the quotient is 1.0 and the scaled
    coordinate is the size itself. *)
Lemma scaled_extreme (arch : GOARCH) (size : Z) :
  0 < size <= 2 ^ 53 ->
  to_int64 arch
    (Float64.mul (Float64.div (Float64.of_int 65535) (Float64.of_int 65535))
       (Float64.of_int size))
  = size.
Proof.
  intros Hsize. change (2 ^ 53) with 9007199254740992 in Hsize.
  destruct (of_int_exact size) as (mw & ew & -> & Hdw & Hew & Hvw).
  { change (2 ^ 54) with 18014398509481984. lia. }
  { change (2 ^ 53) with 9007199254740992. intros H.
    replace size with 9007199254740992 by lia. reflexivity. }
  change (Float64.div (Float64.of_int 65535) (Float64.of_int 65535)) with Float64.one.
  rewrite mul_one_l by (assumption || lia).
  apply (to_int64_scaled arch mw ew size 52); try lia.
  unfold Int64.max_int. change (2 ^ 63 - 1) with 9223372036854775807. lia.
Qed.

End FloatFacts.

(* ================================================================= *)
(** ** Pacing *)

Module PacingFacts.
Import Float64 Log2Life.

Lemma wrap_in_range (z : Z) :
  Int64.min_int <= z <= Int64.max_int -> Int64.wrap z = z.
Proof.
  unfold Int64.min_int, Int64.max_int, Int64.wrap. intros H.
  rewrite Z.mod_small; lia.
Qed.

(** Dividing by a zero gives an infinity or NaN, whatever is divided. *)
Lemma div_by_zero (x : spec_float) (sgn : bool) :
  Float64.div x (S754_zero sgn) = S754_nan
  \/ Float64.div x (S754_zero sgn) = S754_infinity false
  \/ Float64.div x (S754_zero sgn) = S754_infinity true.
Proof.
  destruct x as [sx | sx | | sx m e]; unfold Float64.div; cbn [SFdiv]; auto;
    destruct (xorb sx sgn); auto.
Qed.

(** The duration made of such a quotient: never positive, and zero on
    amd64. *)
Lemma delay_of_invalid (arch : GOARCH) (q : spec_float) :
  q = S754_nan \/ q = S754_infinity false \/ q = S754_infinity true ->
  Int64.wrap (to_int64 arch q * GoTime.Microsecond) <= 0
  /\ Int64.wrap (to_int64 amd64 q * GoTime.Microsecond) = 0.
Proof.
  intros [-> | [-> | ->]]; destruct arch; vm_compute; split; congruence.
Qed.

Lemma delayOf_zero_speed (arch : GOARCH) (lastTime timestamp : GoTime.t) (sgn : bool) :
  delayOf arch lastTime timestamp (S754_zero sgn) <= 0
  /\ delayOf amd64 lastTime timestamp (S754_zero sgn) = 0.
Proof. unfold delayOf. apply delay_of_invalid, div_by_zero. Qed.

Lemma scanLoop_zero_speed (arch : GOARCH)
  (SendPattern : nat -> list string -> option string) (c : cmdlineArgs)
  (sgn : bool) (readErr : option string) (lines : list string) :
  forall n lastTime,
    Spec.neverBlocks
      (fst (scanLoop arch SendPattern c (S754_zero sgn) readErr n lines lastTime)).
Proof.
  unfold Spec.neverBlocks.
  induction lines as [| line rest IH]; intros n lastTime; cbn [scanLoop].
  - destruct readErr; simpl; repeat constructor.
  - destruct (LineToPattern arch line (Columns c) (Rows c)) as [[pattern ts] | e | w].
    + specialize (IH (S n) ts).
      destruct (scanLoop arch SendPattern c (S754_zero sgn) readErr (S n) rest ts)
        as [evs fin]. cbn [fst] in *.
      apply Forall_app. split.
      * unfold pacing. destruct (GoTime.eqb lastTime GoTime.zero); [constructor |].
        repeat constructor. apply delayOf_zero_speed.
      * repeat constructor. apply Forall_app. split; [| exact IH].
        destruct (SendPattern n pattern); repeat constructor.
    + specialize (IH (S n) lastTime).
      destruct (scanLoop arch SendPattern c (S754_zero sgn) readErr (S n) rest lastTime)
        as [evs fin]. cbn [fst] in *. constructor; [exact I | exact IH].
    + constructor.
Qed.

(** The scaled gap at speed 1.0 and at speed 2.0, for a gap of [us]
    microseconds that [float64] holds exactly. *)
Lemma scaled_gap (arch : GOARCH) (us : Z) :
  0 <= us < 2 ^ 54 -> (2 ^ 53 <= us -> Z.even us = true) ->
  to_int64 arch (Float64.div (Float64.mul (Float64.of_int us) Float64.one) Float64.one)
  = us
  /\ (Z.even us = true ->
      to_int64 arch
        (Float64.div (Float64.mul (Float64.of_int us) Float64.one) (Float64.of_int 2))
      = us / 2).
Proof.
  intros Hus Heven.
  destruct (Z.eq_dec us 0) as [-> | Hnz]; [split; reflexivity |].
  destruct (FloatFacts.of_int_exact us) as (m & e & -> & Hd & He & Hv);
    [lia | exact Heven |].
  rewrite FloatFacts.mul_one by (assumption || lia).
  split.
  - rewrite FloatFacts.div_one by (assumption || lia).
    apply (FloatFacts.to_int64_scaled arch m e us 52); try lia.
    unfold Int64.max_int.
    assert (2 ^ 54 <= 2 ^ 63 - 1) by (vm_compute; discriminate). lia.
  - intros Hev. rewrite FloatFacts.div_two by (assumption || lia).
    pose proof (Zeven_div2 us (proj1 (Zeven_bool_iff us) Hev)) as H2.
    rewrite Z.div2_div in H2.
    apply (FloatFacts.to_int64_scaled arch m (e - 1) (us / 2) 53); try lia.
    + unfold Int64.max_int.
      assert (2 ^ 54 <= 2 ^ 63 - 1) by (vm_compute; discriminate). lia.
    + replace (e - 1 + 53) with (e + 52) by lia. rewrite Hv.
      change (2 ^ 53) with (2 * 2 ^ 52). lia.
Qed.

(** The gap between two whole-second instants that a [Duration] holds. *)
Lemma Sub_whole_seconds (lastTime timestamp : GoTime.t) :
  GoTime.nsec lastTime = 0 -> GoTime.nsec timestamp = 0 ->
  0 <= GoTime.unix timestamp - GoTime.unix lastTime ->
  (GoTime.unix timestamp - GoTime.unix lastTime) * GoTime.Second <= Int64.max_int ->
  GoTime.Sub timestamp lastTime
  = (GoTime.unix timestamp - GoTime.unix lastTime) * GoTime.Second.
Proof.
  intros H1 H2 Hge Hfit. unfold GoTime.Sub. rewrite H1, H2.
  unfold GoTime.Second, Int64.min_int, Int64.max_int in *.
  replace ((GoTime.unix timestamp - GoTime.unix lastTime) * 1000000000 + (0 - 0))
    with ((GoTime.unix timestamp - GoTime.unix lastTime) * 1000000000) by lia.
  destruct (Z.ltb_spec ((GoTime.unix timestamp - GoTime.unix lastTime) * 1000000000)
              (- 2 ^ 63)); [lia |].
  destruct (Z.ltb_spec (2 ^ 63 - 1)
              ((GoTime.unix timestamp - GoTime.unix lastTime) * 1000000000)); [lia |].
  reflexivity.
Qed.

Lemma delayOf_whole_seconds (arch : GOARCH) (lastTime timestamp : GoTime.t) :
  GoTime.nsec lastTime = 0 -> GoTime.nsec timestamp = 0 ->
  0 <= GoTime.unix timestamp - GoTime.unix lastTime ->
  (GoTime.unix timestamp - GoTime.unix lastTime) * GoTime.Second <= Int64.max_int ->
  delayOf arch lastTime timestamp Float64.one = GoTime.Sub timestamp lastTime
  /\ delayOf arch lastTime timestamp (Float64.of_int 2)
     = GoTime.Sub timestamp lastTime / 2.
Proof.
  intros H1 H2 Hge Hfit. unfold delayOf.
  rewrite (Sub_whole_seconds lastTime timestamp H1 H2 Hge Hfit).
  set (gap := GoTime.unix timestamp - GoTime.unix lastTime) in *.
  unfold GoTime.Second, GoTime.Microsecond, GoTime.Microseconds, Int64.max_int in *.
  assert (Hus : Z.quot (gap * 1000000000) 1000 = gap * 1000000).
  { rewrite Z.quot_div_nonneg by lia.
    replace (gap * 1000000000) with (gap * 1000000 * 1000) by lia.
    apply Z.div_mul. lia. }
  rewrite Hus.
  assert (Hev : Z.even (gap * 1000000) = true)
    by (rewrite Z.even_mul; apply orb_true_r).
  assert (Hb : 0 <= gap * 1000000 < 2 ^ 54).
  { change (2 ^ 54) with 18014398509481984.
    change (2 ^ 63 - 1) with 9223372036854775807 in Hfit. lia. }
  destruct (scaled_gap arch (gap * 1000000) Hb (fun _ => Hev)) as [E1 E2].
  rewrite E1, (E2 Hev).
  change (2 ^ 63 - 1) with 9223372036854775807 in Hfit.
  split.
  - rewrite wrap_in_range by (unfold Int64.min_int, Int64.max_int; lia). lia.
  - replace (gap * 1000000 / 2) with (gap * 500000)
      by (replace (gap * 1000000) with (gap * 500000 * 2) by lia;
          rewrite Z.div_mul by lia; reflexivity).
    replace (gap * 1000000000 / 2) with (gap * 500000000)
      by (replace (gap * 1000000000) with (gap * 500000000 * 2) by lia;
          rewrite Z.div_mul by lia; reflexivity).
    rewrite wrap_in_range by (unfold Int64.min_int, Int64.max_int; lia). lia.
Qed.

(** A parsed timestamp carries a location, so it is never the zero
    [time.Time]. *)
Lemma Parse_not_zero (value : string) (ts : GoTime.t) :
  GoTime.Parse value = Ok ts -> GoTime.eqb ts GoTime.zero = false.
Proof.
  unfold GoTime.Parse, bind. intros H.
  repeat (AddressFacts.break_in H; try discriminate).
  injection H as <-. unfold GoTime.eqb, GoTime.Date, GoTime.zero. cbn.
  apply andb_false_r.
Qed.

End PacingFacts.

(* ================================================================= *)
(** ** The coordinate inside the world *)

Module CoordinateFacts.
Import Float64 Log2Life.

Lemma word_of_bytes (hi lo : Z) :
  Spec.isByte hi -> Spec.isByte lo -> ~ (hi = 255 /\ lo = 255) ->
  0 <= Z.shiftl hi 8 + lo <= 65534.
Proof.
  unfold Spec.isByte. intros Hhi Hlo Hne.
  rewrite Z.shiftl_mul_pow2 by lia. change (2 ^ 8) with 256. lia.
Qed.

(** One axis: off the edge the centred coordinate lies in
    [-(size/2), size - size/2). *)
Lemma scale_in_world (arch : GOARCH) (hi lo size : Z) :
  Spec.isByte hi -> Spec.isByte lo -> ~ (hi = 255 /\ lo = 255) ->
  0 < size <= Int64.max_int ->
  - Z.quot size 2 <= scale arch hi lo size < size - Z.quot size 2.
Proof.
  intros Hhi Hlo Hne Hsize. unfold scale.
  pose proof (FloatFacts.scaled_below arch (Z.shiftl hi 8 + lo) size
                (word_of_bytes hi lo Hhi Hlo Hne) Hsize) as HT.
  set (T := to_int64 arch _) in *.
  assert (Hq : 0 <= Z.quot size 2 <= size).
  { rewrite Z.quot_div_nonneg by lia.
    split; [apply Z.div_pos; lia |].
    apply Z.div_le_upper_bound; lia. }
  unfold Int64.max_int in Hsize.
  change (2 ^ 63 - 1) with 9223372036854775807 in Hsize.
  rewrite PacingFacts.wrap_in_range; [lia |].
  unfold Int64.min_int, Int64.max_int.
  change (- 2 ^ 63) with (-9223372036854775808).
  change (2 ^ 63 - 1) with 9223372036854775807. lia.
Qed.

(** One axis at the edge: both bytes 255 give [size - size/2], one past
    the interval, for every size that [float64] holds exactly. *)
Lemma scale_at_edge (arch : GOARCH) (size : Z) :
  0 < size <= 2 ^ 53 ->
  scale arch 255 255 size = size - Z.quot size 2.
Proof.
  intros Hsize. unfold scale.
  change (Z.shiftl 255 8 + 255) with 65535.
  rewrite FloatFacts.scaled_extreme by exact Hsize.
  change (2 ^ 53) with 9007199254740992 in Hsize.
  assert (Hq : 0 <= Z.quot size 2 <= size).
  { rewrite Z.quot_div_nonneg by lia.
    split; [apply Z.div_pos; lia |].
    apply Z.div_le_upper_bound; lia. }
  apply PacingFacts.wrap_in_range.
  unfold Int64.min_int, Int64.max_int.
  change (- 2 ^ 63) with (-9223372036854775808).
  change (2 ^ 63 - 1) with 9223372036854775807. lia.
Qed.

Lemma even_half (size : Z) :
  0 < size -> Z.even size = true -> size - Z.quot size 2 = Z.quot size 2.
Proof.
  intros Hpos Hev. rewrite Z.quot_div_nonneg by lia.
  pose proof (Zeven_div2 size (proj1 (Zeven_bool_iff size) Hev)) as H2.
  rewrite Z.div2_div in H2. lia.
Qed.

(** The address 255.255.255.255: both axes at the edge. *)
Lemma IPToXY_edge (arch : GOARCH) (width height : Z) :
  0 < width <= 2 ^ 53 -> 0 < height <= 2 ^ 53 ->
  IPToXY arch "255.255.255.255" width height
  = Ok (width - Z.quot width 2, height - Z.quot height 2).
Proof.
  intros Hw Hh.
  rewrite (AddressFacts.IPToXY_parsed arch "255.255.255.255" width height
             (GoNet.IPv4 [255; 255; 255; 255])) by reflexivity.
  cbn [nth GoNet.IPv4 GoNet.v4InV6Prefix app].
  rewrite !scale_at_edge by assumption. reflexivity.
Qed.

End CoordinateFacts.

(* ================================================================= *)
(** ** Lemmas for the further properties *)

(* ================================================================= *)
(** ** Cutting and splitting *)

Module SplitFacts.
Import GoString Vocabulary.

Lemma cut_app (sep : ascii) (a b : string) :
  free sep a = true -> cut sep (a ++ String sep b) = Some (a, b).
Proof.
  induction a as [| c a IH]; cbn [free append cut]; intros H.
  - rewrite Ascii.eqb_refl. reflexivity.
  - apply andb_true_iff in H as [Hc Ha]. apply negb_true_iff in Hc.
    rewrite Hc, (IH Ha). reflexivity.
Qed.

Lemma cut_inv (sep : ascii) (s a b : string) :
  cut sep s = Some (a, b) -> s = a ++ String sep b /\ free sep a = true.
Proof.
  revert a b. induction s as [| c s IH]; cbn [cut]; intros a b H; [discriminate |].
  destruct (Ascii.eqb c sep) eqn:E.
  - injection H as <- <-. apply Ascii.eqb_eq in E. subst c. split; reflexivity.
  - destruct (cut sep s) as [[a' b'] |]; [| discriminate].
    injection H as <- <-. destruct (IH a' b' eq_refl) as [-> Hf].
    split; [reflexivity |]. cbn [free]. rewrite E, Hf. reflexivity.
Qed.

Lemma cut_none (sep : ascii) (s : string) : cut sep s = None <-> free sep s = true.
Proof.
  induction s as [| c s IH]; cbn [cut free]; [tauto |].
  destruct (Ascii.eqb c sep); cbn [negb andb].
  - split; discriminate.
  - destruct (cut sep s) as [[a b] |].
    + split; [discriminate |]. intros H. apply IH in H. discriminate.
    + split; [intros _; apply IH; reflexivity | reflexivity].
Qed.

(** [SplitN(line, " ", 4)], cut by cut. *)
Lemma SplitN_4 (sep : ascii) (line : string) :
  SplitN line sep 4 =
  match cut sep line with
  | None => [line]
  | Some (f0, r1) =>
      f0 :: match cut sep r1 with
            | None => [r1]
            | Some (f1, r2) =>
                f1 :: match cut sep r2 with
                      | None => [r2]
                      | Some (f2, f3) => [f2; f3]
                      end
            end
  end.
Proof.
  cbn [SplitN]. destruct (cut sep line) as [[f0 r1] |]; [| reflexivity].
  destruct (cut sep r1) as [[f1 r2] |]; [| reflexivity].
  destruct (cut sep r2) as [[f2 f3] |]; reflexivity.
Qed.

Lemma SplitN_2 (sep : ascii) (s : string) :
  SplitN s sep 2 = match cut sep s with Some (a, b) => [a; b] | None => [s] end.
Proof. cbn [SplitN]. destruct (cut sep s) as [[a b] |]; reflexivity. Qed.

(** Four fields are what three separators make. *)
Lemma SplitN_4_fields (sep : ascii) (f0 f1 f2 f3 : string) :
  free sep f0 = true -> free sep f1 = true -> free sep f2 = true ->
  SplitN (f0 ++ String sep (f1 ++ String sep (f2 ++ String sep f3))) sep 4
  = [f0; f1; f2; f3].
Proof.
  intros H0 H1 H2. rewrite SplitN_4.
  rewrite (cut_app sep f0 _ H0), (cut_app sep f1 _ H1), (cut_app sep f2 _ H2).
  reflexivity.
Qed.

Lemma SplitN_4_inv (sep : ascii) (line f0 f1 f2 f3 : string) :
  SplitN line sep 4 = [f0; f1; f2; f3] ->
  line = f0 ++ String sep (f1 ++ String sep (f2 ++ String sep f3))
  /\ free sep f0 = true /\ free sep f1 = true /\ free sep f2 = true.
Proof.
  rewrite SplitN_4. intros H.
  destruct (cut sep line) as [[a0 r1] |] eqn:E0; [| discriminate].
  destruct (cut sep r1) as [[a1 r2] |] eqn:E1; [| discriminate].
  destruct (cut sep r2) as [[a2 a3] |] eqn:E2; [| discriminate].
  injection H as -> -> -> ->.
  apply cut_inv in E0 as [-> F0]. apply cut_inv in E1 as [-> F1].
  apply cut_inv in E2 as [-> F2]. auto.
Qed.

(** The first of the fields is the text before the first separator. *)
Lemma SplitN_4_head (line : string) :
  exists more, SplitN line " " 4 = firstField line :: more
               /\ (List.length more <= 3)%nat.
Proof.
  rewrite SplitN_4. unfold firstField.
  destruct (cut " " line) as [[f0 r1] |]; [| exists []; split; [reflexivity | simpl; lia]].
  destruct (cut " " r1) as [[f1 r2] |]; [| eexists; split; [reflexivity | simpl; lia]].
  destruct (cut " " r2) as [[f2 f3] |]; eexists; split; try reflexivity; simpl; lia.
Qed.

Lemma substring_all (s : string) : String.substring 0 (String.length s) s = s.
Proof. induction s as [| c s IH]; cbn; [reflexivity | rewrite IH; reflexivity]. Qed.

(** [s[1:]] drops the first byte, whatever it is. *)
Lemma sliceFrom_tail (c : ascii) (s : string) : sliceFrom (String c s) 1 = Ok s.
Proof.
  unfold sliceFrom. cbn [String.length Nat.leb Nat.sub String.substring].
  rewrite Nat.sub_0_r, substring_all. reflexivity.
Qed.

End SplitFacts.

(* ================================================================= *)
(** ** What time.Parse can answer *)

Module StampFacts.
Import GoString GoTime Vocabulary.

Lemma bind_result {A B} (m : outcome A) (k : A -> outcome B) :
  parserResult m -> (forall a, parserResult (k a)) -> parserResult (bind m k).
Proof. destruct m; cbn; intros Hm Hk; [apply Hk | exact Hm | exact Hm]. Qed.

Lemma getnum_result (s : list Z) (fixed : bool) : parserResult (getnum s fixed).
Proof.
  unfold getnum. destruct (negb (isDigit s 0)); [reflexivity |].
  destruct (negb (isDigit s 1)); [destruct fixed |]; exact I || reflexivity.
Qed.

Lemma skipByte_result (c : Z) (s : list Z) : parserResult (skipByte c s).
Proof.
  unfold skipByte. destruct s as [| b r]; [reflexivity |].
  destruct (b =? c); exact I || reflexivity.
Qed.

Lemma lookup_result (tab : list string) :
  forall i val, parserResult (lookup tab i val).
Proof.
  induction tab as [| v tab IH]; intros i val; cbn [lookup]; [reflexivity |].
  destruct (_ && _); [exact I | apply IH].
Qed.

Lemma atoi_result (s : list Z) : parserResult (atoi s).
Proof.
  unfold atoi.
  destruct (match s with
            | [] => (false, s)
            | b :: r => if (b =? 45) || (b =? 43) then (b =? 45, r) else (false, s)
            end) as [neg digits].
  destruct (allDigits digits); exact I || reflexivity.
Qed.

Lemma getyear_result (s : list Z) : parserResult (getyear s).
Proof.
  unfold getyear. destruct (_ || _); [reflexivity |].
  apply bind_result; [apply atoi_result | intros; exact I].
Qed.

Lemma skipSpace_result (s : list Z) : parserResult (skipSpace s).
Proof.
  unfold skipSpace. destruct s as [| b r]; [exact I |].
  destruct (b =? 32); exact I || reflexivity.
Qed.

Lemma getzone_result (s : list Z) : parserResult (getzone s).
Proof.
  unfold getzone. destruct (_ <? _)%nat; [reflexivity |].
  apply bind_result; [apply atoi_result | intros hr].
  apply bind_result; [apply atoi_result | intros mm].
  cbv zeta. destruct (_ =? 43); [exact I |].
  destruct (_ =? 45); exact I || reflexivity.
Qed.

Lemma Parse_result (value : string) : parserResult (Parse value).
Proof.
  unfold Parse.
  apply bind_result; [apply getnum_result | intros [day v]].
  apply bind_result; [apply skipByte_result | intros v1].
  apply bind_result; [apply lookup_result | intros [mi v2]].
  apply bind_result; [apply skipByte_result | intros v3].
  apply bind_result; [apply getyear_result | intros [year v4]].
  apply bind_result; [apply skipByte_result | intros v5].
  apply bind_result; [apply getnum_result | intros [hour v6]].
  destruct (24 <=? hour); [reflexivity |].
  apply bind_result; [apply skipByte_result | intros v7].
  apply bind_result; [apply getnum_result | intros [min v8]].
  destruct (60 <=? min); [reflexivity |].
  apply bind_result; [apply skipByte_result | intros v9].
  apply bind_result; [apply getnum_result | intros [sec v10]].
  destruct (60 <=? sec); [reflexivity |].
  destruct (getfrac v10) as [ns v11].
  apply bind_result; [apply skipSpace_result | intros v12].
  apply bind_result; [apply getzone_result | intros [zoneOffset v13]].
  destruct v13; [| reflexivity].
  destruct (_ || _); exact I || reflexivity.
Qed.

Lemma Parse_no_panic (value why : string) : Parse value <> Panic why.
Proof.
  intros H. pose proof (Parse_result value) as R. rewrite H in R. exact R.
Qed.

Lemma Parse_error (value e : string) :
  Parse value = Err e -> startsWith "parsing time" e = true.
Proof.
  intros H. pose proof (Parse_result value) as R. rewrite H in R. exact R.
Qed.

End StampFacts.

(* ================================================================= *)
(** ** Every outcome of LineToPattern *)

Module OutcomeFacts.
Import GoString Log2Life Vocabulary.

(** The address test of [LineToPattern]. *)
Lemma address_test (f0 : string) :
  String.eqb f0 "-" || String.eqb (TrimSpace f0) "" = false
  <-> f0 <> "-" /\ TrimSpace f0 <> "".
Proof.
  rewrite orb_false_iff, !String.eqb_neq. tauto.
Qed.

Lemma address_test_true (f0 : string) :
  String.eqb f0 "-" || String.eqb (TrimSpace f0) "" = true
  <-> f0 = "-" \/ TrimSpace f0 = "".
Proof.
  rewrite orb_true_iff, !String.eqb_eq. tauto.
Qed.

Lemma LineToPattern_eq (arch : GOARCH) (line : string) (width height : Z) :
  LineToPattern arch line width height =
  if String.eqb (firstField line) "-" || String.eqb (TrimSpace (firstField line)) ""
  then Err "No client IP address"
  else
    '(x, y) <- IPToXY arch (firstField line) width height ;;
    match SplitN line " " 4 with
    | [_; _; _; f3] => bracketField arch x y f3
    | _ => Panic "index out of range"
    end.
Proof.
  unfold LineToPattern.
  destruct (SplitFacts.SplitN_4_head line) as (more & -> & Hlen).
  cbn [field nth_error bind].
  destruct (_ || _); [reflexivity |].
  destruct (LineFacts.IPToXY_returns arch (firstField line) width height) as [[x y] ->].
  cbn [bind].
  destruct more as [| f1 [| f2 [| f3 [| f4 more]]]]; try reflexivity;
    [| simpl in Hlen; lia].
  cbn [field nth_error bind]. rewrite SplitFacts.SplitN_2. unfold bracketField.
  destruct f3 as [| c r]; [reflexivity |].
  destruct (cut "]" (String c r)) as [[g0 g1] |] eqn:E; cbn [field nth_error bind].
  - destruct g0 as [| c' stamp]; [reflexivity |].
    rewrite SplitFacts.sliceFrom_tail. cbn [bind].
    destruct (GoTime.Parse stamp); reflexivity.
  - rewrite SplitFacts.sliceFrom_tail. cbn [bind].
    destruct (GoTime.Parse r); reflexivity.
Qed.

(** When the reading of the fourth field panics. *)
Lemma bracketField_panic (arch : GOARCH) (x y : Z) (f3 why : string) :
  bracketField arch x y f3 = Panic why <->
  (why = "slice bounds out of range"
   /\ (f3 = "" \/ exists r, f3 = String "]" r))
  \/ (why = "index out of range"
      /\ free "]" f3 = true
      /\ exists c stamp ts, f3 = String c stamp /\ GoTime.Parse stamp = Ok ts).
Proof.
  unfold bracketField. destruct f3 as [| c r].
  - split.
    + intros H. injection H as <-. left. split; [reflexivity | left; reflexivity].
    + intros [[-> _] | (_ & _ & c & stamp & ts & Hf & _)]; [reflexivity | discriminate].
  - cbn [cut free]. destruct (Ascii.eqb c "]") eqn:E; cbn [negb andb].
    + split.
      * intros H. injection H as <-. left. split; [reflexivity |].
        right. exists r. apply Ascii.eqb_eq in E. subst c. reflexivity.
      * intros [[-> _] | (_ & F & _)]; [reflexivity | discriminate].
    + assert (Hc : forall r', String c r <> String "]" r').
      { intros r' Hr. injection Hr as -> _. rewrite Ascii.eqb_refl in E. discriminate. }
      destruct (cut "]" r) as [[a b] |] eqn:Ec.
      * split.
        -- intros H. destruct (GoTime.Parse a) eqn:Hp; try discriminate.
           exfalso. exact (StampFacts.Parse_no_panic _ _ Hp).
        -- intros [[_ [Hf | [r' Hf]]] | (_ & F & _)].
           ++ discriminate.
           ++ exfalso. exact (Hc r' Hf).
           ++ apply SplitFacts.cut_none in F. congruence.
      * split.
        -- intros H. destruct (GoTime.Parse r) as [ts | e | w] eqn:Hp; try discriminate.
           ++ injection H as <-. right. split; [reflexivity |].
              split; [apply SplitFacts.cut_none; exact Ec |].
              exists c, r, ts. split; [reflexivity | exact Hp].
           ++ exfalso. exact (StampFacts.Parse_no_panic _ _ Hp).
        -- intros [[_ [Hf | [r' Hf]]] | (-> & F & c' & stamp & ts & Hf & Hp)].
           ++ discriminate.
           ++ exfalso. exact (Hc r' Hf).
           ++ injection Hf as -> ->. rewrite Hp. reflexivity.
Qed.

(** What an accepted line gives. *)
Lemma LineToPattern_ok (arch : GOARCH) (line : string) (width height : Z)
  (pattern : list string) (ts : GoTime.t) :
  LineToPattern arch line width height = Ok (pattern, ts) ->
  exists x y rest stamp,
    IPToXY arch (firstField line) width height = Ok (x, y)
    /\ pattern = Pattern.MakeLife105 x y (Pattern.encode (bytes rest))
    /\ GoTime.Parse stamp = Ok ts.
Proof.
  rewrite LineToPattern_eq. intros H.
  destruct (_ || _); [discriminate |].
  destruct (IPToXY arch (firstField line) width height) as [[x y] | e | w];
    cbn [bind] in H; try discriminate.
  destruct (SplitN line " " 4) as [| f0 [| f1 [| f2 [| f3 [| f4 l]]]]];
    try discriminate.
  unfold bracketField in H. destruct f3 as [| c r]; [discriminate |].
  destruct (cut "]" (String c r)) as [[[| c' stamp] g1] |]; try discriminate.
  - destruct (GoTime.Parse stamp) as [ts' | e | w] eqn:Hp; try discriminate.
    injection H as <- <-. exists x, y, g1, stamp. auto.
  - destruct (GoTime.Parse r); discriminate.
Qed.

Lemma LineToPattern_stamp (arch : GOARCH) (line : string) (width height : Z)
  (pattern : list string) (ts : GoTime.t) :
  LineToPattern arch line width height = Ok (pattern, ts) ->
  GoTime.eqb ts GoTime.zero = false.
Proof.
  intros H. apply LineToPattern_ok in H as (x & y & rest & stamp & _ & _ & Hp).
  exact (PacingFacts.Parse_not_zero _ _ Hp).
Qed.

Lemma bytes_isByte (s : string) : Forall Spec.isByte (bytes s).
Proof.
  unfold bytes. apply Forall_forall. intros b Hb.
  apply in_map_iff in Hb as (c & <- & _). unfold byte_of, Spec.isByte.
  pose proof (N_ascii_bounded c). lia.
Qed.

(** A line put together from its parts. *)
Lemma LineToPattern_built (arch : GOARCH) (addr ident user : string) (c : ascii)
  (stamp rest : string) (ts : GoTime.t) (width height : Z) :
  free " " addr = true -> free " " ident = true -> free " " user = true ->
  free "]" (String c stamp) = true ->
  addr <> "-" -> TrimSpace addr <> "" ->
  GoTime.Parse stamp = Ok ts ->
  LineToPattern arch
    (addr ++ " " ++ ident ++ " " ++ user ++ " " ++ String c stamp ++ "]" ++ rest)
    width height
  = ('(x, y) <- IPToXY arch addr width height ;;
     Ok (Pattern.MakeLife105 x y (Pattern.encode (bytes rest)), ts)).
Proof.
  intros F0 F1 F2 Fg Hdash Hblank Hparse. rewrite LineToPattern_eq.
  assert (Hfirst : firstField
                     (addr ++ " " ++ ident ++ " " ++ user ++ " "
                      ++ String c stamp ++ "]" ++ rest) = addr).
  { unfold firstField. cbn [append].
    rewrite (SplitFacts.cut_app " " addr _ F0). reflexivity. }
  rewrite Hfirst.
  rewrite (proj2 (address_test addr) (conj Hdash Hblank)).
  destruct (LineFacts.IPToXY_returns arch addr width height) as [[x y] ->].
  cbn [bind].
  change (addr ++ " " ++ ident ++ " " ++ user ++ " " ++ String c stamp ++ "]" ++ rest)
    with (addr ++ String " " (ident ++ String " " (user ++ String " "
            (String c stamp ++ String "]" rest)))).
  rewrite (SplitFacts.SplitN_4_fields " " addr ident user _ F0 F1 F2).
  unfold bracketField.
  rewrite (SplitFacts.cut_app "]" (String c stamp) rest Fg).
  cbn [append]. rewrite Hparse. reflexivity.
Qed.

End OutcomeFacts.



(* ================================================================= *)
(** ** Reading a pattern back *)

Module DocumentFacts.
Import GoString Pattern Vocabulary.

Lemma free_append (sep : ascii) (a b : string) :
  free sep (a ++ b) = free sep a && free sep b.
Proof.
  induction a as [| c a IH]; cbn [append free]; [reflexivity |].
  rewrite IH. apply andb_assoc.
Qed.

Lemma digit_free (sep c : ascii) :
  decimalChar sep = false -> decimalChar c = true -> Ascii.eqb c sep = false.
Proof.
  intros Hs Hc. destruct (Ascii.eqb_spec c sep) as [-> |]; [congruence | reflexivity].
Qed.

Lemma uint_free (sep : ascii) (d : Decimal.uint) :
  decimalChar sep = false -> free sep (NilEmpty.string_of_uint d) = true.
Proof.
  intros Hs.
  induction d; cbn [NilEmpty.string_of_uint free]; [reflexivity | ..];
    rewrite IHd, (digit_free sep _ Hs) by reflexivity; reflexivity.
Qed.

(** A number printed by [%d] holds digits and at most a sign. *)
Lemma fmt_d_free (sep : ascii) (z : Z) :
  decimalChar sep = false -> free sep (fmt_d z) = true.
Proof.
  intros Hs. unfold fmt_d.
  assert (Hu : forall d, free sep (NilZero.string_of_uint d) = true).
  { intros d. destruct d; try apply (uint_free sep _ Hs).
    cbn [NilZero.string_of_uint free].
    rewrite (digit_free sep "0" Hs) by reflexivity. reflexivity. }
  destruct (Z.to_int z) as [d | d]; cbn [NilZero.string_of_int free].
  - apply Hu.
  - rewrite Hu, (digit_free sep "-" Hs) by reflexivity. reflexivity.
Qed.

Lemma rowLoop_free (sep : ascii) (n : nat) :
  Ascii.eqb "*" sep = false -> Ascii.eqb "." sep = false ->
  forall b line, free sep line = true -> free sep (rowLoop n b line) = true.
Proof.
  intros Hstar Hdot. induction n as [| n IH]; intros b line Hl; cbn [rowLoop];
    [exact Hl |].
  apply IH. destruct (Z.land b 128 =? 128); rewrite free_append, Hl; cbn [free];
    rewrite ?Hstar, ?Hdot; reflexivity.
Qed.

(** A row holds stars and periods only, whatever the byte. *)
Lemma row_free (sep : ascii) (b : Z) :
  Ascii.eqb "*" sep = false -> Ascii.eqb "." sep = false -> free sep (row b) = true.
Proof. intros Hs Hd. apply rowLoop_free; [exact Hs | exact Hd | reflexivity]. Qed.

(** The byte of a row is the byte the row was made of. *)
Lemma rowByte_row (b : Z) : Spec.isByte b -> rowByte (row b) = Some b.
Proof.
  intros Hb.
  pose proof (RenderFacts.below_forallb 256
                (fun b => match rowByte (row b) with
                          | Some b' => b' =? b
                          | None => false
                          end)) as H.
  specialize (H ltac:(vm_compute; reflexivity) b Hb). cbv beta in H.
  destruct (rowByte (row b)) as [b' |]; [| discriminate].
  apply Z.eqb_eq in H. subst b'. reflexivity.
Qed.

Lemma traverse_rows (data : list Z) :
  Forall Spec.isByte data -> traverse rowByte (map row data) = Some data.
Proof.
  induction 1 as [| b data Hb _ IH]; cbn [map traverse]; [reflexivity |].
  rewrite (rowByte_row b Hb), IH. reflexivity.
Qed.

(** The document read back. *)
Lemma decode_MakeLife105 (x y : Z) (data : list Z) :
  Forall Spec.isByte data -> decode (MakeLife105 x y data) = Some (x, y, data).
Proof.
  intros Hd. unfold MakeLife105. cbn [app append decode].
  rewrite (SplitFacts.cut_app " " (fmt_d x) (fmt_d y))
    by (apply fmt_d_free; reflexivity).
  rewrite !RenderFacts.fmt_d_value, (traverse_rows data Hd). reflexivity.
Qed.

(** Cutting at every separator undoes the joining. *)
Lemma splitOn_free (sep : ascii) (s : string) :
  free sep s = true -> splitOn sep s = [s].
Proof.
  induction s as [| c s IH]; cbn [free splitOn]; intros H; [reflexivity |].
  apply andb_true_iff in H as [Hc Hs]. apply negb_true_iff in Hc.
  rewrite Hc, (IH Hs). reflexivity.
Qed.

Lemma splitOn_app (sep : ascii) (a b : string) :
  free sep a = true -> splitOn sep (a ++ String sep b) = a :: splitOn sep b.
Proof.
  induction a as [| c a IH]; cbn [free append splitOn]; intros H.
  - rewrite Ascii.eqb_refl. reflexivity.
  - apply andb_true_iff in H as [Hc Ha]. apply negb_true_iff in Hc.
    rewrite Hc, (IH Ha). reflexivity.
Qed.

Lemma splitOn_Join (sep : ascii) (a : list string) :
  a <> [] -> Forall (fun s => free sep s = true) a ->
  splitOn sep (Join a (str1 sep)) = a.
Proof.
  intros Hne Hall. induction Hall as [| x r Hx Hr IH]; [congruence |].
  destruct r as [| y r].
  - cbn [Join]. apply splitOn_free, Hx.
  - change (Join (x :: y :: r) (str1 sep))
      with (x ++ String sep (Join (y :: r) (str1 sep))).
    rewrite (splitOn_app sep x _ Hx), IH by discriminate. reflexivity.
Qed.

(** No line of a pattern holds a line feed. *)
Lemma MakeLife105_lines (x y : Z) (data : list Z) :
  Forall (fun s => free Wire.lf s = true) (MakeLife105 x y data).
Proof.
  unfold MakeLife105. apply Forall_app. split.
  - repeat constructor.
    cbn [append free]. rewrite !free_append. cbn [free].
    rewrite !fmt_d_free by reflexivity. reflexivity.
  - apply Forall_forall. intros r Hr. apply in_map_iff in Hr as (b & <- & _).
    apply row_free; reflexivity.
Qed.

End DocumentFacts.

(* ================================================================= *)
(** ** The trace of a run *)

Module TraceFacts.
Import Log2Life Vocabulary.
Local Open Scope list_scope.

(** The loop, one line at a time. *)
Lemma scanLoop_ok (arch : GOARCH) (send : nat -> list string -> option string)
  (c : cmdlineArgs) (speed : spec_float) (readErr : option string) (n : nat)
  (line : string) (rest : list string) (last : GoTime.t)
  (pattern : list string) (ts : GoTime.t) :
  LineToPattern arch line (Columns c) (Rows c) = Ok (pattern, ts) ->
  scanLoop arch send c speed readErr n (line :: rest) last =
  (match pacing arch last ts speed with
   | Some delay => [Delaying delay; Sleeping delay]
   | None => []
   end
   ++ [Echo pattern; Post pattern]
   ++ match send n pattern with Some e => [PostError e] | None => [] end
   ++ fst (scanLoop arch send c speed readErr (S n) rest ts),
   snd (scanLoop arch send c speed readErr (S n) rest ts)).
Proof.
  intros H. cbn [scanLoop]. rewrite H.
  destruct (scanLoop arch send c speed readErr (S n) rest ts). reflexivity.
Qed.

Lemma scanLoop_err (arch : GOARCH) (send : nat -> list string -> option string)
  (c : cmdlineArgs) (speed : spec_float) (readErr : option string) (n : nat)
  (line : string) (rest : list string) (last : GoTime.t) (e : string) :
  LineToPattern arch line (Columns c) (Rows c) = Err e ->
  scanLoop arch send c speed readErr n (line :: rest) last =
  (LogPrint e :: fst (scanLoop arch send c speed readErr (S n) rest last),
   snd (scanLoop arch send c speed readErr (S n) rest last)).
Proof.
  intros H. cbn [scanLoop]. rewrite H.
  destruct (scanLoop arch send c speed readErr (S n) rest last). reflexivity.
Qed.

Lemma scanLoop_panic (arch : GOARCH) (send : nat -> list string -> option string)
  (c : cmdlineArgs) (speed : spec_float) (readErr : option string) (n : nat)
  (line : string) (rest : list string) (last : GoTime.t) (why : string) :
  LineToPattern arch line (Columns c) (Rows c) = Panic why ->
  scanLoop arch send c speed readErr n (line :: rest) last = ([], Crash why).
Proof. intros H. cbn [scanLoop]. rewrite H. reflexivity. Qed.

Lemma posts_app (a b : list event) : posts (a ++ b) = posts a ++ posts b.
Proof. apply flat_map_app. Qed.

Lemma echoes_app (a b : list event) : echoes (a ++ b) = echoes a ++ echoes b.
Proof. apply flat_map_app. Qed.

Lemma sleeps_app (a b : list event) : sleeps (a ++ b) = sleeps a ++ sleeps b.
Proof. apply flat_map_app. Qed.

Lemma announced_app (a b : list event) :
  announced (a ++ b) = announced a ++ announced b.
Proof. apply flat_map_app. Qed.

(** What is posted, and what is echoed, is what the lines deliver. *)
Lemma scanLoop_posts (arch : GOARCH) (send : nat -> list string -> option string)
  (c : cmdlineArgs) (speed : spec_float) (readErr : option string)
  (lines : list string) :
  forall n last,
    let evs := fst (scanLoop arch send c speed readErr n lines last) in
    posts evs = map fst (delivered arch (Columns c) (Rows c) lines)
    /\ echoes evs = map fst (delivered arch (Columns c) (Rows c) lines).
Proof.
  cbv zeta. induction lines as [| line rest IH]; intros n last.
  - cbn [scanLoop delivered map]. destruct readErr; split; reflexivity.
  - cbn [delivered].
    destruct (LineToPattern arch line (Columns c) (Rows c)) as [[p ts] | e | w] eqn:E.
    + rewrite (scanLoop_ok _ _ _ _ _ _ _ _ _ _ _ E). cbn [fst map].
      destruct (IH (S n) ts) as [IHp IHe].
      rewrite !posts_app, !echoes_app, IHp, IHe.
      destruct (pacing arch last ts speed); destruct (send n p); split; reflexivity.
    + rewrite (scanLoop_err _ _ _ _ _ _ _ _ _ _ E). cbn [fst].
      destruct (IH (S n) last) as [IHp IHe].
      change (LogPrint e :: ?l) with ([LogPrint e] ++ l).
      rewrite posts_app, echoes_app, IHp, IHe. split; reflexivity.
    + rewrite (scanLoop_panic _ _ _ _ _ _ _ _ _ _ E). split; reflexivity.
Qed.

(** The answers of the network show in the [ERROR:] lines only. *)
Lemma scanLoop_transport (arch : GOARCH)
  (send1 send2 : nat -> list string -> option string)
  (c : cmdlineArgs) (speed : spec_float) (readErr : option string)
  (lines : list string) :
  forall n last,
    withoutPostErrors (fst (scanLoop arch send1 c speed readErr n lines last))
    = withoutPostErrors (fst (scanLoop arch send2 c speed readErr n lines last))
    /\ snd (scanLoop arch send1 c speed readErr n lines last)
       = snd (scanLoop arch send2 c speed readErr n lines last).
Proof.
  induction lines as [| line rest IH]; intros n last.
  - cbn [scanLoop]. split; reflexivity.
  - destruct (LineToPattern arch line (Columns c) (Rows c)) as [[p ts] | e | w] eqn:E.
    + rewrite !(scanLoop_ok _ _ _ _ _ _ _ _ _ _ _ E). cbn [fst snd].
      destruct (IH (S n) ts) as [IHe IHf]. split; [| exact IHf].
      unfold withoutPostErrors in *. rewrite !filter_app, IHe.
      destruct (send1 n p); destruct (send2 n p); reflexivity.
    + rewrite !(scanLoop_err _ _ _ _ _ _ _ _ _ _ E). cbn [fst snd].
      destruct (IH (S n) last) as [IHe IHf]. split; [| exact IHf].
      unfold withoutPostErrors in *. cbn [filter isPostError negb]. rewrite IHe.
      reflexivity.
    + rewrite !(scanLoop_panic _ _ _ _ _ _ _ _ _ _ E). split; reflexivity.
Qed.

(** A panic cuts the run short: what shows is the trace of the lines
    before it. *)
Lemma scanLoop_cut (arch : GOARCH) (send : nat -> list string -> option string)
  (c : cmdlineArgs) (speed : spec_float) (readErr : option string)
  (line : string) (after : list string) (why : string) (before : list string) :
  panicFree arch (Columns c) (Rows c) before ->
  LineToPattern arch line (Columns c) (Rows c) = Panic why ->
  forall n last,
    scanLoop arch send c speed readErr n (before ++ line :: after) last
    = (fst (scanLoop arch send c speed None n before last), Crash why).
Proof.
  intros Hfree Hline. induction Hfree as [| l before Hl _ IH]; intros n last.
  - cbn [app]. rewrite (scanLoop_panic _ _ _ _ _ _ _ _ _ _ Hline). reflexivity.
  - cbn [app].
    destruct (LineToPattern arch l (Columns c) (Rows c)) as [[p ts] | e | w] eqn:E.
    + rewrite !(scanLoop_ok _ _ _ _ _ _ _ _ _ _ _ E), IH. reflexivity.
    + rewrite !(scanLoop_err _ _ _ _ _ _ _ _ _ _ E), IH. reflexivity.
    + exfalso. exact (Hl w eq_refl).
Qed.

(** A run that ends with an exit status met no panic. *)
Lemma scanLoop_exit (arch : GOARCH) (send : nat -> list string -> option string)
  (c : cmdlineArgs) (speed : spec_float) (readErr : option string)
  (lines : list string) :
  forall n last code,
    snd (scanLoop arch send c speed readErr n lines last) = Exit code ->
    panicFree arch (Columns c) (Rows c) lines.
Proof.
  unfold panicFree. induction lines as [| line rest IH]; intros n last code H.
  - constructor.
  - destruct (LineToPattern arch line (Columns c) (Rows c)) as [[p ts] | e | w] eqn:E.
    + rewrite (scanLoop_ok _ _ _ _ _ _ _ _ _ _ _ E) in H. cbn [snd] in H.
      constructor; [intros why; rewrite E; discriminate | exact (IH _ _ _ H)].
    + rewrite (scanLoop_err _ _ _ _ _ _ _ _ _ _ E) in H. cbn [snd] in H.
      constructor; [intros why; rewrite E; discriminate | exact (IH _ _ _ H)].
    + rewrite (scanLoop_panic _ _ _ _ _ _ _ _ _ _ E) in H. discriminate.
Qed.

(** After a first accepted line every accepted line is paced: the
    delays are those between consecutive accepted instants. *)
Lemma scanLoop_sleeps (arch : GOARCH) (send : nat -> list string -> option string)
  (c : cmdlineArgs) (speed : spec_float) (readErr : option string)
  (lines : list string) :
  forall n last,
    GoTime.eqb last GoTime.zero = false ->
    let evs := fst (scanLoop arch send c speed readErr n lines last) in
    let ds := gaps (fun a b => delayOf arch a b speed) last
                (map snd (delivered arch (Columns c) (Rows c) lines)) in
    sleeps evs = ds /\ announced evs = ds.
Proof.
  cbv zeta. induction lines as [| line rest IH]; intros n last Hlast.
  - cbn [scanLoop delivered map gaps]. destruct readErr; split; reflexivity.
  - cbn [delivered].
    destruct (LineToPattern arch line (Columns c) (Rows c)) as [[p ts] | e | w] eqn:E.
    + rewrite (scanLoop_ok _ _ _ _ _ _ _ _ _ _ _ E). cbn [fst snd map gaps].
      destruct (IH (S n) ts (OutcomeFacts.LineToPattern_stamp _ _ _ _ _ _ E))
        as [IHs IHa].
      unfold pacing. rewrite Hlast.
      rewrite !sleeps_app, !announced_app, IHs, IHa.
      destruct (send n p); split; reflexivity.
    + rewrite (scanLoop_err _ _ _ _ _ _ _ _ _ _ E). cbn [fst].
      destruct (IH (S n) last Hlast) as [IHs IHa].
      change (LogPrint e :: ?l) with ([LogPrint e] ++ l).
      rewrite sleeps_app, announced_app, IHs, IHa. split; reflexivity.
    + rewrite (scanLoop_panic _ _ _ _ _ _ _ _ _ _ E). split; reflexivity.
Qed.

(** From the zero time the first accepted line is not paced. *)
Lemma scanLoop_sleeps_first (arch : GOARCH)
  (send : nat -> list string -> option string)
  (c : cmdlineArgs) (speed : spec_float) (readErr : option string)
  (lines : list string) :
  forall n,
    let evs := fst (scanLoop arch send c speed readErr n lines GoTime.zero) in
    let ds := match map snd (delivered arch (Columns c) (Rows c) lines) with
              | [] => []
              | first :: others =>
                  gaps (fun a b => delayOf arch a b speed) first others
              end in
    sleeps evs = ds /\ announced evs = ds.
Proof.
  cbv zeta. induction lines as [| line rest IH]; intros n.
  - cbn [scanLoop delivered map]. destruct readErr; split; reflexivity.
  - cbn [delivered].
    destruct (LineToPattern arch line (Columns c) (Rows c)) as [[p ts] | e | w] eqn:E.
    + rewrite (scanLoop_ok _ _ _ _ _ _ _ _ _ _ _ E). cbn [fst snd map].
      destruct (scanLoop_sleeps arch send c speed readErr rest (S n) ts
                  (OutcomeFacts.LineToPattern_stamp _ _ _ _ _ _ E)) as [IHs IHa].
      change (pacing arch GoTime.zero ts speed) with (@None Z).
      rewrite !sleeps_app, !announced_app, IHs, IHa.
      destruct (send n p); split; reflexivity.
    + rewrite (scanLoop_err _ _ _ _ _ _ _ _ _ _ E). cbn [fst].
      destruct (IH (S n)) as [IHs IHa].
      change (LogPrint e :: ?l) with ([LogPrint e] ++ l).
      rewrite sleeps_app, announced_app, IHs, IHa. split; reflexivity.
    + rewrite (scanLoop_panic _ _ _ _ _ _ _ _ _ _ E). split; reflexivity.
Qed.

(** The order of a run: for each accepted record the delay announced,
    then slept, then the pattern echoed, then posted. *)
Lemma scanLoop_paced (arch : GOARCH) (send : nat -> list string -> option string)
  (c : cmdlineArgs) (speed : spec_float) (readErr : option string)
  (lines : list string) :
  forall n last,
    withoutReports (fst (scanLoop arch send c speed readErr n lines last))
    = paced (fun a b => delayOf arch a b speed)
        (if GoTime.eqb last GoTime.zero then None else Some last)
        (delivered arch (Columns c) (Rows c) lines).
Proof.
  unfold withoutReports.
  induction lines as [| line rest IH]; intros n last.
  - cbn [scanLoop delivered paced]. destruct readErr; reflexivity.
  - cbn [delivered].
    destruct (LineToPattern arch line (Columns c) (Rows c)) as [[p ts] | e | w] eqn:E.
    + rewrite (scanLoop_ok _ _ _ _ _ _ _ _ _ _ _ E). cbn [fst paced].
      rewrite !filter_app, (IH (S n) ts).
      rewrite (OutcomeFacts.LineToPattern_stamp _ _ _ _ _ _ E).
      unfold pacing.
      destruct (GoTime.eqb last GoTime.zero); destruct (send n p); reflexivity.
    + rewrite (scanLoop_err _ _ _ _ _ _ _ _ _ _ E). cbn [fst filter isReport negb].
      apply IH.
    + rewrite (scanLoop_panic _ _ _ _ _ _ _ _ _ _ E). reflexivity.
Qed.

Lemma gaps_length (delay : GoTime.t -> GoTime.t -> Z) (stamps : list GoTime.t) :
  forall last, List.length (gaps delay last stamps) = List.length stamps.
Proof.
  induction stamps as [| s r IH]; intros last; cbn [gaps List.length];
    [reflexivity | rewrite IH; reflexivity].
Qed.

End TraceFacts.

(* ================================================================= *)
(** ** The earlier revision *)

Module EarlierFacts.
Import GoString Vocabulary.
Local Open Scope list_scope.

Lemma earlier_eq (arch : Float64.GOARCH) (line : string) (width height : Z) :
  Earlier.LineToPattern arch line width height =
  if String.eqb (firstField line) "-" || String.eqb (TrimSpace (firstField line)) ""
  then Err "No client IP address"
  else
    '(x, y) <- Log2Life.IPToXY arch (firstField line) width height ;;
    match SplitN line " " 4 with
    | [_; _; _; f3] =>
        match cut "]" f3 with
        | Some (_, rest) => Ok (Pattern.MakeLife105 x y (Pattern.encode (bytes rest)))
        | None => Panic "index out of range"
        end
    | _ => Panic "index out of range"
    end.
Proof.
  unfold Earlier.LineToPattern.
  destruct (SplitFacts.SplitN_4_head line) as (more & -> & Hlen).
  cbn [field nth_error bind].
  destruct (_ || _); [reflexivity |].
  destruct (LineFacts.IPToXY_returns arch (firstField line) width height) as [[x y] ->].
  cbn [bind].
  destruct more as [| f1 [| f2 [| f3 [| f4 more]]]]; try reflexivity;
    [| simpl in Hlen; lia].
  cbn [field nth_error bind]. rewrite SplitFacts.SplitN_2.
  destruct (cut "]" f3) as [[g0 g1] |]; reflexivity.
Qed.

(** Where the later revision accepts, the earlier one accepts with the
    same pattern; where the later one misses the address, so does the
    earlier one. *)
Lemma later_ok (arch : Float64.GOARCH) (line : string) (width height : Z)
  (pattern : list string) (ts : GoTime.t) :
  Log2Life.LineToPattern arch line width height = Ok (pattern, ts) ->
  Earlier.LineToPattern arch line width height = Ok pattern.
Proof.
  rewrite OutcomeFacts.LineToPattern_eq, earlier_eq.
  destruct (_ || _); [discriminate |].
  destruct (Log2Life.IPToXY arch (firstField line) width height) as [[x y] | e | w];
    cbn [bind]; try discriminate.
  destruct (SplitN line " " 4) as [| f0 [| f1 [| f2 [| f3 [| f4 l]]]]];
    try discriminate.
  unfold bracketField. destruct f3 as [| c r]; [discriminate |].
  destruct (cut "]" (String c r)) as [[[| c' stamp] g1] |]; try discriminate.
  - destruct (GoTime.Parse stamp); try discriminate. intros H. injection H as <- _.
    reflexivity.
  - destruct (GoTime.Parse r); discriminate.
Qed.

Lemma earlier_err (arch : Float64.GOARCH) (line : string) (width height : Z)
  (e : string) :
  Earlier.LineToPattern arch line width height = Err e <->
  e = "No client IP address"
  /\ Log2Life.LineToPattern arch line width height = Err e.
Proof.
  rewrite OutcomeFacts.LineToPattern_eq, earlier_eq.
  destruct (_ || _).
  - split; [intros H; injection H as <-; auto | intros [-> _]; reflexivity].
  - destruct (LineFacts.IPToXY_returns arch (firstField line) width height)
      as [[x y] ->]. cbn [bind].
    split.
    + intros H.
      destruct (SplitN line " " 4) as [| f0 [| f1 [| f2 [| f3 [| f4 l]]]]];
        try discriminate.
      destruct (cut "]" f3) as [[g0 g1] |]; discriminate.
    + intros [-> H]. exfalso.
      destruct (SplitN line " " 4) as [| f0 [| f1 [| f2 [| f3 [| f4 l]]]]];
        try discriminate.
      unfold bracketField in H. destruct f3 as [| c r]; [discriminate |].
      destruct (cut "]" (String c r)) as [[[| c' stamp] g1] |]; try discriminate.
      * destruct (GoTime.Parse stamp) eqn:Hp; try discriminate.
        injection H as ->. apply StampFacts.Parse_error in Hp. discriminate Hp.
      * destruct (GoTime.Parse r) eqn:Hp; try discriminate.
        injection H as ->. apply StampFacts.Parse_error in Hp. discriminate Hp.
Qed.

Lemma scanLoop_agree (arch : Float64.GOARCH)
  (send : nat -> list string -> option string)
  (c : Log2Life.cmdlineArgs) (c' : Earlier.cmdlineArgs) (speed : spec_float)
  (readErr : option string) (lines : list string) :
  Earlier.Width c' = Log2Life.Columns c -> Earlier.Height c' = Log2Life.Rows c ->
  Forall (timely arch (Log2Life.Columns c) (Log2Life.Rows c)) lines ->
  forall n last,
    withoutPacing (fst (Log2Life.scanLoop arch send c speed readErr n lines last))
    = fst (Earlier.scanLoop arch send c' readErr n lines)
    /\ snd (Log2Life.scanLoop arch send c speed readErr n lines last)
       = snd (Earlier.scanLoop arch send c' readErr n lines).
Proof.
  intros Hw Hh Hall. induction Hall as [| line rest Hline _ IH]; intros n last.
  - cbn [Log2Life.scanLoop Earlier.scanLoop]. destruct readErr; split; reflexivity.
  - cbn [Earlier.scanLoop]. rewrite Hw, Hh.
    destruct Hline as [(p & ts & E) | E].
    + rewrite (TraceFacts.scanLoop_ok _ _ _ _ _ _ _ _ _ _ _ E).
      rewrite (later_ok _ _ _ _ _ _ E). cbn [fst snd].
      destruct (IH (S n) ts) as [IHe IHf].
      destruct (Earlier.scanLoop arch send c' readErr (S n) rest) as [evs fin].
      cbn [fst snd] in *. split; [| exact IHf].
      unfold withoutPacing in *. rewrite !filter_app, IHe.
      destruct (Log2Life.pacing arch last ts speed); destruct (send n p); reflexivity.
    + rewrite (TraceFacts.scanLoop_err _ _ _ _ _ _ _ _ _ _ E).
      rewrite (proj2 (earlier_err _ _ _ _ _) (conj eq_refl E)). cbn [fst snd].
      destruct (IH (S n) last) as [IHe IHf].
      destruct (Earlier.scanLoop arch send c' readErr (S n) rest) as [evs fin].
      cbn [fst snd] in *. split; [| exact IHf].
      unfold withoutPacing in *. cbn [filter isPacing negb]. rewrite IHe. reflexivity.
Qed.

End EarlierFacts.

(* ================================================================= *)
(** ** The ends of the coordinate range, and the two targets *)

Module EdgeFacts.
Import GoString Log2Life.

(** An address whose two bytes are zero sits at the low end. *)
Lemma scale_zero (arch : GOARCH) (size : Z) :
  0 < size <= Int64.max_int -> scale arch 0 0 size = - Z.quot size 2.
Proof.
  intros Hsize. unfold scale.
  change (Float64.div (Float64.of_int (Z.shiftl 0 8 + 0)) (Float64.of_int 65535))
    with (S754_zero false).
  destruct (FloatFacts.of_int_upper size Hsize) as (m & e & -> & _).
  change (Float64.mul (S754_zero false) (S754_finite false m e)) with (S754_zero false).
  cbn [to_int64].
  assert (Hq : 0 <= Z.quot size 2 <= size).
  { rewrite Z.quot_div_nonneg by lia. split; [apply Z.div_pos; lia |].
    apply Z.div_le_upper_bound; lia. }
  apply PacingFacts.wrap_in_range.
  unfold Int64.min_int, Int64.max_int in *. lia.
Qed.

(** A conversion that gives a value from 0 on is the same on both
    targets. *)
Lemma to_int64_arch (arch : GOARCH) (f : spec_float) :
  0 <= to_int64 amd64 f -> to_int64 arch f = to_int64 amd64 f.
Proof.
  assert (Hmin : ~ 0 <= Int64.min_int) by (unfold Int64.min_int; lia).
  destruct f as [s | s | | s m e]; cbn [to_int64 to_int64_invalid]; intros H;
    try reflexivity; try (exfalso; exact (Hmin H)).
  destruct (Int64.in_range _); [reflexivity | exfalso; exact (Hmin H)].
Qed.

Lemma scale_arch (arch : GOARCH) (hi lo size : Z) :
  Spec.isByte hi -> Spec.isByte lo -> 0 < size <= 2 ^ 53 ->
  scale arch hi lo size = scale amd64 hi lo size.
Proof.
  intros Hhi Hlo Hsize.
  assert (Hmax : 0 < size <= Int64.max_int).
  { unfold Int64.max_int. change (2 ^ 53) with 9007199254740992 in Hsize.
    change (2 ^ 63 - 1) with 9223372036854775807. lia. }
  destruct (Z.eq_dec hi 255) as [-> | Nhi];
    [destruct (Z.eq_dec lo 255) as [-> | Nlo] |].
  - rewrite !CoordinateFacts.scale_at_edge by exact Hsize. reflexivity.
  - unfold scale. rewrite to_int64_arch; [reflexivity |].
    apply FloatFacts.scaled_below; [| exact Hmax].
    apply CoordinateFacts.word_of_bytes; [exact Hhi | exact Hlo | lia].
  - unfold scale. rewrite to_int64_arch; [reflexivity |].
    apply FloatFacts.scaled_below; [| exact Hmax].
    apply CoordinateFacts.word_of_bytes; [exact Hhi | exact Hlo | lia].
Qed.

(** Every coordinate lies between the two ends. *)
Lemma scale_closed (arch : GOARCH) (hi lo size : Z) :
  Spec.isByte hi -> Spec.isByte lo -> 0 < size <= 2 ^ 53 ->
  - Z.quot size 2 <= scale arch hi lo size <= size - Z.quot size 2.
Proof.
  intros Hhi Hlo Hsize.
  assert (Hmax : 0 < size <= Int64.max_int).
  { unfold Int64.max_int. change (2 ^ 53) with 9007199254740992 in Hsize.
    change (2 ^ 63 - 1) with 9223372036854775807. lia. }
  assert (Hq : 0 <= Z.quot size 2 <= size).
  { rewrite Z.quot_div_nonneg by lia. split; [apply Z.div_pos; lia |].
    apply Z.div_le_upper_bound; lia. }
  destruct (Z.eq_dec hi 255) as [-> | Nhi];
    [destruct (Z.eq_dec lo 255) as [-> | Nlo] |].
  - rewrite CoordinateFacts.scale_at_edge by exact Hsize. lia.
  - pose proof (CoordinateFacts.scale_in_world arch 255 lo size Hhi Hlo
                  ltac:(lia) Hmax). lia.
  - pose proof (CoordinateFacts.scale_in_world arch hi lo size Hhi Hlo
                  ltac:(lia) Hmax). lia.
Qed.

Lemma byte_of_inj (c : ascii) (b : Z) :
  byte_of c = b -> c = ascii_of_N (Z.to_N b).
Proof.
  unfold byte_of. intros <-. rewrite N2Z.id, ascii_N_embedding. reflexivity.
Qed.

(** A text without dot and without colon is no address. *)
Lemma firstSep_none (addr : string) :
  Vocabulary.free "." addr = true -> Vocabulary.free ":" addr = true ->
  GoNet.firstSep (bytes addr) = None.
Proof.
  induction addr as [| c addr IH]; cbn [Vocabulary.free]; intros Hd Hc;
    [reflexivity |].
  apply andb_true_iff in Hd as [Hd Hd']. apply andb_true_iff in Hc as [Hc Hc'].
  apply negb_true_iff in Hd, Hc.
  unfold bytes. cbn [list_ascii_of_string map GoNet.firstSep].
  fold (bytes addr). rewrite (IH Hd' Hc').
  destruct (byte_of c =? 46) eqn:E46.
  { apply Z.eqb_eq, byte_of_inj in E46. subst c. discriminate Hd. }
  destruct (byte_of c =? 58) eqn:E58.
  { apply Z.eqb_eq, byte_of_inj in E58. subst c. discriminate Hc. }
  reflexivity.
Qed.

(** An odd size: on a world 255 cells wide, the size the README
    suggests, the dotted address 255.0.0.0 gets x = 127, which is
    255/2 cut towards zero. The centred range of an odd size is
    symmetric. *)
Lemma IPToXY_odd_width_reaches_half :
  GoNet.ParseIP "255.0.0.0"
  = Some [0; 0; 0; 0; 0; 0; 0; 0; 0; 0; 255; 255; 255; 0; 0; 0]
  /\ Log2Life.IPToXY Float64.amd64 "255.0.0.0" 255 255 = Ok (127, -127)
  /\ ~ (- Z.quot 255 2 <= 127 < Z.quot 255 2).
Proof.
  split; [reflexivity |].
  split; [vm_compute; reflexivity |].
  vm_compute. intros [_ H]. discriminate H.
Qed.

End EdgeFacts.

(* ================================================================= *)
(** ** The fold over concatenated and short payloads *)

Module LinearFacts.
Import GoString Pattern Spec Vocabulary.
Local Open Scope list_scope.

(** Where the index stands after a payload. *)
Lemma fold_index (p : list Z) :
  forall data idx,
    0 <= idx < 8 ->
    snd (fold_left xorStep p (data, idx))
    = (idx + Z.of_nat (List.length (withoutQuotes p))) mod 8.
Proof.
  induction p as [| b p IH]; intros data idx Hidx; cbn [fold_left].
  - cbn [withoutQuotes filter List.length snd]. rewrite Z.add_0_r, Z.mod_small; lia.
  - unfold withoutQuotes. cbn [filter]. fold (withoutQuotes p).
    destruct (Z.eqb_spec b 34) as [-> | Hb]; cbn [negb].
    + rewrite FoldFacts.xorStep_quote. apply IH, Hidx.
    + rewrite FoldFacts.xorStep_other by exact Hb.
      rewrite IH by (apply Z.mod_pos_bound; lia).
      cbn [List.length]. rewrite Nat2Z.inj_succ, Zplus_mod_idemp_l.
      f_equal. lia.
Qed.

(** The fold from any eight bytes is the XOR of those bytes and the
    fold from zero. *)
Lemma fold_from (p : list Z) (data : list Z) :
  List.length data = 8%nat ->
  fst (fold_left xorStep p (data, 0)) = xorBytes data (encode p).
Proof.
  intros Hlen. unfold encode, xorInit.
  rewrite (FoldFacts.fold_withoutQuotes p (data, 0)).
  rewrite (FoldFacts.fold_withoutQuotes p (repeat 0 8, 0)).
  pose proof (FoldFacts.fold_lanes (withoutQuotes p) (FoldFacts.withoutQuotes_Forall p) data 0%nat Hlen) as H1.
  pose proof (FoldFacts.fold_lanes (withoutQuotes p) (FoldFacts.withoutQuotes_Forall p) (repeat 0 8) 0%nat eq_refl) as H2.
  change (Z.of_nat 0 mod 8) with 0 in H1, H2. rewrite H1, H2.
  destruct (FoldFacts.length8 data Hlen)
    as (d0 & d1 & d2 & d3 & d4 & d5 & d6 & d7 & ->).
  unfold lanes. cbn [map xorBytes].
  repeat (apply (f_equal2 cons)); reflexivity.
Qed.

(** The fold of two payloads, the first a whole number of turns of the
    index. *)
Lemma encode_app (p q : list Z) :
  Z.of_nat (List.length (withoutQuotes p)) mod 8 = 0 ->
  encode (p ++ q) = xorBytes (encode p) (encode q).
Proof.
  intros Hal. unfold encode at 1. rewrite fold_left_app.
  destruct (fold_left xorStep p xorInit) as [data idx] eqn:E.
  assert (Hd : data = encode p) by (unfold encode; rewrite E; reflexivity).
  assert (Hi : idx = 0).
  { pose proof (fold_index p (repeat 0 8) 0 ltac:(lia)) as H.
    fold xorInit in H. rewrite E in H. cbn [snd] in H. rewrite H, Z.add_0_l. exact Hal. }
  subst idx. rewrite fold_from; [rewrite Hd; reflexivity |].
  rewrite Hd. apply FoldFacts.encode_length.
Qed.

Lemma xorBytes_self (a : list Z) : xorBytes a a = repeat 0 (List.length a).
Proof.
  induction a as [| x a IH]; cbn [xorBytes List.length repeat]; [reflexivity |].
  rewrite Z.lxor_nilpotent, IH. reflexivity.
Qed.

(** The first eight bytes fill the array in order. *)
Lemma fold_fill (q : list Z) :
  Forall (fun b => b <> 34) q ->
  forall pre idx,
    (List.length pre + List.length q <= 8)%nat ->
    (q <> [] -> idx = Z.of_nat (List.length pre)) ->
    fst (fold_left xorStep q (pre ++ repeat 0 (8 - List.length pre), idx))
    = pre ++ q ++ repeat 0 (8 - List.length pre - List.length q).
Proof.
  induction 1 as [| b q Hb _ IH]; intros pre idx Hlen Hidx.
  - cbn [fold_left fst app List.length]. rewrite Nat.sub_0_r. reflexivity.
  - cbn [List.length] in Hlen. rewrite (Hidx ltac:(discriminate)).
    cbn [fold_left]. rewrite FoldFacts.xorStep_other by exact Hb.
    replace (8 - List.length pre)%nat with (S (7 - List.length pre)) by lia.
    cbn [repeat]. unfold set, get. rewrite Nat2Z.id.
    rewrite ParseFacts.set_nat_app, nth_middle, Z.lxor_0_l.
    replace (pre ++ b :: repeat 0 (7 - List.length pre))
      with ((pre ++ [b]) ++ repeat 0 (8 - List.length (pre ++ [b]))).
    2:{ rewrite <- app_assoc, length_app. cbn [app List.length].
        do 3 f_equal. lia. }
    rewrite IH.
    + rewrite <- app_assoc, length_app. cbn [app List.length].
      do 4 apply f_equal. lia.
    + rewrite length_app. cbn [List.length]. lia.
    + intros Hq. rewrite length_app. cbn [List.length].
      destruct q as [| b' q]; [congruence |]. cbn [List.length] in Hlen.
      rewrite Z.mod_small; lia.
Qed.

End LinearFacts.

(* ================================================================= *)
(** ** Pacing backwards and beyond the range of a Duration *)

Module BackwardFacts.
Import GoString Log2Life.

Lemma binary_round_aux_sign (mx ex : Z) (lx : location) (m : positive) (e : Z) :
  binary_round_aux prec emax false mx ex lx = S754_finite false m e ->
  binary_round_aux prec emax true mx ex lx = S754_finite true m e.
Proof.
  unfold binary_round_aux.
  destruct (shr_fexp prec emax mx ex lx) as [mrs' e'].
  destruct (shr_fexp prec emax _ e' loc_Exact) as [mrs'' e''].
  destruct (shr_m mrs''); try discriminate.
  destruct (e'' <=? emax - prec); try discriminate.
  intros H. injection H as <- <-. reflexivity.
Qed.

Lemma of_int_neg (p m : positive) (e : Z) :
  Float64.of_int (Z.pos p) = S754_finite false m e ->
  Float64.of_int (Z.neg p) = S754_finite true m e.
Proof.
  unfold Float64.of_int, binary_normalize, binary_round.
  destruct (shl_align p 0 (fexp prec emax (Z.pos (digits2_pos p) + 0))) as [mz ez].
  apply binary_round_aux_sign.
Qed.

Lemma to_int64_neg (arch : GOARCH) (m : positive) (e n : Z) :
  0 <= n -> to_int64 amd64 (S754_finite false m e) = n ->
  to_int64 arch (S754_finite true m e) = - n.
Proof.
  unfold to_int64. intros Hn H.
  destruct (Int64.in_range (trunc_mag m e)) eqn:R.
  - subst n. replace (Int64.in_range (- trunc_mag m e)) with true; [reflexivity |].
    symmetry. unfold Int64.in_range, Int64.min_int, Int64.max_int in *.
    apply andb_true_iff in R as [R1 R2]. apply Z.leb_le in R1, R2.
    apply andb_true_iff. split; apply Z.leb_le; lia.
  - cbn [to_int64_invalid] in H. unfold Int64.min_int in H. lia.
Qed.

Lemma scaled_gap_neg (arch : GOARCH) (us : Z) :
  0 <= us < 2 ^ 54 -> (2 ^ 53 <= us -> Z.even us = true) ->
  to_int64 arch
    (Float64.div (Float64.mul (Float64.of_int (- us)) Float64.one) Float64.one)
  = - us.
Proof.
  intros Hus Heven.
  destruct (Z.eq_dec us 0) as [-> | Hnz]; [reflexivity |].
  destruct (FloatFacts.of_int_exact us) as (m & e & Hf & Hd & He & Hv);
    [lia | exact Heven |].
  destruct us as [| p | p]; try lia.
  change (- Z.pos p) with (Z.neg p). rewrite (of_int_neg p m e Hf).
  rewrite FloatFacts.mul_one by (assumption || lia).
  rewrite FloatFacts.div_one by (assumption || lia).
  apply (to_int64_neg arch m e (Z.pos p)); [lia |].
  apply (FloatFacts.to_int64_scaled amd64 m e (Z.pos p) 52); try lia.
  unfold Int64.max_int.
  assert (2 ^ 54 <= 2 ^ 63 - 1) by (vm_compute; discriminate). lia.
Qed.

Lemma Sub_backwards (lastTime timestamp : GoTime.t) :
  GoTime.nsec lastTime = 0 -> GoTime.nsec timestamp = 0 ->
  GoTime.unix timestamp <= GoTime.unix lastTime ->
  Int64.min_int <= (GoTime.unix timestamp - GoTime.unix lastTime) * GoTime.Second ->
  GoTime.Sub timestamp lastTime
  = (GoTime.unix timestamp - GoTime.unix lastTime) * GoTime.Second.
Proof.
  intros H1 H2 Hle Hfit. unfold GoTime.Sub. rewrite H1, H2.
  unfold GoTime.Second, Int64.min_int, Int64.max_int in *.
  replace ((GoTime.unix timestamp - GoTime.unix lastTime) * 1000000000 + (0 - 0))
    with ((GoTime.unix timestamp - GoTime.unix lastTime) * 1000000000) by lia.
  destruct (Z.ltb_spec ((GoTime.unix timestamp - GoTime.unix lastTime) * 1000000000)
              (- 2 ^ 63)); [lia |].
  destruct (Z.ltb_spec (2 ^ 63 - 1)
              ((GoTime.unix timestamp - GoTime.unix lastTime) * 1000000000)); [lia |].
  reflexivity.
Qed.

Lemma delayOf_backwards (arch : GOARCH) (lastTime timestamp : GoTime.t) :
  GoTime.nsec lastTime = 0 -> GoTime.nsec timestamp = 0 ->
  GoTime.unix timestamp <= GoTime.unix lastTime ->
  Int64.min_int <= (GoTime.unix timestamp - GoTime.unix lastTime) * GoTime.Second ->
  delayOf arch lastTime timestamp Float64.one
  = (GoTime.unix timestamp - GoTime.unix lastTime) * GoTime.Second.
Proof.
  intros H1 H2 Hle Hfit. unfold delayOf.
  rewrite (Sub_backwards lastTime timestamp H1 H2 Hle Hfit).
  set (back := GoTime.unix lastTime - GoTime.unix timestamp).
  assert (Hback : 0 <= back) by (unfold back; lia).
  replace (GoTime.unix timestamp - GoTime.unix lastTime) with (- back)
    in * by (unfold back; lia).
  unfold GoTime.Second, GoTime.Microsecond, GoTime.Microseconds, Int64.min_int in *.
  change (- 2 ^ 63) with (-9223372036854775808) in Hfit.
  assert (Hus : Z.quot (- back * 1000000000) 1000 = - (back * 1000000)).
  { replace (- back * 1000000000) with (- (back * 1000000000)) by lia.
    rewrite Z.quot_opp_l by lia. f_equal.
    rewrite Z.quot_div_nonneg by lia.
    replace (back * 1000000000) with (back * 1000000 * 1000) by lia.
    apply Z.div_mul. lia. }
  rewrite Hus.
  assert (Hev : Z.even (back * 1000000) = true)
    by (rewrite Z.even_mul; apply orb_true_r).
  assert (Hb : 0 <= back * 1000000 < 2 ^ 54).
  { change (2 ^ 54) with 18014398509481984. lia. }
  rewrite (scaled_gap_neg arch (back * 1000000) Hb (fun _ => Hev)).
  rewrite PacingFacts.wrap_in_range by (unfold Int64.min_int, Int64.max_int; lia).
  lia.
Qed.

(** A gap no [Duration] holds. *)
Lemma delayOf_saturated (arch : GOARCH) (lastTime timestamp : GoTime.t) :
  Int64.max_int < (GoTime.unix timestamp - GoTime.unix lastTime) * GoTime.Second
                  + (GoTime.nsec timestamp - GoTime.nsec lastTime) ->
  GoTime.Sub timestamp lastTime = Int64.max_int
  /\ delayOf arch lastTime timestamp Float64.one = -9223372036854775616.
Proof.
  intros H.
  assert (E : GoTime.Sub timestamp lastTime = Int64.max_int).
  { unfold GoTime.Sub.
    destruct (Z.ltb_spec ((GoTime.unix timestamp - GoTime.unix lastTime) * GoTime.Second
                          + (GoTime.nsec timestamp - GoTime.nsec lastTime))
                Int64.min_int) as [L | L].
    - unfold Int64.min_int, Int64.max_int in *. lia.
    - destruct (Z.ltb_spec Int64.max_int
                  ((GoTime.unix timestamp - GoTime.unix lastTime) * GoTime.Second
                   + (GoTime.nsec timestamp - GoTime.nsec lastTime))); [reflexivity | lia]. }
  split; [exact E |]. unfold delayOf. rewrite E. destruct arch; vm_compute; reflexivity.
Qed.

Lemma delayOf_saturated_back (arch : GOARCH) (lastTime timestamp : GoTime.t) :
  (GoTime.unix timestamp - GoTime.unix lastTime) * GoTime.Second
  + (GoTime.nsec timestamp - GoTime.nsec lastTime) <= Int64.min_int ->
  GoTime.Sub timestamp lastTime = Int64.min_int
  /\ delayOf arch lastTime timestamp Float64.one = 9223372036854775616.
Proof.
  intros H.
  assert (E : GoTime.Sub timestamp lastTime = Int64.min_int).
  { unfold GoTime.Sub.
    destruct (Z.ltb_spec ((GoTime.unix timestamp - GoTime.unix lastTime) * GoTime.Second
                          + (GoTime.nsec timestamp - GoTime.nsec lastTime))
                Int64.min_int) as [L | L]; [reflexivity |].
    destruct (Z.ltb_spec Int64.max_int
                ((GoTime.unix timestamp - GoTime.unix lastTime) * GoTime.Second
                 + (GoTime.nsec timestamp - GoTime.nsec lastTime))) as [G | G].
    - unfold Int64.min_int, Int64.max_int in *. lia.
    - lia. }
  split; [exact E |]. unfold delayOf. rewrite E. destruct arch; vm_compute; reflexivity.
Qed.

End BackwardFacts.

(* ================================================================= *)
(** ** Timestamps written and read *)

Module CalendarFacts.
Import GoString GoTime Vocabulary.
Local Open Scope list_scope.

Lemma digit_test (b : Z) : digit b -> (48 <=? b) && (b <=? 57) = true.
Proof.
  intros [H1 H2]. apply andb_true_iff. split; apply Z.leb_le; assumption.
Qed.

(** The readers of [Parse] on digits. *)
Lemma getnum_digits (b1 b2 : Z) (rest : list Z) (fixed : bool) :
  digit b1 -> digit b2 ->
  getnum (b1 :: b2 :: rest) fixed = Ok ((b1 - 48) * 10 + (b2 - 48), rest).
Proof.
  intros H1 H2. unfold getnum, isDigit. cbn [nth_error nth skipn].
  rewrite !digit_test by assumption. reflexivity.
Qed.

Lemma atoi_digits (ds : list Z) :
  Forall digit ds -> ds <> [] -> atoi ds = Ok (digitsValue ds).
Proof.
  intros Hd Hne. unfold atoi. destruct ds as [| b r]; [congruence |].
  pose proof (Forall_inv Hd) as [Hb1 Hb2].
  replace ((b =? 45) || (b =? 43)) with false
    by (symmetry; apply orb_false_iff; split; apply Z.eqb_neq; lia).
  replace (allDigits (b :: r)) with true; [reflexivity |].
  symmetry. unfold allDigits. apply forallb_forall. intros x Hx.
  apply digit_test. rewrite Forall_forall in Hd. apply Hd, Hx.
Qed.

Lemma getyear_digits (b0 b1 b2 b3 : Z) (rest : list Z) :
  digit b0 -> digit b1 -> digit b2 -> digit b3 ->
  getyear (b0 :: b1 :: b2 :: b3 :: rest)
  = Ok ((((b0 - 48) * 10 + (b1 - 48)) * 10 + (b2 - 48)) * 10 + (b3 - 48), rest).
Proof.
  intros H0 H1 H2 H3. unfold getyear, isDigit.
  cbn [List.length Nat.ltb Nat.leb nth_error firstn skipn].
  rewrite digit_test by assumption. cbn [negb orb].
  rewrite atoi_digits by (discriminate || (repeat (apply Forall_cons; [assumption |]); apply Forall_nil)).
  cbn [bind digitsValue fold_left]. repeat f_equal.
Qed.

Lemma getzone_digits (sign h1 h2 m1 m2 : Z) :
  digit h1 -> digit h2 -> digit m1 -> digit m2 -> sign = 43 \/ sign = 45 ->
  getzone [sign; h1; h2; m1; m2]
  = Ok ((if sign =? 43 then 1 else -1)
        * ((((h1 - 48) * 10 + (h2 - 48)) * 60 + ((m1 - 48) * 10 + (m2 - 48))) * 60), []).
Proof.
  intros H1 H2 H3 H4 Hs. unfold getzone.
  cbn [List.length Nat.ltb Nat.leb firstn skipn nth].
  rewrite !atoi_digits by (discriminate || (repeat (apply Forall_cons; [assumption |]); apply Forall_nil)).
  cbn [bind digitsValue fold_left].
  destruct Hs as [-> | ->]; cbn [Z.eqb Pos.eqb]; f_equal; f_equal; lia.
Qed.

(** The month names are told apart by [lookup]. *)
Lemma lookup_month (month : nat) (rest : list Z) :
  (month < 12)%nat ->
  lookup shortMonthNames 0 (bytes (nth month shortMonthNames "") ++ rest)
  = Ok (Z.of_nat month, rest).
Proof.
  intros H.
  do 12 (destruct month as [| month]; [vm_compute; reflexivity |]).
  lia.
Qed.

Lemma two_digits (n : Z) :
  0 <= n < 100 ->
  exists b1 b2, two n = [b1; b2] /\ digit b1 /\ digit b2
                /\ (b1 - 48) * 10 + (b2 - 48) = n.
Proof.
  intros Hn. exists (48 + n / 10), (48 + n mod 10).
  pose proof (Z.div_mod n 10 ltac:(lia)). pose proof (Z.mod_pos_bound n 10 ltac:(lia)).
  assert (0 <= n / 10 < 10)
    by (split; [apply Z.div_pos; lia | apply Z.div_lt_upper_bound; lia]).
  unfold digit. repeat split; try lia.
Qed.

Lemma four_digits (n : Z) :
  0 <= n < 10000 ->
  exists b0 b1 b2 b3,
    four n = [b0; b1; b2; b3] /\ digit b0 /\ digit b1 /\ digit b2 /\ digit b3
    /\ (((b0 - 48) * 10 + (b1 - 48)) * 10 + (b2 - 48)) * 10 + (b3 - 48) = n.
Proof.
  intros Hn.
  exists (48 + n / 1000), (48 + n / 100 mod 10), (48 + n / 10 mod 10), (48 + n mod 10).
  pose proof (Z.div_mod n 10 ltac:(lia)). pose proof (Z.mod_pos_bound n 10 ltac:(lia)).
  pose proof (Z.div_mod (n / 10) 10 ltac:(lia)).
  pose proof (Z.mod_pos_bound (n / 10) 10 ltac:(lia)).
  pose proof (Z.div_mod (n / 100) 10 ltac:(lia)).
  pose proof (Z.mod_pos_bound (n / 100) 10 ltac:(lia)).
  assert (E1 : n / 10 / 10 = n / 100) by (rewrite Z.div_div by lia; reflexivity).
  assert (E2 : n / 100 / 10 = n / 1000) by (rewrite Z.div_div by lia; reflexivity).
  rewrite E1 in *. rewrite E2 in *.
  assert (0 <= n / 1000 < 10)
    by (split; [apply Z.div_pos; lia | apply Z.div_lt_upper_bound; lia]).
  unfold digit. repeat split; try lia.
Qed.

(** What [Parse] makes of an instant written in the layout, the
    numbers of the clock and the day being any two digits. *)
Lemma Parse_stampText (day : Z) (month : nat) (year hour min sec : Z)
  (east : bool) (zh zm : Z) :
  (month < 12)%nat -> 0 <= day < 100 -> 0 <= year < 10000 ->
  0 <= hour < 100 -> 0 <= min < 100 -> 0 <= sec < 100 ->
  0 <= zh < 100 -> 0 <= zm < 100 ->
  Parse (stampText day month year hour min sec east zh zm)
  = if 24 <=? hour then Err (rangeErr "hour")
    else if 60 <=? min then Err (rangeErr "minute")
    else if 60 <=? sec then Err (rangeErr "second")
    else if (day <? 1) || (daysIn (Z.of_nat month + 1) year <? day)
         then Err (rangeErr "day")
    else Ok (Date year (Z.of_nat month + 1) day hour min sec 0
               (zoneSeconds east zh zm)).
Proof.
  intros Hmonth Hday Hyear Hhour Hmin Hsec Hzh Hzm.
  destruct (two_digits day Hday) as (d1 & d2 & Ed & Hd1 & Hd2 & Vd).
  destruct (four_digits year Hyear)
    as (y0 & y1 & y2 & y3 & Ey & Hy0 & Hy1 & Hy2 & Hy3 & Vy).
  destruct (two_digits hour Hhour) as (h1 & h2 & Eh & Hh1 & Hh2 & Vh).
  destruct (two_digits min Hmin) as (m1 & m2 & Em & Hm1 & Hm2 & Vm).
  destruct (two_digits sec Hsec) as (s1 & s2 & Es & Hs1 & Hs2 & Vs).
  destruct (two_digits zh Hzh) as (a1 & a2 & Ea & Ha1 & Ha2 & Va).
  destruct (two_digits zm Hzm) as (c1 & c2 & Ec & Hc1 & Hc2 & Vc).
  unfold Parse, stampText. rewrite Ed, Ey, Eh, Em, Es, Ea, Ec.
  rewrite ParseFacts.bytes_ofBytes.
  2:{ unfold digit in *. cbn [app].
      repeat (apply Forall_cons; [unfold Spec.isByte; lia |]).
      apply Forall_app. split; [apply OutcomeFacts.bytes_isByte |].
      repeat (apply Forall_cons; [unfold Spec.isByte; try destruct east; lia |]).
      apply Forall_nil. }
  cbn [app].
  rewrite getnum_digits by assumption. cbn [bind skipByte Z.eqb Pos.eqb].
  rewrite lookup_month by exact Hmonth. cbn [bind skipByte Z.eqb Pos.eqb].
  rewrite getyear_digits by assumption. cbn [bind skipByte Z.eqb Pos.eqb].
  rewrite getnum_digits by assumption. cbn [bind]. rewrite Vh.
  destruct (24 <=? hour); [reflexivity |].
  cbn [bind skipByte Z.eqb Pos.eqb].
  rewrite getnum_digits by assumption. cbn [bind]. rewrite Vm.
  destruct (60 <=? min); [reflexivity |].
  cbn [bind skipByte Z.eqb Pos.eqb].
  rewrite getnum_digits by assumption. cbn [bind]. rewrite Vs.
  destruct (60 <=? sec); [reflexivity |].
  cbn [getfrac Z.eqb Pos.eqb orb andb].
  rewrite Vd, Vy.
  destruct east; cbn [skipSpace cutspace Z.eqb Pos.eqb bind];
    rewrite getzone_digits by (assumption || auto);
    cbn [bind Z.eqb Pos.eqb]; unfold zoneSeconds; rewrite Va, Vc;
    (destruct ((day <? 1) || (daysIn (Z.of_nat month + 1) year <? day));
     [reflexivity | do 2 f_equal; lia]).
Qed.

(** No month has more than 31 days. *)
Lemma daysIn_bound (month year : Z) : 28 <= daysIn month year <= 31.
Proof.
  unfold daysIn. destruct (month =? 2); [destruct (isLeap year); lia |].
  destruct (_ || _); lia.
Qed.

(** The text of an instant holds no closing bracket. *)
Lemma free_ofBytes (sep : ascii) (l : list Z) :
  Forall (fun b => Spec.isByte b /\ b <> byte_of sep) l ->
  free sep (Spec.ofBytes l) = true.
Proof.
  induction 1 as [| b l [Hb Hne] _ IH]; [reflexivity |].
  unfold Spec.ofBytes in *. cbn [map string_of_list_ascii free]. rewrite IH.
  destruct (Ascii.eqb_spec (ascii_of_N (Z.to_N b)) sep) as [E | E]; [| reflexivity].
  exfalso. apply Hne. subst sep. unfold byte_of, Spec.isByte in *.
  rewrite N_ascii_embedding by lia. lia.
Qed.

Lemma month_free (month : nat) :
  (month < 12)%nat ->
  Forall (fun b => Spec.isByte b /\ b <> 93) (bytes (nth month shortMonthNames "")).
Proof.
  intros H.
  assert (C : forall l, forallb (fun b => (0 <=? b) && (b <? 256) && negb (b =? 93)) l
                        = true ->
                        Forall (fun b => Spec.isByte b /\ b <> 93) l).
  { intros l Hl. apply Forall_forall. intros b Hb.
    rewrite forallb_forall in Hl. specialize (Hl b Hb).
    apply andb_true_iff in Hl as [Hl Hn]. apply andb_true_iff in Hl as [H0 H1].
    apply Z.leb_le in H0. apply Z.ltb_lt in H1. apply negb_true_iff, Z.eqb_neq in Hn.
    unfold Spec.isByte. auto. }
  do 12 (destruct month as [| month]; [apply C; vm_compute; reflexivity |]).
  lia.
Qed.

Lemma stampText_free (day : Z) (month : nat) (year hour min sec : Z)
  (east : bool) (zh zm : Z) :
  (month < 12)%nat -> 0 <= day < 100 -> 0 <= year < 10000 ->
  0 <= hour < 100 -> 0 <= min < 100 -> 0 <= sec < 100 ->
  0 <= zh < 100 -> 0 <= zm < 100 ->
  free "]" (stampText day month year hour min sec east zh zm) = true.
Proof.
  intros Hmonth Hday Hyear Hhour Hmin Hsec Hzh Hzm.
  destruct (two_digits day Hday) as (d1 & d2 & Ed & Hd1 & Hd2 & _).
  destruct (four_digits year Hyear)
    as (y0 & y1 & y2 & y3 & Ey & Hy0 & Hy1 & Hy2 & Hy3 & _).
  destruct (two_digits hour Hhour) as (h1 & h2 & Eh & Hh1 & Hh2 & _).
  destruct (two_digits min Hmin) as (m1 & m2 & Em & Hm1 & Hm2 & _).
  destruct (two_digits sec Hsec) as (s1 & s2 & Es & Hs1 & Hs2 & _).
  destruct (two_digits zh Hzh) as (a1 & a2 & Ea & Ha1 & Ha2 & _).
  destruct (two_digits zm Hzm) as (c1 & c2 & Ec & Hc1 & Hc2 & _).
  unfold stampText. rewrite Ed, Ey, Eh, Em, Es, Ea, Ec.
  apply free_ofBytes. change (byte_of "]") with 93.
  unfold digit in *. cbn [app].
  repeat (apply Forall_cons; [unfold Spec.isByte; lia |]).
  apply Forall_app. split; [apply month_free, Hmonth |].
  repeat (apply Forall_cons; [unfold Spec.isByte; try destruct east; lia |]).
  apply Forall_nil.
Qed.

End CalendarFacts.

(* ================================================================= *)
(** ** Fields joined again *)

Module FieldFacts.
Import GoString Vocabulary.
Local Open Scope list_scope.

Lemma SplitN_succ (s : string) (sep : ascii) (n : nat) :
  SplitN s sep (S (S n)) =
  match cut sep s with
  | Some (a, b) => a :: SplitN b sep (S n)
  | None => [s]
  end.
Proof. reflexivity. Qed.

Lemma SplitN_nonempty (s : string) (sep : ascii) (n : nat) :
  SplitN s sep (S n) <> [].
Proof.
  destruct n as [| n]; [discriminate |]. rewrite SplitN_succ.
  destruct (cut sep s) as [[a b] |]; discriminate.
Qed.

Lemma SplitN_length (sep : ascii) (n : nat) :
  forall s, (1 <= List.length (SplitN s sep (S n)) <= S n)%nat.
Proof.
  induction n as [| n IH]; intros s; [cbn; lia |]. rewrite SplitN_succ.
  destruct (cut sep s) as [[a b] |]; [| cbn; lia].
  specialize (IH b). cbn [List.length]. lia.
Qed.

(** Joining the fields with the separator gives the text back. *)
Lemma Join_SplitN (sep : ascii) (n : nat) :
  forall s, Join (SplitN s sep (S n)) (str1 sep) = s.
Proof.
  induction n as [| n IH]; intros s; [reflexivity |]. rewrite SplitN_succ.
  destruct (cut sep s) as [[a b] |] eqn:E; [| reflexivity].
  apply SplitFacts.cut_inv in E as [-> _].
  pose proof (IH b) as Hb.
  destruct (SplitN b sep (S n)) as [| x r] eqn:Es;
    [exfalso; exact (SplitN_nonempty b sep n Es) |].
  change (Join (a :: x :: r) (str1 sep))
    with (a ++ str1 sep ++ Join (x :: r) (str1 sep))%string.
  rewrite Hb. reflexivity.
Qed.

(** Only the last field can hold the separator. *)
Lemma SplitN_free (sep : ascii) (n : nat) :
  forall s, Forall (fun f => free sep f = true) (removelast (SplitN s sep (S n))).
Proof.
  induction n as [| n IH]; intros s; [constructor |]. rewrite SplitN_succ.
  destruct (cut sep s) as [[a b] |] eqn:E; [| constructor].
  apply SplitFacts.cut_inv in E as [_ Ha].
  pose proof (IH b) as Hb.
  destruct (SplitN b sep (S n)) as [| x r] eqn:Es;
    [exfalso; exact (SplitN_nonempty b sep n Es) |].
  change (removelast (a :: x :: r)) with (a :: removelast (x :: r)).
  constructor; assumption.
Qed.

End FieldFacts.

(* ================================================================= *)
(** ** The time a replay takes *)

Module SpanFacts.
Import Log2Life Vocabulary.
Local Open Scope list_scope.

Lemma last_cons (s d : GoTime.t) (r : list GoTime.t) : last (s :: r) d = last r s.
Proof.
  revert s d. induction r as [| x r IH]; intros s d; [reflexivity |].
  change (last (s :: x :: r) d) with (last (x :: r) d).
  rewrite (IH x d), (IH x s). reflexivity.
Qed.

(** At speed 1.0 the delays between steady instants add up to the
    span from the first to the last. *)
Lemma gaps_sum (arch : GOARCH) (others : list GoTime.t) :
  forall first,
    GoTime.nsec first = 0 -> steady first others ->
    fold_right Z.add 0
      (map (Z.max 0) (gaps (fun a b => delayOf arch a b Float64.one) first others))
    = (GoTime.unix (last others first) - GoTime.unix first) * GoTime.Second.
Proof.
  induction others as [| s r IH]; intros first Hfirst Hsteady.
  - cbn [gaps map fold_right last]. lia.
  - destruct Hsteady as (Hs & Hle & Hfit & Hrest).
    cbn [gaps map fold_right]. rewrite (IH s Hs Hrest), last_cons.
    destruct (PacingFacts.delayOf_whole_seconds arch first s Hfirst Hs
                ltac:(lia) Hfit) as [-> _].
    rewrite (PacingFacts.Sub_whole_seconds first s Hfirst Hs ltac:(lia) Hfit).
    unfold GoTime.Second in *. lia.
Qed.

End SpanFacts.

(* ================================================================= *)
(** ** IPv6 address text and the parser *)

Module LiteralFacts.
Import GoString GoNet Spec IPv6Text.
Local Open Scope list_scope.

Lemma bytes_append (a b : string) : bytes (a ++ b)%string = bytes a ++ bytes b.
Proof.
  unfold bytes. induction a as [| c a IH]; [reflexivity |].
  cbn [append list_ascii_of_string map app]. f_equal. exact IH.
Qed.

Lemma bytes_length (s : string) : List.length (bytes s) = String.length s.
Proof.
  unfold bytes. rewrite length_map.
  induction s as [| c s IH]; [reflexivity |]. cbn. f_equal. exact IH.
Qed.

(** A hexadecimal digit is what [xtoi] reads as one, and no separator. *)
Lemma hexval_digit (b : Z) :
  isHexDigit b = true ->
  hexval b = Some (digitValue b) /\ 0 <= digitValue b < 16 /\ b <> 58 /\ b <> 46.
Proof.
  unfold isHexDigit, hexval, digitValue. intros H.
  destruct (Z.leb_spec 48 b); destruct (Z.leb_spec b 57);
    destruct (Z.leb_spec 97 b); destruct (Z.leb_spec b 102);
    destruct (Z.leb_spec 65 b); destruct (Z.leb_spec b 70);
    cbn in H |- *; try discriminate H; try lia;
    (split; [f_equal; lia | lia]).
Qed.

Lemma decimal_hex (n : Z) : Spec.isByte n -> forallb isHexDigit (decimal n) = true.
Proof.
  intros Hn. apply forallb_forall. intros b Hb.
  pose proof (ParseFacts.decimal_bytes n Hn) as Hd.
  rewrite Forall_forall in Hd. specialize (Hd b Hb).
  unfold isHexDigit.
  replace (48 <=? b) with true by (symmetry; apply Z.leb_le; lia).
  replace (b <=? 57) with true by (symmetry; apply Z.leb_le; lia).
  reflexivity.
Qed.

(** [xtoi] over a run of hexadecimal digits that ends the text or is
    followed by a byte that is no digit. *)
Lemma xtoi_loop_run (ds : list Z) :
  forall n i rest,
    forallb isHexDigit ds = true -> 0 <= n ->
    (n + 1) * 16 ^ Z.of_nat (List.length ds) <= big ->
    0 <= i -> (ds <> [] \/ i <> 0) ->
    match rest with [] => True | b :: _ => hexval b = None end ->
    xtoi_loop (ds ++ rest) n i
    = (fold_left (fun n b => n * 16 + digitValue b) ds n,
       i + Z.of_nat (List.length ds), true)
    /\ 0 <= fold_left (fun n b => n * 16 + digitValue b) ds n
       < (n + 1) * 16 ^ Z.of_nat (List.length ds).
Proof.
  induction ds as [| b ds IH]; intros n i rest Hds Hn Hbig Hi Hne Hrest.
  - cbn [app fold_left List.length]. change (16 ^ Z.of_nat 0) with 1.
    split; [| lia].
    assert (Hi0 : i <> 0) by (destruct Hne as [H | H]; [contradiction H; reflexivity | exact H]).
    rewrite Z.add_0_r.
    destruct rest as [| c rest]; cbn [xtoi_loop].
    + destruct (Z.eqb_spec i 0); [contradiction | reflexivity].
    + rewrite Hrest. destruct (Z.eqb_spec i 0); [contradiction | reflexivity].
  - cbn [forallb] in Hds. apply andb_true_iff in Hds as [Hb Hds].
    destruct (hexval_digit b Hb) as (Hv & Hd & _).
    assert (Hpow : 1 <= 16 ^ Z.of_nat (List.length ds))
      by (apply (Z.pow_le_mono_r 16 0); lia).
    assert (Hsucc : 16 ^ Z.of_nat (List.length (b :: ds))
                    = 16 * 16 ^ Z.of_nat (List.length ds)).
    { cbn [List.length]. rewrite Nat2Z.inj_succ, Z.pow_succ_r by lia. reflexivity. }
    rewrite Hsucc in *.
    assert (Hn' : (n * 16 + digitValue b + 1) * 16 ^ Z.of_nat (List.length ds) <= big) by nia.
    cbn [app xtoi_loop fold_left]. rewrite Hv.
    replace (big <=? n * 16 + digitValue b) with false by (symmetry; apply Z.leb_gt; nia).
    destruct (IH (n * 16 + digitValue b) (i + 1) rest Hds ltac:(lia) Hn' ltac:(lia)
                ltac:(right; lia) Hrest) as [E B].
    rewrite E. split; [| nia].
    f_equal. f_equal. cbn [List.length]. lia.
Qed.

Lemma xtoi_run (ds rest : list Z) :
  forallb isHexDigit ds = true -> (1 <= List.length ds <= 4)%nat ->
  match rest with [] => True | b :: _ => hexval b = None end ->
  xtoi (ds ++ rest)
  = (fold_left (fun n b => n * 16 + digitValue b) ds 0, Z.of_nat (List.length ds), true)
  /\ 0 <= fold_left (fun n b => n * 16 + digitValue b) ds 0 < 65536.
Proof.
  intros Hds Hlen Hrest.
  assert (Hpow : 16 ^ Z.of_nat (List.length ds) <= 65536).
  { change 65536 with (16 ^ 4). apply Z.pow_le_mono_r; lia. }
  destruct (xtoi_loop_run ds 0 0 rest Hds ltac:(lia) ltac:(unfold big; lia) ltac:(lia)
              ltac:(left; intros ->; simpl in Hlen; lia) Hrest) as [E B].
  unfold xtoi. rewrite E. split; [reflexivity | lia].
Qed.

Lemma group_text (g : string) :
  isGroupText g = true ->
  forallb isHexDigit (bytes g) = true /\ (1 <= List.length (bytes g) <= 4)%nat.
Proof.
  unfold isGroupText. rewrite !andb_true_iff, bytes_length.
  intros [[H1 H4] Hd]. apply Nat.leb_le in H1, H4. auto.
Qed.

Lemma groupValue_range (g : string) : isGroupText g = true -> 0 <= groupValue g < 65536.
Proof.
  intros Hg. destruct (group_text g Hg) as [Hd Hl].
  apply (xtoi_run (bytes g) [] Hd Hl I).
Qed.

Lemma drop_app (a b : list Z) : drop (Z.of_nat (List.length a)) (a ++ b) = b.
Proof.
  unfold drop. rewrite Nat2Z.id, skipn_app, skipn_all, Nat.sub_diag. reflexivity.
Qed.

Lemma nth_app_end (a b : list Z) :
  nth (Z.to_nat (Z.of_nat (List.length a))) (a ++ b) 0 = nth 0 b 0.
Proof. rewrite Nat2Z.id, app_nth2, Nat.sub_diag by lia. reflexivity. Qed.

Lemma put_four (pre : list Z) (x y z w : Z) (tl : list Z) (a b c d : Z) :
  put (put (put (put (pre ++ x :: y :: z :: w :: tl) (Z.of_nat (List.length pre)) a)
                (Z.of_nat (List.length pre) + 1) b)
           (Z.of_nat (List.length pre) + 2) c)
      (Z.of_nat (List.length pre) + 3) d
  = pre ++ a :: b :: c :: d :: tl.
Proof.
  rewrite ParseFacts.put_two.
  replace (pre ++ a :: b :: z :: w :: tl) with ((pre ++ [a; b]) ++ z :: w :: tl)
    by (rewrite <- app_assoc; reflexivity).
  replace (Z.of_nat (List.length pre) + 2) with (Z.of_nat (List.length (pre ++ [a; b])))
    by (rewrite length_app; simpl; lia).
  replace (Z.of_nat (List.length pre) + 3)
    with (Z.of_nat (List.length (pre ++ [a; b])) + 1)
    by (rewrite length_app; simpl; lia).
  rewrite ParseFacts.put_two, <- app_assoc. reflexivity.
Qed.

(** One turn of the loop of [parseIPv6] on a group: the group is
    stored, and what follows it decides how the loop goes on. *)
Lemma v6_group (fuel : nat) (pre : list Z) (x y : Z) (tl : list Z) (e : Z)
  (g : string) (rest : list Z) :
  isGroupText g = true -> Z.of_nat (List.length pre) < 16 ->
  match rest with [] => True | b :: _ => b = 58 end ->
  parseIPv6_loop (S fuel) (pre ++ x :: y :: tl) (Z.of_nat (List.length pre)) e
    (bytes g ++ rest)
  = let ip1 := pre ++ groupBytes g ++ tl in
    let i1 := Z.of_nat (List.length pre) + 2 in
    match rest with
    | [] => Some {| v6ip := ip1; v6i := i1; v6ellipsis := e; v6rest := [] |}
    | _ :: [] => None
    | _ :: b1 :: s3 =>
        if b1 =? 58 then
          if 0 <=? e then None
          else match s3 with
               | [] => Some {| v6ip := ip1; v6i := i1; v6ellipsis := i1; v6rest := [] |}
               | _ => parseIPv6_loop fuel ip1 i1 i1 s3
               end
        else parseIPv6_loop fuel ip1 i1 e (b1 :: s3)
    end.
Proof.
  intros Hg Hi Hrest. destruct (group_text g Hg) as [Hd Hl].
  assert (Hstop : match rest with [] => True | b :: _ => hexval b = None end).
  { destruct rest as [| b rest]; [exact I | subst b; reflexivity]. }
  destruct (xtoi_run (bytes g) rest Hd Hl Hstop) as [E B].
  fold (groupValue g) in E, B.
  cbn [parseIPv6_loop].
  replace (Z.of_nat (List.length pre) <? IPv6len) with true
    by (symmetry; apply Z.ltb_lt; exact Hi).
  cbn [negb]. rewrite E.
  replace (65535 <? groupValue g) with false by (symmetry; apply Z.ltb_ge; lia).
  cbn [negb orb]. rewrite nth_app_end.
  replace ((Z.of_nat (List.length (bytes g)) <? Z.of_nat (List.length (bytes g ++ rest)))
           && (nth 0 rest 0 =? 46)) with false
    by (destruct rest as [| b rest]; [| subst b]; cbn [nth];
        rewrite andb_false_r; reflexivity).
  rewrite ParseFacts.group_high by exact B. rewrite ParseFacts.put_two, drop_app.
  cbv zeta. unfold groupBytes. cbn [app].
  destruct rest as [| b [| b1 s3]]; [reflexivity | subst b; reflexivity |].
  subst b. change (58 =? 58) with true. cbn [negb orb].
  replace (Z.of_nat (List.length (58 :: b1 :: s3)) =? 1) with false
    by (symmetry; apply Z.eqb_neq; cbn [List.length]; lia).
  destruct (b1 =? 58); [| reflexivity].
  destruct (0 <=? e); [reflexivity |].
  destruct s3; reflexivity.
Qed.

Lemma bytes_dotted (a b c d : Z) :
  Spec.isByte a -> Spec.isByte b -> Spec.isByte c -> Spec.isByte d ->
  bytes (dotted a b c d)
  = decimal a ++ 46 :: decimal b ++ 46 :: decimal c ++ 46 :: decimal d.
Proof.
  intros Ha Hb Hc Hd. unfold dotted. apply ParseFacts.bytes_ofBytes.
  assert (Hdig : forall n, Spec.isByte n -> Forall Spec.isByte (decimal n)).
  { intros n Hn. eapply Forall_impl; [| apply ParseFacts.decimal_bytes; exact Hn].
    unfold Spec.isByte. intros; lia. }
  assert (H46 : Spec.isByte 46) by (unfold Spec.isByte; lia).
  repeat (apply Forall_app; split; [apply Hdig; assumption |]; constructor; [exact H46 |]).
  apply Hdig; assumption.
Qed.

Lemma parseIPv4_dotted (a b c d : Z) :
  Spec.isByte a -> Spec.isByte b -> Spec.isByte c -> Spec.isByte d ->
  parseIPv4 (decimal a ++ 46 :: decimal b ++ 46 :: decimal c ++ 46 :: decimal d)
  = Some (IPv4 [a; b; c; d]).
Proof.
  intros Ha Hb Hc Hd. unfold parseIPv4.
  rewrite ParseFacts.v4_first by (assumption || reflexivity).
  rewrite ParseFacts.v4_next by (assumption || reflexivity || lia).
  rewrite ParseFacts.v4_next by (assumption || reflexivity || lia).
  rewrite <- (app_nil_r (decimal d)).
  rewrite ParseFacts.v4_next by (assumption || exact I || lia).
  reflexivity.
Qed.

Lemma octets (a b c d : Z) :
  isOctet a && isOctet b && isOctet c && isOctet d = true ->
  Spec.isByte a /\ Spec.isByte b /\ Spec.isByte c /\ Spec.isByte d.
Proof.
  unfold isOctet, Spec.isByte. rewrite !andb_true_iff.
  intros H. repeat match goal with H : _ /\ _ |- _ => destruct H end.
  repeat match goal with
         | H : (_ <=? _) = true |- _ => apply Z.leb_le in H
         | H : (_ <? _) = true |- _ => apply Z.ltb_lt in H
         end.
  lia.
Qed.

(** The turn of the loop on a closing dotted quad. *)
Lemma v6_quad (fuel : nat) (pre : list Z) (x y z w : Z) (tl : list Z) (e : Z)
  (a b c d : Z) :
  Spec.isByte a -> Spec.isByte b -> Spec.isByte c -> Spec.isByte d ->
  0 <= e \/ Z.of_nat (List.length pre) = 12 ->
  Z.of_nat (List.length pre) <= 12 ->
  parseIPv6_loop (S fuel) (pre ++ x :: y :: z :: w :: tl) (Z.of_nat (List.length pre)) e
    (decimal a ++ 46 :: decimal b ++ 46 :: decimal c ++ 46 :: decimal d)
  = Some {| v6ip := pre ++ a :: b :: c :: d :: tl;
            v6i := Z.of_nat (List.length pre) + 4;
            v6ellipsis := e; v6rest := [] |}.
Proof.
  intros Ha Hb Hc Hd He Hi.
  set (rest := 46 :: decimal b ++ 46 :: decimal c ++ 46 :: decimal d).
  assert (Hl : (1 <= List.length (decimal a) <= 4)%nat).
  { unfold decimal. destruct (a <? 10); [| destruct (a <? 100)]; simpl; lia. }
  destruct (xtoi_run (decimal a) rest (decimal_hex a Ha) Hl eq_refl) as [E B].
  cbn [parseIPv6_loop].
  replace (Z.of_nat (List.length pre) <? IPv6len) with true
    by (symmetry; apply Z.ltb_lt; unfold IPv6len; lia).
  cbn [negb]. rewrite E.
  match goal with |- context [65535 <? ?v] =>
    replace (65535 <? v) with false by (symmetry; apply Z.ltb_ge; lia) end.
  cbn [negb orb]. rewrite nth_app_end.
  replace (Z.of_nat (List.length (decimal a)) <? Z.of_nat (List.length (decimal a ++ rest)))
    with true by (symmetry; apply Z.ltb_lt; rewrite length_app; unfold rest; simpl; lia).
  unfold rest at 1. cbn [nth]. change (46 =? 46) with true. cbn [andb].
  replace ((e <? 0) && negb (Z.of_nat (List.length pre) =? IPv6len - IPv4len)) with false.
  2:{ symmetry. destruct He as [He | He].
      - replace (e <? 0) with false by (symmetry; apply Z.ltb_ge; exact He). reflexivity.
      - rewrite He. apply andb_false_r. }
  replace (IPv6len <? Z.of_nat (List.length pre) + IPv4len) with false
    by (symmetry; apply Z.ltb_ge; unfold IPv6len, IPv4len; lia).
  unfold rest. rewrite parseIPv4_dotted by assumption.
  change (nth 12 (IPv4 [a; b; c; d]) 0) with a.
  change (nth 13 (IPv4 [a; b; c; d]) 0) with b.
  change (nth 14 (IPv4 [a; b; c; d]) 0) with c.
  change (nth 15 (IPv4 [a; b; c; d]) 0) with d.
  rewrite put_four. reflexivity.
Qed.

(** Every piece starts with a digit. *)
Lemma piecesText_head (r : pieces) :
  wellWritten r = true ->
  exists b rest, bytes (piecesText r) = b :: rest /\ isHexDigit b = true.
Proof.
  assert (Hgroup : forall g tail, isGroupText g = true ->
            exists b rest, bytes g ++ tail = b :: rest /\ isHexDigit b = true).
  { intros g tail Hg. destruct (group_text g Hg) as [Hd Hl].
    destruct (bytes g) as [| b ds]; [simpl in Hl; lia |].
    cbn [forallb] in Hd. apply andb_true_iff in Hd as [Hb _].
    exists b, (ds ++ tail). split; [reflexivity | exact Hb]. }
  destruct r as [g | g | a b c d | g r | g r]; cbn [wellWritten piecesText]; intros H.
  - rewrite <- (app_nil_r (bytes g)). apply Hgroup, H.
  - rewrite bytes_append. apply Hgroup, H.
  - destruct (octets a b c d H) as (Ha & Hb & Hc & Hd).
    rewrite bytes_dotted by assumption.
    pose proof (decimal_hex a Ha) as Hx.
    destruct (decimal a) as [| b0 ds] eqn:Ed.
    + unfold decimal in Ed. destruct (a <? 10); [| destruct (a <? 100)]; discriminate Ed.
    + cbn [forallb] in Hx. apply andb_true_iff in Hx as [Hb0 _].
      eexists. eexists. split; [reflexivity | exact Hb0].
  - apply andb_true_iff in H as [Hg _]. rewrite bytes_append. apply Hgroup, Hg.
  - apply andb_true_iff in H as [Hg _]. rewrite bytes_append. apply Hgroup, Hg.
Qed.

Lemma written_length (r : pieces) : (2 <= List.length (written r))%nat.
Proof.
  induction r; cbn [written groupBytes List.length app]; lia.
Qed.

Lemma written_split (r : pieces) : written r = before r ++ after r.
Proof.
  induction r as [g | g | a b c d | g r IH | g r IH]; cbn [written before after];
    rewrite ?app_nil_r; try reflexivity.
  rewrite IH, app_assoc. reflexivity.
Qed.

Lemma before_all (r : pieces) : gaps r = 0%nat -> before r = written r /\ after r = [].
Proof.
  induction r as [g | g | a b c d | g r IH | g r IH]; cbn [gaps written before after];
    intros H; try discriminate H; try (split; reflexivity).
  destruct (IH H) as [-> ->]. split; reflexivity.
Qed.

(** The loop of [parseIPv6] over the pieces of a literal: every byte
    is stored in its place and the place of the [::] is kept. *)
Lemma v6_pieces (r : pieces) :
  forall fuel pre tl e,
    wellWritten r = true ->
    (List.length (written r) <= 2 * fuel)%nat ->
    (List.length pre + List.length tl = 16)%nat ->
    (List.length (written r) <= List.length tl)%nat ->
    (0 <= e /\ gaps r = 0%nat) \/ (e < 0 /\ gaps r = 1%nat)
    \/ (e < 0 /\ gaps r = 0%nat /\ (List.length pre + List.length (written r) = 16)%nat) ->
    parseIPv6_loop fuel (pre ++ tl) (Z.of_nat (List.length pre)) e (bytes (piecesText r))
    = Some {| v6ip := pre ++ written r ++ skipn (List.length (written r)) tl;
              v6i := Z.of_nat (List.length pre + List.length (written r));
              v6ellipsis := if (gaps r =? 0)%nat then e
                            else Z.of_nat (List.length pre + List.length (before r));
              v6rest := [] |}.
Proof.
  induction r as [g | g | a b c d | g r IH | g r IH];
    intros fuel pre tl e Hw Hfuel Hsum Htl Hgap;
    cbn [wellWritten piecesText written before gaps] in *.
  - (* a last group *)
    destruct fuel as [| fuel]; [simpl in Hfuel; lia |].
    destruct tl as [| x [| y tl]]; try (simpl in Htl; lia).
    rewrite <- (app_nil_r (bytes g)).
    rewrite v6_group by (try assumption; try exact I; simpl in Hsum; lia).
    cbv zeta. cbn [groupBytes List.length skipn app Nat.eqb].
    f_equal. f_equal. lia.
  - (* a last group and the closing gap *)
    destruct fuel as [| fuel]; [simpl in Hfuel; lia |].
    destruct tl as [| x [| y tl]]; try (simpl in Htl; lia).
    rewrite bytes_append. change (bytes "::") with [58; 58].
    rewrite v6_group by (try assumption; try reflexivity; simpl in Hsum; lia).
    cbv zeta. change (58 =? 58) with true. cbv iota.
    assert (He : e < 0) by (destruct Hgap as [[_ H] | [[H _] | [_ [H _]]]];
                            [discriminate H | exact H | discriminate H]).
    replace (0 <=? e) with false by (symmetry; apply Z.leb_gt; exact He).
    cbn [groupBytes List.length skipn app Nat.eqb].
    f_equal. f_equal; lia.
  - (* the dotted quad *)
    destruct (octets a b c d Hw) as (Ha & Hb & Hc & Hd).
    destruct fuel as [| fuel]; [simpl in Hfuel; lia |].
    destruct tl as [| x [| y [| z [| w tl]]]]; try (simpl in Htl; lia).
    rewrite bytes_dotted by assumption.
    rewrite v6_quad; try assumption.
    + cbn [List.length skipn app Nat.eqb]. f_equal. f_equal. lia.
    + destruct Hgap as [[H _] | [[_ H] | (_ & _ & H)]];
        [left; exact H | discriminate H | right; simpl in H; lia].
    + simpl in Hsum. lia.
  - (* a group, a colon, and more *)
    apply andb_true_iff in Hw as [Hg Hr].
    destruct fuel as [| fuel]; [simpl in Hfuel; lia |].
    destruct tl as [| x [| y tl]]; try (simpl in Htl; lia).
    destruct (piecesText_head r Hr) as (b0 & rest & Er & Hb0).
    destruct (hexval_digit b0 Hb0) as (_ & _ & Hb58 & _).
    rewrite !bytes_append. change (bytes ":") with [58]. cbn [app].
    rewrite v6_group by (try assumption; try reflexivity; simpl in Hsum; lia).
    cbv zeta. rewrite Er.
    replace (b0 =? 58) with false by (symmetry; apply Z.eqb_neq; exact Hb58).
    rewrite <- Er.
    replace (pre ++ groupBytes g ++ tl) with ((pre ++ groupBytes g) ++ tl)
      by (rewrite <- app_assoc; reflexivity).
    replace (Z.of_nat (List.length pre) + 2)
      with (Z.of_nat (List.length (pre ++ groupBytes g)))
      by (rewrite length_app; simpl; lia).
    rewrite IH.
    + rewrite !length_app. cbn [groupBytes List.length skipn app].
      rewrite <- !app_assoc. cbn [app].
      f_equal. f_equal; [f_equal; lia |].
      destruct (gaps r =? 0)%nat; [reflexivity | lia].
    + exact Hr.
    + rewrite length_app in Hfuel. simpl in Hfuel. lia.
    + rewrite length_app. simpl in *. lia.
    + rewrite length_app in Htl. simpl in *. lia.
    + rewrite !length_app in *. simpl in *.
      destruct Hgap as [H | [H | (H1 & H2 & H3)]]; [left; exact H | right; left; exact H |].
      right; right. repeat split; try assumption. lia.
  - (* a group, the gap, and more *)
    apply andb_true_iff in Hw as [Hg Hr].
    destruct fuel as [| fuel]; [simpl in Hfuel; lia |].
    destruct tl as [| x [| y tl]]; try (simpl in Htl; lia).
    destruct (piecesText_head r Hr) as (b0 & rest & Er & Hb0).
    assert (He : e < 0 /\ gaps r = 0%nat).
    { destruct Hgap as [[_ H] | [[H1 H2] | (_ & H & _)]];
        [discriminate H | split; [exact H1 | lia] | discriminate H]. }
    destruct He as [He Hr0].
    rewrite !bytes_append. change (bytes "::") with [58; 58]. cbn [app].
    rewrite v6_group by (try assumption; try reflexivity; simpl in Hsum; lia).
    cbv zeta. change (58 =? 58) with true. cbv iota.
    replace (0 <=? e) with false by (symmetry; apply Z.leb_gt; exact He).
    rewrite Er. rewrite <- Er.
    replace (pre ++ groupBytes g ++ tl) with ((pre ++ groupBytes g) ++ tl)
      by (rewrite <- app_assoc; reflexivity).
    replace (Z.of_nat (List.length pre) + 2)
      with (Z.of_nat (List.length (pre ++ groupBytes g)))
      by (rewrite length_app; simpl; lia).
    rewrite IH.
    + rewrite Hr0. rewrite !length_app. cbn [groupBytes List.length skipn app Nat.eqb].
      rewrite <- !app_assoc. cbn [app].
      f_equal. f_equal; f_equal; lia.
    + exact Hr.
    + rewrite length_app in Hfuel. simpl in Hfuel. lia.
    + rewrite length_app. simpl in *. lia.
    + rewrite length_app in Htl. simpl in *. lia.
    + left. split; [lia | exact Hr0].
Qed.

(** The two closing loops of [parseIPv6]: the bytes behind the [::]
    move to the end and zeros fill the gap. *)
Lemma expand (ip : list Z) (e i : Z) :
  List.length ip = 16%nat -> 0 <= e <= i -> i < 16 ->
  zeroDown (Z.to_nat (IPv6len - i)) (e + (IPv6len - i) - 1)
    (shiftUp (Z.to_nat (i - e)) (i - 1) (IPv6len - i) ip)
  = firstn (Z.to_nat e) ip ++ repeat 0 (Z.to_nat (16 - i))
    ++ firstn (Z.to_nat (i - e)) (skipn (Z.to_nat e) ip).
Proof.
  intros Hlen He Hi.
  do 16 (destruct ip as [| ? ip]; [discriminate Hlen |]).
  destruct ip; [| discriminate Hlen]. clear Hlen.
  assert (Hcase : forall v, 0 <= v < 16 ->
            v = 0 \/ v = 1 \/ v = 2 \/ v = 3 \/ v = 4 \/ v = 5 \/ v = 6 \/ v = 7
            \/ v = 8 \/ v = 9 \/ v = 10 \/ v = 11 \/ v = 12 \/ v = 13 \/ v = 14
            \/ v = 15) by (intros; lia).
  destruct (Hcase i ltac:(lia)) as
    [-> | [-> | [-> | [-> | [-> | [-> | [-> | [-> | [-> | [-> | [-> | [-> | [-> | [->
     | [-> | ->]]]]]]]]]]]]]]];
  destruct (Hcase e ltac:(lia)) as
    [-> | [-> | [-> | [-> | [-> | [-> | [-> | [-> | [-> | [-> | [-> | [-> | [-> | [->
     | [-> | ->]]]]]]]]]]]]]]];
  try lia; vm_compute; reflexivity.
Qed.

Lemma firstSep_run (ds rest : list Z) :
  forallb isHexDigit ds = true -> firstSep (ds ++ rest) = firstSep rest.
Proof.
  induction ds as [| b ds IH]; intros H; [reflexivity |].
  cbn [forallb] in H. apply andb_true_iff in H as [Hb Hds].
  destruct (hexval_digit b Hb) as (_ & _ & H58 & H46).
  cbn [app]. rewrite ParseFacts.firstSep_skip by assumption. apply IH, Hds.
Qed.

(** The first separator of well-written pieces is a colon, unless
    they are a single group or a dotted quad. *)
Lemma firstSep_pieces (r : pieces) :
  wellWritten r = true ->
  firstSep (bytes (piecesText r))
  = match r with
    | Last _ => None
    | Quad _ _ _ _ => Some 46
    | _ => Some 58
    end.
Proof.
  destruct r as [g | g | a b c d | g r | g r]; cbn [wellWritten piecesText]; intros H.
  - destruct (group_text g H) as [Hd _].
    rewrite <- (app_nil_r (bytes g)), firstSep_run by exact Hd. reflexivity.
  - destruct (group_text g H) as [Hd _].
    rewrite bytes_append, firstSep_run by exact Hd. reflexivity.
  - destruct (octets a b c d H) as (Ha & Hb & Hc & Hd).
    rewrite bytes_dotted by assumption.
    rewrite firstSep_run by (apply decimal_hex; exact Ha). reflexivity.
  - apply andb_true_iff in H as [Hg _]. destruct (group_text g Hg) as [Hd _].
    rewrite bytes_append, firstSep_run by exact Hd. reflexivity.
  - apply andb_true_iff in H as [Hg _]. destruct (group_text g Hg) as [Hd _].
    rewrite bytes_append, firstSep_run by exact Hd. reflexivity.
Qed.

(** A well-formed literal denotes sixteen bytes. *)
Lemma address_length (l : literal) :
  wellFormed l = true -> List.length (address l) = 16%nat.
Proof.
  destruct l as [| r | r]; cbn [wellFormed address]; intros H.
  - reflexivity.
  - rewrite !andb_true_iff in H. destruct H as [[_ _] H]. apply Nat.leb_le in H.
    rewrite length_app, repeat_length. lia.
  - rewrite andb_true_iff, orb_true_iff, !andb_true_iff in H.
    rewrite !length_app, repeat_length.
    pose proof (f_equal (@List.length Z) (written_split r)) as Hs.
    rewrite length_app in Hs.
    destruct H as [_ [[_ H] | [_ H]]];
      [apply Nat.eqb_eq in H | apply Nat.leb_le in H]; lia.
Qed.

(** [parseIPv6], and with it [net.ParseIP], reads every well-formed
    literal as the sixteen bytes it denotes. *)
Lemma parseIPv6_literal (l : literal) :
  wellFormed l = true -> parseIPv6 (bytes (text l)) = Some (address l).
Proof.
  destruct l as [| r | r]; cbn [wellFormed text address]; intros H.
  - reflexivity.
  - rewrite !andb_true_iff in H. destruct H as [[Hw Hg] Hl].
    apply Nat.eqb_eq in Hg. apply Nat.leb_le in Hl.
    destruct (piecesText_head r Hw) as (b0 & rest & Er & _).
    rewrite bytes_append. change (bytes "::") with [58; 58]. cbn [app].
    unfold parseIPv6. change ((58 =? 58) && (58 =? 58)) with true. cbv iota beta.
    rewrite Er at 1. cbn [List.length].
    replace ((0 =? 0) && (Z.of_nat (S (List.length rest)) =? 0)) with false
      by (symmetry; apply andb_false_iff; right; apply Z.eqb_neq; lia).
    pose proof (v6_pieces r 8 [] (repeat 0 16) 0 Hw ltac:(lia) eq_refl
                  ltac:(rewrite repeat_length; lia) ltac:(left; split; [lia | exact Hg]))
      as Hloop.
    cbn [app List.length Nat.add] in Hloop. change (Z.of_nat 0) with 0 in Hloop.
    rewrite Hloop. cbn [v6rest v6i v6ellipsis v6ip]. rewrite Hg. cbn [Nat.eqb].
    replace (Z.of_nat (List.length (written r)) <? IPv6len) with true
      by (symmetry; apply Z.ltb_lt; unfold IPv6len; lia).
    change (0 <? 0) with false. cbv iota.
    rewrite (expand _ 0 (Z.of_nat (List.length (written r))));
      [| rewrite length_app, length_skipn, repeat_length; lia | lia | lia].
    change (Z.to_nat 0) with 0%nat. cbn [firstn skipn app].
    rewrite Z.sub_0_r, Nat2Z.id, firstn_app, firstn_all, Nat.sub_diag.
    cbn [firstn]. rewrite app_nil_r.
    f_equal. f_equal. f_equal. lia.
  - rewrite andb_true_iff, orb_true_iff, !andb_true_iff in H.
    destruct H as [Hw Hform].
    destruct (piecesText_head r Hw) as (b0 & rest & Er & Hb0).
    destruct (hexval_digit b0 Hb0) as (_ & _ & Hb58 & _).
    unfold parseIPv6.
    assert (Hlead : match bytes (piecesText r) with
                    | c0 :: c1 :: r0 =>
                        if (c0 =? 58) && (c1 =? 58) then (0, r0)
                        else (-1, bytes (piecesText r))
                    | _ => (-1, bytes (piecesText r))
                    end = (-1, bytes (piecesText r))).
    { rewrite Er. destruct rest as [| c1 rest]; [reflexivity |].
      replace (b0 =? 58) with false by (symmetry; apply Z.eqb_neq; exact Hb58).
      reflexivity. }
    rewrite Hlead. cbv iota beta. change (-1 =? 0) with false. cbn [andb].
    assert (Hgap : (-1 < 0 /\ gaps r = 1%nat)
                   \/ (-1 < 0 /\ gaps r = 0%nat
                       /\ (List.length (@nil Z) + List.length (written r) = 16)%nat)).
    { destruct Hform as [[Hg Hl] | [Hg Hl]].
      - right. apply Nat.eqb_eq in Hg, Hl. repeat split; try lia. simpl. exact Hl.
      - left. apply Nat.eqb_eq in Hg. split; [lia | exact Hg]. }
    assert (Hl16 : (List.length (written r) <= 16)%nat).
    { destruct Hform as [[_ Hl] | [_ Hl]];
        [apply Nat.eqb_eq in Hl | apply Nat.leb_le in Hl]; lia. }
    pose proof (v6_pieces r 8 [] (repeat 0 16) (-1) Hw ltac:(lia) eq_refl
                  ltac:(rewrite repeat_length; lia) ltac:(right; exact Hgap))
      as Hloop.
    cbn [app List.length Nat.add] in Hloop. change (Z.of_nat 0) with 0 in Hloop.
    rewrite Hloop. cbn [v6rest v6i v6ellipsis v6ip].
    destruct Hform as [[Hg Hl] | [Hg Hl]].
    + apply Nat.eqb_eq in Hg, Hl. rewrite Hg. cbn [Nat.eqb]. rewrite Hl.
      change (Z.of_nat 16 <? IPv6len) with false. change (0 <=? -1) with false.
      cbv iota. destruct (before_all r Hg) as [-> ->].
      reflexivity.
    + apply Nat.eqb_eq in Hg. apply Nat.leb_le in Hl. rewrite Hg. cbn [Nat.eqb].
      replace (Z.of_nat (List.length (written r)) <? IPv6len) with true
        by (symmetry; apply Z.ltb_lt; unfold IPv6len; lia).
      pose proof (f_equal (@List.length Z) (written_split r)) as Hs.
      rewrite length_app in Hs.
      replace (Z.of_nat (List.length (before r)) <? 0) with false
        by (symmetry; apply Z.ltb_ge; lia).
      cbv iota.
      rewrite expand;
        [| rewrite length_app, length_skipn, repeat_length; lia | lia | lia].
      rewrite Nat2Z.id.
      replace (Z.to_nat (Z.of_nat (List.length (written r))
                         - Z.of_nat (List.length (before r))))
        with (List.length (after r)) by lia.
      generalize (skipn (List.length (written r)) (repeat 0 16)). intros zs.
      assert (H1 : firstn (List.length (before r)) (written r ++ zs) = before r).
      { rewrite written_split, <- app_assoc, firstn_app, firstn_all, Nat.sub_diag.
        cbn [firstn]. apply app_nil_r. }
      assert (H2 : firstn (List.length (after r))
                     (skipn (List.length (before r)) (written r ++ zs)) = after r).
      { rewrite written_split, <- app_assoc, skipn_app, skipn_all, Nat.sub_diag.
        cbn [skipn app]. rewrite firstn_app, firstn_all, Nat.sub_diag.
        cbn [firstn]. apply app_nil_r. }
      rewrite H1, H2. f_equal. f_equal. f_equal. f_equal. lia.
Qed.

Lemma ParseIP_literal (l : literal) :
  wellFormed l = true -> ParseIP (text l) = Some (address l).
Proof.
  intros H. unfold ParseIP.
  assert (Hsep : firstSep (bytes (text l)) = Some 58).
  { destruct l as [| r | r]; cbn [text]; [reflexivity | reflexivity |].
    cbn [wellFormed] in H.
    rewrite andb_true_iff, orb_true_iff, !andb_true_iff in H. destruct H as [Hw Hform].
    rewrite firstSep_pieces by exact Hw.
    destruct r as [g | g | a b c d | g r | g r]; try reflexivity;
      cbn [gaps written groupBytes List.length] in Hform;
      destruct Hform as [[_ Hl] | [Hg _]]; discriminate. }
  rewrite Hsep. change (58 =? 46) with false. cbv iota.
  apply parseIPv6_literal, H.
Qed.

End LiteralFacts.

(* ================================================================= *)
(** * The claims *)

(** C1, as the code has it. The example line splits into the address
    10.0.0.1 and a fourth field whose bracketed part parses to
    2022-11-20T02:27:49+00:00; the bytes folded are all that follows the
    first closing bracket, quotes skipped: a space, the request, and the
    trailing status and size. *)
Theorem LineToPattern_example (arch : Float64.GOARCH) (width height : Z) :
  GoString.SplitN Spec.exampleLine " " 4
  = ["10.0.0.1"; "-"; "-"; "[20/Nov/2022:02:27:49 +0000]" ++ Spec.exampleAfterBracket]
  /\ GoTime.Parse "20/Nov/2022:02:27:49 +0000" = Ok Spec.exampleInstant
  /\ Spec.exampleInstant = {| GoTime.unix := 1668911269; GoTime.nsec := 0;
                              GoTime.loc := Some 0 |}
  /\ Log2Life.LineToPattern arch Spec.exampleLine width height
     = Ok (Pattern.MakeLife105
             (Log2Life.scale arch 10 0 width) (Log2Life.scale arch 0 1 height)
             (Pattern.encode (GoString.bytes Spec.exampleAfterBracket)),
           Spec.exampleInstant)
  /\ Spec.withoutQuotes (GoString.bytes Spec.exampleAfterBracket)
     = GoString.bytes Spec.exampleRemainder
  /\ Pattern.encode (GoString.bytes Spec.exampleAfterBracket)
     = Pattern.encode (GoString.bytes Spec.exampleRemainder).
Proof.
  split; [reflexivity |].
  split; [reflexivity |].
  split; [reflexivity |].
  split; [| split; vm_compute; reflexivity].
  rewrite (LineFacts.LineToPattern_wellformed arch Spec.exampleLine width height
             "10.0.0.1" "-" "-"
             ("[20/Nov/2022:02:27:49 +0000]" ++ Spec.exampleAfterBracket)
             "[20/Nov/2022:02:27:49 +0000" Spec.exampleAfterBracket
             "20/Nov/2022:02:27:49 +0000" Spec.exampleInstant)
    by reflexivity.
  rewrite (AddressFacts.IPToXY_parsed arch "10.0.0.1" width height
             (GoNet.IPv4 [10; 0; 0; 1])) by reflexivity.
  reflexivity.
Qed.

(** C1, refuted as stated. On the default 100 by 100 world the pattern
    of the example line is not the pattern of the request string alone;
    the two fingerprints differ, and changing the trailing status from
    200 to 404 changes the pattern. *)
Lemma LineToPattern_example_not_request_only :
  Log2Life.LineToPattern Float64.amd64 Spec.exampleLine 100 100
  <> Ok (Pattern.MakeLife105 (-47) (-50)
           (Pattern.encode (GoString.bytes Spec.exampleRequest)),
         Spec.exampleInstant)
  /\ Pattern.encode (GoString.bytes Spec.exampleAfterBracket)
     <> Pattern.encode (GoString.bytes Spec.exampleRequest)
  /\ Log2Life.LineToPattern Float64.amd64 Spec.exampleLine 100 100
     <> Log2Life.LineToPattern Float64.amd64 Spec.exampleLine404 100 100.
Proof.
  split; [| split]; vm_compute; intros H; discriminate H.
Qed.

(** C2, at the failing input. The valid dotted address
    255.255.255.255, whose bytes 255.255 the claim names, gets on a
    world of up to 2^53 cells a side the coordinate
    [(W - W/2, H - H/2)], which is not below [W/2] and [H/2]: on the
    default 100 by 100 world it is (50, 50), one cell beyond the
    interval from -50 to 49. The same holds for either half alone: a
    dotted address [255.255.c.d] gets [x = W - W/2] and a dotted
    address [a.b.255.255] gets [y = H - H/2]. *)
Theorem extreme_address_leaves_world (arch : Float64.GOARCH) (width height : Z)
  (Hwidth : 0 < width <= 2 ^ 53) (Hheight : 0 < height <= 2 ^ 53) :
  GoNet.ParseIP "255.255.255.255" = Some (GoNet.IPv4 [255; 255; 255; 255])
  /\ Log2Life.IPToXY arch "255.255.255.255" width height
     = Ok (width - Z.quot width 2, height - Z.quot height 2)
  /\ ~ (- Z.quot width 2 <= width - Z.quot width 2 < Z.quot width 2)
  /\ ~ (- Z.quot height 2 <= height - Z.quot height 2 < Z.quot height 2)
  /\ Log2Life.IPToXY arch "255.255.255.255" 100 100 = Ok (50, 50)
  /\ (forall a b c d,
        Spec.isByte a -> Spec.isByte b -> Spec.isByte c -> Spec.isByte d ->
        (exists y,
           Log2Life.IPToXY arch (Spec.dotted 255 255 c d) width height
           = Ok (width - Z.quot width 2, y))
        /\ (exists x,
              Log2Life.IPToXY arch (Spec.dotted a b 255 255) width height
              = Ok (x, height - Z.quot height 2))).
Proof.
  assert (Hq : forall size, 0 < size -> 0 <= Z.quot size 2 /\ 2 * Z.quot size 2 <= size).
  { intros size H. rewrite Z.quot_div_nonneg by lia.
    split; [apply Z.div_pos; lia | apply Z.mul_div_le; lia]. }
  assert (Hbyte : Spec.isByte 255) by (unfold Spec.isByte; lia).
  split; [reflexivity |].
  split; [apply CoordinateFacts.IPToXY_edge; assumption |].
  split; [pose proof (Hq width ltac:(lia)); lia |].
  split; [pose proof (Hq height ltac:(lia)); lia |].
  split.
  { rewrite (CoordinateFacts.IPToXY_edge arch 100 100) by (split; [lia | discriminate]).
    reflexivity. }
  intros a b c d Ha Hb Hc Hd. split; eexists.
  - rewrite (AddressFacts.IPToXY_parsed arch _ width height
               (GoNet.IPv4 [255; 255; c; d]))
      by (apply ParseFacts.ParseIP_dotted; assumption).
    cbn [nth GoNet.IPv4 GoNet.v4InV6Prefix app].
    rewrite CoordinateFacts.scale_at_edge by assumption. reflexivity.
  - rewrite (AddressFacts.IPToXY_parsed arch _ width height
               (GoNet.IPv4 [a; b; 255; 255]))
      by (apply ParseFacts.ParseIP_dotted; assumption).
    cbn [nth GoNet.IPv4 GoNet.v4InV6Prefix app].
    rewrite CoordinateFacts.scale_at_edge by assumption. reflexivity.
Qed.

(** Witness of C2: the default 100 by 100 world. *)
Lemma extreme_address_leaves_world_witness :
  Log2Life.IPToXY Float64.amd64 "255.255.255.255" 100 100
  = Ok (100 - Z.quot 100 2, 100 - Z.quot 100 2)
  /\ ~ (- Z.quot 100 2 <= 100 - Z.quot 100 2 < Z.quot 100 2).
Proof.
  assert (Hsize : 0 < 100 <= 2 ^ 53) by (split; [lia | discriminate]).
  destruct (extreme_address_leaves_world Float64.amd64 100 100 Hsize Hsize)
    as (_ & Hxy & Hx & _).
  split; [exact Hxy | exact Hx].
Defined.

(** C3, as the code has it. At speed exactly 0, the setting made for
    standard input, the division by zero is carried out in float64 and
    gives an infinity or NaN; the duration converted from it is never
    positive (it is 0 on amd64), so [time.Sleep] does not block, and no
    sleep of a run over standard input blocks. *)
Theorem zero_speed_never_blocks (arch : Float64.GOARCH)
  (lastTime timestamp : GoTime.t) (sgn : bool)
  (SendPattern : nat -> list string -> option string)
  (c : Log2Life.cmdlineArgs) (readErr : option string) (lines : list string) :
  let q := Float64.div
             (Float64.mul
                (Float64.of_int (GoTime.Microseconds (GoTime.Sub timestamp lastTime)))
                Float64.one)
             (S754_zero sgn) in
  (q = S754_nan \/ q = S754_infinity false \/ q = S754_infinity true)
  /\ Log2Life.delayOf arch lastTime timestamp (S754_zero sgn) <= 0
  /\ Log2Life.delayOf Float64.amd64 lastTime timestamp (S754_zero sgn) = 0
  /\ Log2Life.slept (Log2Life.pacing arch lastTime timestamp (S754_zero sgn)) = 0
  /\ Log2Life.speedFor "-" c = S754_zero false
  /\ Spec.neverBlocks (fst (Log2Life.main arch SendPattern "-" c readErr lines)).
Proof.
  cbv zeta.
  pose proof (PacingFacts.delayOf_zero_speed arch lastTime timestamp sgn) as [Hle Hz].
  split; [apply PacingFacts.div_by_zero |].
  split; [exact Hle |].
  split; [exact Hz |].
  split.
  - unfold Log2Life.pacing, Log2Life.slept.
    destruct (GoTime.eqb lastTime GoTime.zero); [reflexivity | lia].
  - split; [reflexivity |].
    unfold Log2Life.main. change (Log2Life.speedFor "-" c) with (S754_zero false).
    apply PacingFacts.scanLoop_zero_speed.
Qed.

(** C3, refuted as stated. At speed -1.0 the delay between the example
    instant and the next second is minus one second, not zero; with the
    two records in the other order it is plus one second, and the sleep
    blocks for that long. *)
Lemma negative_speed_delay_not_zero :
  Log2Life.pacing Float64.amd64 Spec.exampleInstant Spec.exampleNext Spec.speedMinus1
  = Some (-1000000000)
  /\ Log2Life.pacing Float64.amd64 Spec.exampleNext Spec.exampleInstant Spec.speedMinus1
     = Some 1000000000
  /\ Log2Life.slept
       (Log2Life.pacing Float64.amd64 Spec.exampleNext Spec.exampleInstant
          Spec.speedMinus1)
     = 1000000000.
Proof. repeat split; vm_compute; reflexivity. Qed.

(** C4, at the failing input. The one-field line [10.0.0.1] makes
    [LineToPattern] panic on [fields[3]], and the run ends there: the
    lines after it are never read. *)
Theorem short_line_aborts_run (arch : Float64.GOARCH)
  (SendPattern : nat -> list string -> option string)
  (filename : string) (c : Log2Life.cmdlineArgs) (readErr : option string)
  (rest : list string) :
  Log2Life.LineToPattern arch Spec.shortLine (Log2Life.Columns c) (Log2Life.Rows c)
  = Panic "index out of range"
  /\ Log2Life.main arch SendPattern filename c readErr (Spec.shortLine :: rest)
     = ([], Log2Life.Crash "index out of range").
Proof.
  assert (E : Log2Life.LineToPattern arch Spec.shortLine
                (Log2Life.Columns c) (Log2Life.Rows c)
              = Panic "index out of range").
  { apply (LineFacts.LineToPattern_short arch Spec.shortLine _ _ "10.0.0.1" []);
      [reflexivity | simpl; lia | reflexivity]. }
  split; [exact E |].
  unfold Log2Life.main. cbn [Log2Life.scanLoop]. rewrite E. reflexivity.
Qed.

(** C5. Removing every double-quote byte from the payload does not
    change the fingerprint: a quote byte leaves the fold state (the
    eight bytes and the index) as it was. *)
Theorem encode_ignores_quotes (p : list Z) :
  Pattern.encode p = Pattern.encode (Spec.withoutQuotes p)
  /\ (forall st, Pattern.xorStep st 34 = st)
  /\ (forall st, fold_left Pattern.xorStep p st
                 = fold_left Pattern.xorStep (Spec.withoutQuotes p) st).
Proof.
  split; [| split].
  - unfold Pattern.encode. rewrite FoldFacts.fold_withoutQuotes. reflexivity.
  - apply FoldFacts.xorStep_quote.
  - apply FoldFacts.fold_withoutQuotes.
Qed.

(** C6. The fingerprint has exactly 8 bytes, byte [j] being the XOR of
    the non-quote payload bytes whose quote-skipping position is [j]
    modulo 8 (so 0 where there is none); the empty payload gives 8 zero
    bytes. *)
Theorem encode_is_lane_xor (p : list Z) :
  Pattern.encode p = map (Spec.fingerprintByte p) [0; 1; 2; 3; 4; 5; 6; 7]
  /\ List.length (Pattern.encode p) = 8%nat
  /\ Pattern.encode [] = [0; 0; 0; 0; 0; 0; 0; 0].
Proof.
  split; [| split].
  - apply FoldFacts.encode_lanes.
  - apply FoldFacts.encode_length.
  - reflexivity.
Qed.

(** C7. For a coordinate and an 8-byte fingerprint the renderer returns
    the four header lines ([#Life 1.05], the description, [#N] and
    [#P x y] with both numbers in decimal), and then exactly 8 rows of exactly 8 characters, character
    [k] of row [i] being a star iff bit [7 - k] of byte [i] is set and a
    period otherwise. *)
Theorem MakeLife105_shape (x y : Z) (data : list Z)
  (Hlen : List.length data = 8%nat) (Hbytes : Forall Spec.isByte data) :
  Pattern.MakeLife105 x y data = (Spec.header x y ++ map Spec.rowOf data)%list
  /\ Spec.decimalValue (GoString.fmt_d x) = Some x
  /\ Spec.decimalValue (GoString.fmt_d y) = Some y
  /\ List.length (Pattern.MakeLife105 x y data) = 12%nat
  /\ List.length (map Spec.rowOf data) = 8%nat
  /\ Forall (fun r => String.length r = 8%nat) (map Spec.rowOf data)
  /\ forall b k, 0 <= k < 8 ->
       exists c, String.get (Z.to_nat k) (Spec.rowOf b) = Some c
                 /\ (c = "*"%char \/ c = "."%char)
                 /\ (c = "*"%char <-> Z.testbit b (7 - k) = true).
Proof.
  assert (E : Pattern.MakeLife105 x y data
              = (Spec.header x y ++ map Spec.rowOf data)%list).
  { unfold Pattern.MakeLife105. rewrite RenderFacts.rows_spec by exact Hbytes.
    reflexivity. }
  split; [exact E |].
  split; [apply RenderFacts.fmt_d_value |].
  split; [apply RenderFacts.fmt_d_value |].
  split; [rewrite E, length_app, length_map, Hlen; reflexivity |].
  split; [rewrite length_map; exact Hlen |].
  split.
  - apply Forall_forall. intros r Hr. apply in_map_iff in Hr as (b & <- & _).
    apply RenderFacts.rowOf_length.
  - intros b k Hk. exists (Spec.cell b k).
    split; [apply RenderFacts.rowOf_get; exact Hk |].
    split; [apply RenderFacts.cell_two | apply RenderFacts.cell_alive].
Qed.

(** Witness of C7: the fingerprint of the bytes 0, 1, 2, 4, 8, 16, 128
    and 255 at the coordinate (-3, 4). *)
Lemma MakeLife105_shape_witness :
  Pattern.MakeLife105 (-3) 4 [0; 1; 2; 4; 8; 16; 128; 255] =
    ["#Life 1.05"; "#D log2life ouput"; "#N"; "#P -3 4";
     "........"; ".......*"; "......*."; ".....*.."; "....*..."; "...*....";
     "*......."; "********"].
Proof.
  assert (Hb : Forall Spec.isByte [0; 1; 2; 4; 8; 16; 128; 255])
    by (apply (FoldFacts.below_check 256); reflexivity).
  destruct (MakeLife105_shape (-3) 4 [0; 1; 2; 4; 8; 16; 128; 255] eq_refl Hb)
    as (E & _).
  rewrite E. reflexivity.
Defined.




(** C9. The coordinate function returns for every text: either the
    parser gives nil and the coordinate is (0, 0), or it gives sixteen
    bytes, the indices 12 to 15 are in range (no panic), and the
    coordinate is made of those four bytes alone, so that two texts
    whose parsed forms end in the same four bytes get the same
    coordinate. IPv6 text is parsed, not rejected: every well-formed
    IPv6 literal (groups of one to four hexadecimal digits of either
    case, at most one [::], a dotted quad allowed in place of the last
    two groups) parses to the sixteen bytes it denotes and gets the
    coordinate made of its last four bytes, which is the coordinate
    of the dotted IPv4 address made of them. On the default world
    [2001:db8::ff00:42:8329] and [0.66.131.41] both sit at (-50, 1). *)
Theorem IPToXY_total (arch : Float64.GOARCH) (addr : string) (width height : Z)
  (lit : IPv6Text.literal)
  (Hlit : IPv6Text.wellFormed lit = true) :
  match GoNet.ParseIP addr with
  | None => Log2Life.IPToXY arch addr width height = Ok (0, 0)
  | Some ip =>
      List.length ip = 16%nat
      /\ Log2Life.IPToXY arch addr width height =
         Ok (Log2Life.scale arch (nth 12 ip 0) (nth 13 ip 0) width,
             Log2Life.scale arch (nth 14 ip 0) (nth 15 ip 0) height)
  end
  /\ (forall addr4 ip ip4,
        GoNet.ParseIP addr = Some ip ->
        GoNet.ParseIP addr4 = Some ip4 ->
        skipn 12 ip = skipn 12 ip4 ->
        Log2Life.IPToXY arch addr width height
        = Log2Life.IPToXY arch addr4 width height)
  /\ GoNet.ParseIP (IPv6Text.text lit) = Some (IPv6Text.address lit)
  /\ List.length (IPv6Text.address lit) = 16%nat
  /\ Log2Life.IPToXY arch (IPv6Text.text lit) width height
     = Ok (Log2Life.scale arch (nth 12 (IPv6Text.address lit) 0)
             (nth 13 (IPv6Text.address lit) 0) width,
           Log2Life.scale arch (nth 14 (IPv6Text.address lit) 0)
             (nth 15 (IPv6Text.address lit) 0) height)
  /\ Log2Life.IPToXY arch (IPv6Text.text lit) width height
     = Log2Life.IPToXY arch
         (Spec.dotted (nth 12 (IPv6Text.address lit) 0) (nth 13 (IPv6Text.address lit) 0)
            (nth 14 (IPv6Text.address lit) 0) (nth 15 (IPv6Text.address lit) 0))
         width height
  /\ IPv6Text.text IPv6Text.example = Spec.ipv6Example
  /\ GoNet.ParseIP Spec.ipv6Example = Some Spec.ipv6ExampleBytes
  /\ Log2Life.IPToXY arch Spec.ipv6Example 100 100 = Ok (-50, 1)
  /\ Log2Life.IPToXY arch Spec.ipv4Twin 100 100 = Ok (-50, 1).
Proof.
  assert (Hsame : forall a a4 ip ip4,
             GoNet.ParseIP a = Some ip ->
             GoNet.ParseIP a4 = Some ip4 ->
             skipn 12 ip = skipn 12 ip4 ->
             Log2Life.IPToXY arch a width height
             = Log2Life.IPToXY arch a4 width height).
  { intros a a4 ip ip4 H H4 Htail.
    rewrite (AddressFacts.IPToXY_parsed arch a width height ip H).
    rewrite (AddressFacts.IPToXY_parsed arch a4 width height ip4 H4).
    assert (Hn : forall k, nth (12 + k) ip 0 = nth (12 + k) ip4 0).
    { intros k. rewrite <- !nth_skipn. rewrite Htail. reflexivity. }
    pose proof (Hn 0%nat) as H0. pose proof (Hn 1%nat) as H1.
    pose proof (Hn 2%nat) as H2. pose proof (Hn 3%nat) as H3.
    cbn [Nat.add] in H0, H1, H2, H3.
    rewrite H0, H1, H2, H3. reflexivity. }
  pose proof (LiteralFacts.ParseIP_literal lit Hlit) as Hparse.
  pose proof (LiteralFacts.address_length lit Hlit) as Hlen.
  pose proof (AddressFacts.ParseIP_bytes _ _ Hparse) as Hbytes.
  split; [| split; [| split; [| split; [| split; [| split; [| split; [| split;
    [| split]]]]]]]].
  - destruct (GoNet.ParseIP addr) as [ip |] eqn:E.
    + split; [apply (AddressFacts.ParseIP_length addr); exact E |].
      apply AddressFacts.IPToXY_parsed. exact E.
    + apply AddressFacts.IPToXY_unparsed. exact E.
  - intros addr4 ip ip4. apply Hsame.
  - exact Hparse.
  - exact Hlen.
  - apply AddressFacts.IPToXY_parsed. exact Hparse.
  - eapply Hsame;
      [exact Hparse
      | apply ParseFacts.ParseIP_dotted; apply AddressFacts.nth_isByte; exact Hbytes |].
    revert Hlen. generalize (IPv6Text.address lit). intros ip Hlen.
    do 16 (destruct ip as [| ? ip]; [discriminate Hlen |]).
    destruct ip; [reflexivity | discriminate Hlen].
  - reflexivity.
  - reflexivity.
  - destruct arch; vm_compute; reflexivity.
  - destruct arch; vm_compute; reflexivity.
Qed.

(** Witness of C9: the IPv4-mapped literal [::ffff:192.0.2.128] and
    the dotted address 192.0.2.128 on the default 100 by 100 world. *)
Lemma IPToXY_total_witness :
  GoNet.ParseIP "::ffff:192.0.2.128"
  = Some [0; 0; 0; 0; 0; 0; 0; 0; 0; 0; 255; 255; 192; 0; 2; 128]
  /\ Log2Life.IPToXY Float64.amd64 "::ffff:192.0.2.128" 100 100
     = Log2Life.IPToXY Float64.amd64 "192.0.2.128" 100 100.
Proof.
  destruct (IPToXY_total Float64.amd64 "10.0.0.1" 100 100 IPv6Text.mapped eq_refl)
    as (_ & _ & Hparse & _ & _ & Hxy & _).
  split; [exact Hparse | exact Hxy].
Defined.

(** C10. When every payload byte is below 128, so is every fingerprint
    byte, and each of the 8 rendered rows starts with a period: the
    leftmost column of the grid is dead. *)
Theorem ascii_payload_dead_first_column (p : list Z) (x y : Z)
  (Hp : Forall Spec.isAscii7 p) :
  Forall Spec.isAscii7 (Pattern.encode p)
  /\ Forall (fun b => Z.testbit b 7 = false) (Pattern.encode p)
  /\ List.length (skipn 4 (Pattern.MakeLife105 x y (Pattern.encode p))) = 8%nat
  /\ Forall (fun r => String.get 0 r = Some "."%char)
            (skipn 4 (Pattern.MakeLife105 x y (Pattern.encode p))).
Proof.
  pose proof (FoldFacts.encode_ascii7 p Hp) as H7.
  split; [exact H7 |].
  split.
  - apply Forall_forall. intros b Hb. rewrite Forall_forall in H7.
    destruct (H7 b Hb) as [Hlo Hhi].
    destruct (Z.eq_dec b 0) as [-> | Hnz]; [reflexivity |].
    apply Z.bits_above_log2; [lia |].
    apply Z.log2_lt_pow2; lia.
  - unfold Pattern.MakeLife105. simpl skipn.
    split; [rewrite length_map; apply FoldFacts.encode_length |].
    apply Forall_forall. intros r Hr. apply in_map_iff in Hr as (b & <- & Hb).
    rewrite Forall_forall in H7. apply RenderFacts.row_ascii7, H7, Hb.
Qed.

(** Witness of C10: the request [GET / HTTP/1.1]. *)
Lemma ascii_payload_dead_first_column_witness :
  Forall (fun r => String.get 0 r = Some "."%char)
         (skipn 4 (Pattern.MakeLife105 0 0
                     (Pattern.encode (GoString.bytes Spec.exampleRequest)))).
Proof.
  assert (Hp : Forall Spec.isAscii7 (GoString.bytes Spec.exampleRequest))
    by (apply (FoldFacts.below_check 128); reflexivity).
  exact (proj2 (proj2 (proj2
           (ascii_payload_dead_first_column
              (GoString.bytes Spec.exampleRequest) 0 0 Hp)))).
Defined.

(* ================================================================= *)
(** * Further properties *)

(** X1. [LineToPattern] returns a pattern exactly for the lines made of
    an address, two more fields and a bracket field, one space between
    each: the address has no space, is not [-] and is not blank; the
    two fields have no space; the bracket field is any one byte but
    [\]], a text without [\]] that parses as a timestamp, a [\]] and
    the payload. The pattern is then the rendering of the address's
    coordinate and of the fold of the payload, and the instant
    returned is the parsed one. *)
Theorem LineToPattern_accepts_iff (arch : Float64.GOARCH) (line : string)
  (width height : Z) (pattern : list string) (ts : GoTime.t) :
  Log2Life.LineToPattern arch line width height = Ok (pattern, ts) <->
  exists addr ident user c stamp rest x y,
    line = addr ++ " " ++ ident ++ " " ++ user ++ " " ++ String c stamp ++ "]" ++ rest
    /\ Vocabulary.free " " addr = true
    /\ Vocabulary.free " " ident = true
    /\ Vocabulary.free " " user = true
    /\ Vocabulary.free "]" (String c stamp) = true
    /\ addr <> "-" /\ GoString.TrimSpace addr <> ""
    /\ GoTime.Parse stamp = Ok ts
    /\ Log2Life.IPToXY arch addr width height = Ok (x, y)
    /\ pattern = Pattern.MakeLife105 x y (Pattern.encode (GoString.bytes rest)).
Proof.
  rewrite OutcomeFacts.LineToPattern_eq. split.
  - intros H.
    destruct (String.eqb (Vocabulary.firstField line) "-"
              || String.eqb (GoString.TrimSpace (Vocabulary.firstField line)) "")
      eqn:Htest; [discriminate |].
    apply OutcomeFacts.address_test in Htest as [Hdash Hblank].
    destruct (Log2Life.IPToXY arch (Vocabulary.firstField line) width height)
      as [[x y] | e | w] eqn:Hxy; cbn [bind] in H; try discriminate.
    destruct (SplitFacts.SplitN_4_head line) as (more & Hhead & _).
    destruct (GoString.SplitN line " " 4) as [| f0 [| f1 [| f2 [| f3 [| f4 l]]]]] eqn:Hs;
      try discriminate.
    injection Hhead as Hf0 _.
    apply SplitFacts.SplitN_4_inv in Hs as (Hline & F0 & F1 & F2).
    unfold Vocabulary.bracketField in H.
    destruct f3 as [| c r]; [discriminate |].
    destruct (GoString.cut "]" (String c r)) as [[g0 g1] |] eqn:Hcut.
    + destruct g0 as [| c' stamp]; [discriminate |].
      destruct (GoTime.Parse stamp) as [ts' | e | w] eqn:Hparse; try discriminate.
      injection H as <- <-.
      apply SplitFacts.cut_inv in Hcut as [Hf3 Fg].
      exists f0, f1, f2, c', stamp, g1, x, y.
      subst f0. rewrite Hf3 in Hline.
      split; [exact Hline |]. auto 12.
    + destruct (GoTime.Parse r); discriminate.
  - intros (addr & ident & user & c & stamp & rest & x & y & -> & F0 & F1 & F2 & Fg
            & Hdash & Hblank & Hparse & Hxy & ->).
    rewrite <- OutcomeFacts.LineToPattern_eq.
    rewrite (OutcomeFacts.LineToPattern_built arch addr ident user c stamp rest ts
               width height F0 F1 F2 Fg Hdash Hblank Hparse).
    rewrite Hxy. reflexivity.
Qed.

(** X2. [LineToPattern] returns an error in two cases only. It
    returns the missing address exactly when the text before the first
    space is [-] or is blank, whatever follows it: such a line never
    panics. Otherwise it returns an error exactly when [time.Parse]
    returns one for the timestamp text of this very line (the fourth
    field from its second byte up to the first closing bracket, or up
    to its end when it has none), and the error is that one. *)
Theorem LineToPattern_errors (arch : Float64.GOARCH) (line : string)
  (width height : Z) :
  (Log2Life.LineToPattern arch line width height = Err "No client IP address"
   <-> Vocabulary.firstField line = "-"
       \/ GoString.TrimSpace (Vocabulary.firstField line) = "")
  /\ (forall e,
        Log2Life.LineToPattern arch line width height = Err e <->
        (e = "No client IP address"
         /\ (Vocabulary.firstField line = "-"
             \/ GoString.TrimSpace (Vocabulary.firstField line) = ""))
        \/ (Vocabulary.firstField line <> "-"
            /\ GoString.TrimSpace (Vocabulary.firstField line) <> ""
            /\ exists stamp,
                 Vocabulary.stampOf line = Some stamp
                 /\ GoTime.Parse stamp = Err e)).
Proof.
  assert (Hother :
    forall e,
      String.eqb (Vocabulary.firstField line) "-"
      || String.eqb (GoString.TrimSpace (Vocabulary.firstField line)) "" = false ->
      (Log2Life.LineToPattern arch line width height = Err e <->
       exists stamp, Vocabulary.stampOf line = Some stamp
                     /\ GoTime.Parse stamp = Err e)).
  { intros e Htest. rewrite OutcomeFacts.LineToPattern_eq, Htest.
    destruct (LineFacts.IPToXY_returns arch (Vocabulary.firstField line) width height)
      as [[x y] ->]. cbn [bind].
    unfold Vocabulary.stampOf.
    destruct (GoString.SplitN line " " 4) as [| f0 [| f1 [| f2 [| f3 [| f4 l]]]]];
      try (split; [discriminate | intros (stamp & H & _); discriminate]).
    unfold Vocabulary.bracketField.
    destruct f3 as [| c r].
    { cbn [GoString.cut].
      split; [discriminate | intros (stamp & H & _); discriminate]. }
    destruct (GoString.cut "]" (String c r)) as [[[| c' stamp] g1] |].
    - split; [discriminate | intros (stamp & H & _); discriminate].
    - destruct (GoTime.Parse stamp) as [ts | e' | w] eqn:Hp.
      + split; [discriminate | intros (s & H & Hs)]. injection H as <-. congruence.
      + split.
        * intros H. injection H as <-. exists stamp. auto.
        * intros (s & H & Hs). injection H as <-. congruence.
      + exfalso. exact (StampFacts.Parse_no_panic _ _ Hp).
    - destruct (GoTime.Parse r) as [ts | e' | w] eqn:Hp.
      + split; [discriminate | intros (s & H & Hs)]. injection H as <-. congruence.
      + split.
        * intros H. injection H as <-. exists r. auto.
        * intros (s & H & Hs). injection H as <-. congruence.
      + exfalso. exact (StampFacts.Parse_no_panic _ _ Hp). }
  assert (Hmissing :
    String.eqb (Vocabulary.firstField line) "-"
    || String.eqb (GoString.TrimSpace (Vocabulary.firstField line)) "" = true ->
    Log2Life.LineToPattern arch line width height = Err "No client IP address").
  { intros Htest. rewrite OutcomeFacts.LineToPattern_eq, Htest. reflexivity. }
  destruct (String.eqb (Vocabulary.firstField line) "-"
            || String.eqb (GoString.TrimSpace (Vocabulary.firstField line)) "")
    eqn:Htest.
  - specialize (Hmissing eq_refl).
    apply OutcomeFacts.address_test_true in Htest.
    split; [split; [intros _; exact Htest | intros _; exact Hmissing] |].
    intros e. split.
    + intros H. left. split; [congruence | exact Htest].
    + intros [[-> _] | (Hd & Hb & _)]; [exact Hmissing | tauto].
  - pose proof (proj1 (OutcomeFacts.address_test _) Htest) as [Hd Hb].
    split.
    + split; [| tauto].
      intros H. apply (Hother _ eq_refl) in H as (stamp & _ & Hp).
      apply StampFacts.Parse_error in Hp. discriminate Hp.
    + intros e. rewrite (Hother e eq_refl). split.
      * intros H. right. auto.
      * intros [[_ [H | H]] | (_ & _ & H)]; [tauto | tauto | exact H].
Qed.

(** X3. [LineToPattern] panics exactly on the lines that pass the
    address test and then either have fewer than four fields (index
    out of range on [fields[3]]), or have a fourth field that is empty
    or starts with the closing bracket (slice bounds out of range on
    [fields[0][1:]]), or have a fourth field without closing bracket
    whose text after the first byte parses as a timestamp (index out
    of range on [fields[1]]). *)
Theorem LineToPattern_panics_iff (arch : Float64.GOARCH) (line : string)
  (width height : Z) (why : string) :
  Log2Life.LineToPattern arch line width height = Panic why <->
  Vocabulary.firstField line <> "-"
  /\ GoString.TrimSpace (Vocabulary.firstField line) <> ""
  /\ ((why = "index out of range"
       /\ (List.length (GoString.SplitN line " " 4) < 4)%nat)
      \/ exists f0 f1 f2 f3,
           GoString.SplitN line " " 4 = [f0; f1; f2; f3]
           /\ ((why = "slice bounds out of range"
                /\ (f3 = "" \/ exists r, f3 = String "]" r))
               \/ (why = "index out of range"
                   /\ Vocabulary.free "]" f3 = true
                   /\ exists c stamp ts,
                        f3 = String c stamp /\ GoTime.Parse stamp = Ok ts))).
Proof.
  rewrite OutcomeFacts.LineToPattern_eq.
  destruct (String.eqb (Vocabulary.firstField line) "-"
            || String.eqb (GoString.TrimSpace (Vocabulary.firstField line)) "")
    eqn:Htest.
  - apply OutcomeFacts.address_test_true in Htest.
    split; [discriminate | intros (Hd & Hb & _); tauto].
  - apply OutcomeFacts.address_test in Htest as [Hd Hb].
    destruct (LineFacts.IPToXY_returns arch (Vocabulary.firstField line) width height)
      as [[x y] ->]. cbn [bind].
    destruct (SplitFacts.SplitN_4_head line) as (more & Hhead & Hlen).
    rewrite Hhead.
    destruct more as [| f1 [| f2 [| f3 [| f4 more]]]]; [| | | | simpl in Hlen; lia].
    1-3: split;
      [ intros H; injection H as <-; split; [exact Hd |]; split; [exact Hb |];
        left; split; [reflexivity | simpl; lia]
      | intros (_ & _ & [[-> _] | (g0 & g1 & g2 & g3 & Hs & _)]);
        [reflexivity | discriminate] ].
    rewrite OutcomeFacts.bracketField_panic. split.
    + intros H. split; [exact Hd |]. split; [exact Hb |]. right.
      exists (Vocabulary.firstField line), f1, f2, f3. split; [reflexivity | exact H].
    + intros (_ & _ & [[_ Hn] | (g0 & g1 & g2 & g3 & Hs & H)]).
      * simpl in Hn. lia.
      * injection Hs as _ _ _ <-. exact H.
Qed.

(** X4. The renderer loses nothing: reading the [#P] line and the rows
    of the document [MakeLife105] returns gives back the coordinate
    and the bytes it was made of, so two documents are equal only for
    equal coordinates and equal bytes. *)
Theorem MakeLife105_reads_back (x y : Z) (data : list Z)
  (Hbytes : Forall Spec.isByte data) :
  Vocabulary.decode (Pattern.MakeLife105 x y data) = Some (x, y, data)
  /\ forall x' y' data',
       Forall Spec.isByte data' ->
       Pattern.MakeLife105 x y data = Pattern.MakeLife105 x' y' data' ->
       x = x' /\ y = y' /\ data = data'.
Proof.
  split; [apply DocumentFacts.decode_MakeLife105, Hbytes |].
  intros x' y' data' Hbytes' E.
  pose proof (DocumentFacts.decode_MakeLife105 x y data Hbytes) as D.
  rewrite E, (DocumentFacts.decode_MakeLife105 x' y' data' Hbytes') in D.
  injection D as -> -> ->. auto.
Qed.

(** Witness of X4: the bytes 0, 1, 2, 4, 8, 16, 128 and 255 at the
    coordinate (-3, 4). *)
Lemma MakeLife105_reads_back_witness :
  Vocabulary.decode (Pattern.MakeLife105 (-3) 4 [0; 1; 2; 4; 8; 16; 128; 255])
  = Some (-3, 4, [0; 1; 2; 4; 8; 16; 128; 255]).
Proof.
  assert (Hb : Forall Spec.isByte [0; 1; 2; 4; 8; 16; 128; 255])
    by (apply (FoldFacts.below_check 256); reflexivity).
  exact (proj1 (MakeLife105_reads_back (-3) 4 [0; 1; 2; 4; 8; 16; 128; 255] Hb)).
Defined.

(** X5. [SendPattern] posts the lines of the pattern joined by line
    feeds as [text/plain] to [http://host:port]. For a rendered
    pattern no line holds a line feed, so cutting the body at every
    line feed gives back the lines, twelve of them for an 8-byte
    fingerprint and none empty at the end. The call returns nil
    exactly when the POST succeeded and the body of the response was
    read without error. *)
Theorem SendPattern_body (post : Wire.request -> Wire.reply) (host : string)
  (port x y : Z) (data : list Z) :
  let pattern := Pattern.MakeLife105 x y data in
  let req := Wire.requestOf host port pattern in
  Vocabulary.splitOn Wire.lf (Wire.body req) = pattern
  /\ Wire.contentType req = "text/plain"
  /\ Wire.url req = "http://" ++ host ++ ":" ++ GoString.fmt_d port
  /\ (Wire.SendPattern post host port pattern = None
      <-> post req = Wire.Response None)
  /\ (forall err, post req = Wire.PostFailed err ->
        Wire.SendPattern post host port pattern = Some err).
Proof.
  cbv zeta. split.
  - unfold Wire.requestOf, Wire.body, Wire.newline.
    apply DocumentFacts.splitOn_Join; [discriminate |].
    apply DocumentFacts.MakeLife105_lines.
  - split; [reflexivity |]. split; [reflexivity |]. unfold Wire.SendPattern. split.
    + destruct (post _) as [err | [e |]]; split; congruence.
    + intros err ->. reflexivity.
Qed.

(** X6. From the line to the wire: whenever [LineToPattern] accepts a
    line, the pattern has twelve lines, the instant returned is not
    the zero time, and the body [SendPattern] posts for it reads back
    as the coordinate of the line's first field and a fingerprint of
    exactly eight bytes. *)
Theorem accepted_line_on_the_wire (arch : Float64.GOARCH) (line : string)
  (width height : Z) (pattern : list string) (ts : GoTime.t)
  (host : string) (port : Z)
  (Haccepted : Log2Life.LineToPattern arch line width height = Ok (pattern, ts)) :
  exists x y fingerprint,
    Log2Life.IPToXY arch (Vocabulary.firstField line) width height = Ok (x, y)
    /\ List.length fingerprint = 8%nat
    /\ Forall Spec.isByte fingerprint
    /\ List.length pattern = 12%nat
    /\ GoTime.eqb ts GoTime.zero = false
    /\ Vocabulary.decode
         (Vocabulary.splitOn Wire.lf
            (Wire.body (Wire.requestOf host port pattern)))
       = Some (x, y, fingerprint).
Proof.
  pose proof (OutcomeFacts.LineToPattern_stamp _ _ _ _ _ _ Haccepted) as Hts.
  apply OutcomeFacts.LineToPattern_ok in Haccepted
    as (x & y & rest & stamp & Hxy & -> & _).
  exists x, y, (Pattern.encode (GoString.bytes rest)).
  assert (Hb : Forall Spec.isByte (Pattern.encode (GoString.bytes rest)))
    by apply FoldFacts.encode_bytes, OutcomeFacts.bytes_isByte.
  split; [exact Hxy |]. split; [apply FoldFacts.encode_length |].
  split; [exact Hb |]. split.
  { unfold Pattern.MakeLife105. rewrite length_app, length_map, FoldFacts.encode_length.
    reflexivity. }
  split; [exact Hts |].
  unfold Wire.requestOf, Wire.body, Wire.newline.
  rewrite DocumentFacts.splitOn_Join;
    [| discriminate | apply DocumentFacts.MakeLife105_lines].
  apply DocumentFacts.decode_MakeLife105, Hb.
Qed.

(** Witness of X6: the example line on the default 100 by 100 world. *)
Lemma accepted_line_on_the_wire_witness :
  exists x y fingerprint,
    Log2Life.IPToXY Float64.amd64 (Vocabulary.firstField Spec.exampleLine) 100 100
    = Ok (x, y)
    /\ List.length fingerprint = 8%nat
    /\ Vocabulary.decode
         (Vocabulary.splitOn Wire.lf
            (Wire.body
               (Wire.requestOf "127.0.0.1" 3051
                  (Pattern.MakeLife105 (-47) (-50)
                     (Pattern.encode (GoString.bytes Spec.exampleAfterBracket))))))
       = Some (x, y, fingerprint).
Proof.
  assert (H : Log2Life.LineToPattern Float64.amd64 Spec.exampleLine 100 100
              = Ok (Pattern.MakeLife105 (-47) (-50)
                      (Pattern.encode (GoString.bytes Spec.exampleAfterBracket)),
                    Spec.exampleInstant))
    by (vm_compute; reflexivity).
  destruct (accepted_line_on_the_wire Float64.amd64 Spec.exampleLine 100 100 _ _
              "127.0.0.1" 3051 H)
    as (x & y & fp & Hxy & Hlen & _ & _ & _ & Hdec).
  exists x, y, fp. auto.
Defined.

(** X7. What a run posts is, in input order, the pattern of every line
    [LineToPattern] accepts up to the first line that panics, each
    once; a rejected line posts nothing. The same patterns are echoed.
    Neither the speed, nor the answers of the network, nor the read
    error the scanner ends on changes what is posted. *)
Theorem main_posts_in_order (arch : Float64.GOARCH)
  (SendPattern : nat -> list string -> option string)
  (filename : string) (c : Log2Life.cmdlineArgs) (readErr : option string)
  (lines : list string) :
  let evs := fst (Log2Life.main arch SendPattern filename c readErr lines) in
  Vocabulary.posts evs
  = map fst (Vocabulary.delivered arch (Log2Life.Columns c) (Log2Life.Rows c) lines)
  /\ Vocabulary.echoes evs = Vocabulary.posts evs
  /\ (List.length (Vocabulary.posts evs) <= List.length lines)%nat.
Proof.
  cbv zeta. unfold Log2Life.main.
  destruct (TraceFacts.scanLoop_posts arch SendPattern c
              (Log2Life.speedFor filename c) readErr lines 0%nat GoTime.zero)
    as [Hp He].
  rewrite Hp, He. split; [reflexivity |]. split; [reflexivity |].
  rewrite length_map. clear Hp He.
  induction lines as [| line rest IH]; cbn [Vocabulary.delivered List.length];
    [lia |].
  destruct (Log2Life.LineToPattern arch line (Log2Life.Columns c) (Log2Life.Rows c));
    cbn [List.length]; lia.
Qed.

(** X8. Whatever [SendPattern] returns, and so whatever the network
    answers, shows in the [ERROR:] lines of the run and nowhere else:
    two runs over the same input that differ in the answers only have
    the same trace once those lines are left out, and the same
    ending. *)
Theorem main_ignores_post_results (arch : Float64.GOARCH)
  (send1 send2 : nat -> list string -> option string)
  (net1 net2 : nat -> Wire.request -> Wire.reply)
  (filename : string) (c : Log2Life.cmdlineArgs) (readErr : option string)
  (lines : list string) :
  (Vocabulary.withoutPostErrors
     (fst (Log2Life.main arch send1 filename c readErr lines))
   = Vocabulary.withoutPostErrors
       (fst (Log2Life.main arch send2 filename c readErr lines))
   /\ snd (Log2Life.main arch send1 filename c readErr lines)
      = snd (Log2Life.main arch send2 filename c readErr lines))
  /\ (Vocabulary.withoutPostErrors (fst (Wire.run arch net1 filename c readErr lines))
      = Vocabulary.withoutPostErrors (fst (Wire.run arch net2 filename c readErr lines))
      /\ snd (Wire.run arch net1 filename c readErr lines)
         = snd (Wire.run arch net2 filename c readErr lines)).
Proof.
  unfold Wire.run, Log2Life.main.
  split; apply TraceFacts.scanLoop_transport.
Qed.

(** X9. A run ends with the scanner's status (0, or 1 after a read
    error) exactly when no line panics. Otherwise it ends in the panic
    of the first such line, and its trace is that of the lines before
    it: nothing of the panicking line and nothing after it shows, not
    even the read error. *)
Theorem main_ending (arch : Float64.GOARCH)
  (SendPattern : nat -> list string -> option string)
  (filename : string) (c : Log2Life.cmdlineArgs) (readErr : option string)
  (lines : list string) :
  (Vocabulary.panicFree arch (Log2Life.Columns c) (Log2Life.Rows c) lines
   <-> snd (Log2Life.main arch SendPattern filename c readErr lines)
       = Log2Life.Exit (match readErr with Some _ => 1 | None => 0 end))
  /\ (forall before line after why,
        lines = (before ++ line :: after)%list ->
        Vocabulary.panicFree arch (Log2Life.Columns c) (Log2Life.Rows c) before ->
        Log2Life.LineToPattern arch line (Log2Life.Columns c) (Log2Life.Rows c)
        = Panic why ->
        Log2Life.main arch SendPattern filename c readErr lines
        = (fst (Log2Life.main arch SendPattern filename c None before),
           Log2Life.Crash why)).
Proof.
  unfold Log2Life.main. split.
  - split.
    + intros H. apply RunFacts.scanLoop_ending. exact H.
    + apply TraceFacts.scanLoop_exit.
  - intros before line after why -> Hfree Hline.
    apply TraceFacts.scanLoop_cut; assumption.
Qed.

(** X10. The pacing of a run, in order. Leaving out the log lines,
    the trace of a run is made of the accepted records one after the
    other, up to the first line that panics: for the first accepted
    record the pattern echoed and then posted; for every later one
    the delay announced, then the same delay slept, then the pattern
    echoed, then posted. The delay is the one computed from the
    record's own instant and the instant of the accepted record before
    it, so rejected lines in between do not count. Hence the sleeps
    are the delays between consecutive accepted instants, each
    announced, and there is one sleep less than there are posts. *)
Theorem main_paces_accepted_lines (arch : Float64.GOARCH)
  (SendPattern : nat -> list string -> option string)
  (filename : string) (c : Log2Life.cmdlineArgs) (readErr : option string)
  (lines : list string) :
  let evs := fst (Log2Life.main arch SendPattern filename c readErr lines) in
  let records :=
    Vocabulary.delivered arch (Log2Life.Columns c) (Log2Life.Rows c) lines in
  let stamps := map snd records in
  let delay :=
    fun a b => Log2Life.delayOf arch a b (Log2Life.speedFor filename c) in
  Vocabulary.withoutReports evs = Vocabulary.paced delay None records
  /\ Vocabulary.sleeps evs
     = match stamps with
       | [] => []
       | first :: others => Vocabulary.gaps delay first others
       end
  /\ Vocabulary.announced evs = Vocabulary.sleeps evs
  /\ List.length (Vocabulary.sleeps evs) = Nat.pred (List.length (Vocabulary.posts evs)).
Proof.
  cbv zeta. unfold Log2Life.main.
  split.
  { rewrite TraceFacts.scanLoop_paced. reflexivity. }
  destruct (TraceFacts.scanLoop_sleeps_first arch SendPattern c
              (Log2Life.speedFor filename c) readErr lines 0%nat) as [Hs Ha].
  destruct (TraceFacts.scanLoop_posts arch SendPattern c
              (Log2Life.speedFor filename c) readErr lines 0%nat GoTime.zero)
    as [Hp _].
  rewrite Hs, Ha, Hp. split; [reflexivity |]. split; [reflexivity |].
  rewrite length_map, <- (length_map snd).
  destruct (map snd _) as [| first others]; [reflexivity |].
  rewrite TraceFacts.gaps_length. reflexivity.
Qed.

(** X11. The two revisions of [LineToPattern]: where the later one
    accepts a line, the earlier one accepts it with the same pattern;
    the earlier one returns no error but the missing address, and
    returns it exactly where the later one does; and the earlier one
    panics with an index out of range only. *)
Theorem earlier_LineToPattern_agrees (arch : Float64.GOARCH) (line : string)
  (width height : Z) :
  (forall pattern ts,
     Log2Life.LineToPattern arch line width height = Ok (pattern, ts) ->
     Earlier.LineToPattern arch line width height = Ok pattern)
  /\ (forall e,
        Earlier.LineToPattern arch line width height = Err e <->
        e = "No client IP address"
        /\ Log2Life.LineToPattern arch line width height = Err e)
  /\ (forall why,
        Earlier.LineToPattern arch line width height = Panic why ->
        why = "index out of range").
Proof.
  split; [intros pattern ts; apply EarlierFacts.later_ok |].
  split; [intros e; apply EarlierFacts.earlier_err |].
  intros why. rewrite EarlierFacts.earlier_eq.
  destruct (_ || _); [discriminate |].
  destruct (Log2Life.IPToXY arch (Vocabulary.firstField line) width height)
    as [[x y] | e | w] eqn:Hxy; cbn [bind].
  - intros H.
    destruct (GoString.SplitN line " " 4) as [| f0 [| f1 [| f2 [| f3 [| f4 l]]]]];
      try (injection H as <-; reflexivity).
    destruct (GoString.cut "]" f3) as [[g0 g1] |];
      [discriminate | injection H as <-; reflexivity].
  - discriminate.
  - destruct (LineFacts.IPToXY_returns arch (Vocabulary.firstField line) width height)
      as [xy Hok]. congruence.
Qed.

(** X12. The earlier revision reads no timestamp: it returns a pattern
    exactly for the lines made of an address that passes the test, two
    fields without space, and a fourth field with a closing bracket in
    it, whatever stands before that bracket, nothing included. The
    pattern is the rendering of the address's coordinate and of the
    fold of what follows the first closing bracket. *)
Theorem earlier_LineToPattern_accepts_iff (arch : Float64.GOARCH) (line : string)
  (width height : Z) (pattern : list string) :
  Earlier.LineToPattern arch line width height = Ok pattern <->
  exists addr ident user bracketed rest x y,
    line = addr ++ " " ++ ident ++ " " ++ user ++ " " ++ bracketed ++ "]" ++ rest
    /\ Vocabulary.free " " addr = true
    /\ Vocabulary.free " " ident = true
    /\ Vocabulary.free " " user = true
    /\ Vocabulary.free "]" bracketed = true
    /\ addr <> "-" /\ GoString.TrimSpace addr <> ""
    /\ Log2Life.IPToXY arch addr width height = Ok (x, y)
    /\ pattern = Pattern.MakeLife105 x y (Pattern.encode (GoString.bytes rest)).
Proof.
  rewrite EarlierFacts.earlier_eq. split.
  - intros H.
    destruct (String.eqb (Vocabulary.firstField line) "-"
              || String.eqb (GoString.TrimSpace (Vocabulary.firstField line)) "")
      eqn:Htest; [discriminate |].
    apply OutcomeFacts.address_test in Htest as [Hdash Hblank].
    destruct (Log2Life.IPToXY arch (Vocabulary.firstField line) width height)
      as [[x y] | e | w] eqn:Hxy; cbn [bind] in H; try discriminate.
    destruct (SplitFacts.SplitN_4_head line) as (more & Hhead & _).
    destruct (GoString.SplitN line " " 4) as [| f0 [| f1 [| f2 [| f3 [| f4 l]]]]] eqn:Hs;
      try discriminate.
    injection Hhead as Hf0 _.
    apply SplitFacts.SplitN_4_inv in Hs as (Hline & F0 & F1 & F2).
    destruct (GoString.cut "]" f3) as [[g0 g1] |] eqn:Hcut; [| discriminate].
    injection H as <-.
    apply SplitFacts.cut_inv in Hcut as [Hf3 Fg].
    exists f0, f1, f2, g0, g1, x, y.
    subst f0. rewrite Hf3 in Hline.
    split; [exact Hline |]. auto 12.
  - intros (addr & ident & user & g0 & rest & x & y & -> & F0 & F1 & F2 & Fg
            & Hdash & Hblank & Hxy & ->).
    assert (Hfirst : Vocabulary.firstField
                       (addr ++ " " ++ ident ++ " " ++ user ++ " "
                        ++ g0 ++ "]" ++ rest) = addr).
    { unfold Vocabulary.firstField. cbn [append].
      rewrite (SplitFacts.cut_app " " addr _ F0). reflexivity. }
    rewrite Hfirst.
    rewrite (proj2 (OutcomeFacts.address_test addr) (conj Hdash Hblank)).
    rewrite Hxy. cbn [bind].
    change (addr ++ " " ++ ident ++ " " ++ user ++ " " ++ g0 ++ "]" ++ rest)
      with (addr ++ String " " (ident ++ String " " (user ++ String " "
              (g0 ++ String "]" rest)))).
    rewrite (SplitFacts.SplitN_4_fields " " addr ident user _ F0 F1 F2).
    rewrite (SplitFacts.cut_app "]" g0 rest Fg). reflexivity.
Qed.

(** X13. The two revisions of [main], from their first line, with the
    same host, port, speed and world size, over lines that the later
    revision accepts or rejects for their address.
    - Reading standard input (file name [-]): the later revision
      prints the realtime banner, the earlier one prints no banner.
    - Reading a file that [os.Stat] and [os.Open] accept: both print
      the same playback banner.
    In both cases the later run is then the earlier run with the
    pacing added, and they end alike.
    - A file that [os.Open] refuses: the later revision fails without
      a banner; the earlier one fails without a banner if [os.Stat]
      refuses the file too, and after the playback banner if not.
    - A file that [os.Stat] refuses and [os.Open] accepts: the earlier
      revision fails where the later one replays the file. *)
Theorem earlier_main_agrees (arch : Float64.GOARCH)
  (SendPattern : nat -> list string -> option string)
  (filename : string) (c : Log2Life.cmdlineArgs) (c' : Earlier.cmdlineArgs)
  (statErr openErr readErr : option string) (lines : list string)
  (Hwidth : Earlier.Width c' = Log2Life.Columns c)
  (Hheight : Earlier.Height c' = Log2Life.Rows c)
  (Hhost : Earlier.Host c' = Log2Life.Host c)
  (Hport : Earlier.Port c' = Log2Life.Port c)
  (Hspeed : Earlier.Speed c' = Log2Life.Speed c)
  (Htimely : Forall (Vocabulary.timely arch (Log2Life.Columns c) (Log2Life.Rows c))
               lines) :
  let later := Startup.main arch SendPattern filename c openErr readErr lines in
  let earlier :=
    Earlier.main arch SendPattern filename c' statErr openErr readErr lines in
  let playback :=
    Startup.Playback filename (Log2Life.Host c) (Log2Life.Port c) (Log2Life.Speed c) in
  (filename = "-" ->
     Startup.heading later
     = Some (Startup.Realtime (Log2Life.Host c) (Log2Life.Port c))
     /\ Startup.heading earlier = None
     /\ Vocabulary.withoutPacing (Startup.trace later) = Startup.trace earlier
     /\ Startup.status later = Startup.status earlier)
  /\ (filename <> "-" -> statErr = None -> openErr = None ->
        Startup.heading later = Some playback
        /\ Startup.heading earlier = Some playback
        /\ Vocabulary.withoutPacing (Startup.trace later) = Startup.trace earlier
        /\ Startup.status later = Startup.status earlier)
  /\ (forall err, filename <> "-" -> openErr = Some err ->
        later = Startup.fatal None err
        /\ earlier = match statErr with
                     | Some err' => Startup.fatal None err'
                     | None => Startup.fatal (Some playback) err
                     end)
  /\ (forall err, filename <> "-" -> statErr = Some err -> openErr = None ->
        earlier = Startup.fatal None err
        /\ later = Startup.under (Some playback)
                     (Log2Life.main arch SendPattern filename c readErr lines)).
Proof.
  cbv zeta. unfold Startup.main, Earlier.main.
  pose proof (EarlierFacts.scanLoop_agree arch SendPattern c c'
                (Log2Life.speedFor filename c) readErr lines Hwidth Hheight Htimely
                0%nat GoTime.zero) as [Hevs Hfin].
  fold (Log2Life.main arch SendPattern filename c readErr lines) in Hevs, Hfin.
  rewrite Hhost, Hport, Hspeed.
  destruct (String.eqb_spec filename "-") as [Hname | Hname].
  - split; [intros _; cbn; auto |].
    split; [intros H; contradiction |].
    split; intros err H; contradiction.
  - split; [intros H; contradiction |].
    split; [intros _ -> ->; cbn; auto |].
    split.
    + intros err _ ->. split; [reflexivity |]. destruct statErr; reflexivity.
    + intros err _ -> ->. split; reflexivity.
Qed.

(** Witness of X13: the example log, read from the file [access.log]
    that opens, on the default world. *)
Lemma earlier_main_agrees_witness :
  Startup.heading
    (Startup.main Float64.amd64 Vocabulary.quietNetwork "access.log" Log2Life.cfg
       None None Vocabulary.exampleLog)
  = Startup.heading
      (Earlier.main Float64.amd64 Vocabulary.quietNetwork "access.log" Earlier.cfg
         None None None Vocabulary.exampleLog)
  /\ Vocabulary.withoutPacing
       (Startup.trace
          (Startup.main Float64.amd64 Vocabulary.quietNetwork "access.log" Log2Life.cfg
             None None Vocabulary.exampleLog))
     = Startup.trace
         (Earlier.main Float64.amd64 Vocabulary.quietNetwork "access.log" Earlier.cfg
            None None None Vocabulary.exampleLog).
Proof.
  assert (Htimely : Forall (Vocabulary.timely Float64.amd64 100 100)
                      Vocabulary.exampleLog).
  { apply Forall_cons; [| apply Forall_cons; [| apply Forall_cons; [| apply Forall_nil]]].
    - left. eexists. eexists. vm_compute. reflexivity.
    - right. vm_compute. reflexivity.
    - left. eexists. eexists. vm_compute. reflexivity. }
  destruct (earlier_main_agrees Float64.amd64 Vocabulary.quietNetwork "access.log"
              Log2Life.cfg Earlier.cfg None None None Vocabulary.exampleLog
              eq_refl eq_refl eq_refl eq_refl eq_refl Htimely)
    as (_ & Hfile & _).
  destruct (Hfile ltac:(discriminate) eq_refl eq_refl) as (Hl & He & Ht & _).
  split; [rewrite Hl, He; reflexivity | exact Ht].
Defined.

(** X14. For a dotted quad [a.b.c.d] of four octets printed in decimal,
    the x coordinate is made of [a], [b] and the width alone and the y
    coordinate of [c], [d] and the height alone:
    [x = int(float64(a<<8 + b) / 0xffff * float64(width)) - width/2],
    and likewise [y]. *)
Theorem IPToXY_dotted (arch : Float64.GOARCH) (a b c d width height : Z)
  (Ha : Spec.isByte a) (Hb : Spec.isByte b) (Hc : Spec.isByte c) (Hd : Spec.isByte d) :
  Log2Life.IPToXY arch (Spec.dotted a b c d) width height
  = Ok (Log2Life.scale arch a b width, Log2Life.scale arch c d height).
Proof.
  rewrite (AddressFacts.IPToXY_parsed arch _ width height
             (GoNet.IPv4 [a; b; c; d]))
    by (apply ParseFacts.ParseIP_dotted; assumption).
  reflexivity.
Qed.

(** Witness of X14: 192.168.1.20 on the default 100 by 100 world. *)
Lemma IPToXY_dotted_witness :
  Log2Life.IPToXY Float64.amd64 "192.168.1.20" 100 100 = Ok (25, -50).
Proof.
  assert (B : forall n, (0 <=? n) && (n <? 256) = true -> Spec.isByte n).
  { intros n H. apply andb_true_iff in H as [H1 H2].
    apply Z.leb_le in H1. apply Z.ltb_lt in H2. split; assumption. }
  exact (IPToXY_dotted Float64.amd64 192 168 1 20 100 100
           (B 192 eq_refl) (B 168 eq_refl) (B 1 eq_refl) (B 20 eq_refl)).
Defined.

(** X15. How far the coordinate can go. On a world of up to 2^53
    cells a side every text gets a coordinate from [-(size/2)] to
    [size - size/2] on each axis, both ends included. The low end is
    where 0.0.0.0 sits. The high end [size - size/2] is the first cell
    beyond the centred half-open range [-(size/2) <= v < size - size/2]
    of that size: the code gives it to exactly the addresses whose two
    bytes behind the axis are both 255, so the overshoot at those
    bytes is one cell and no other address leaves the range. *)
Theorem IPToXY_closed_range (arch : Float64.GOARCH) (addr : string)
  (width height : Z)
  (Hwidth : 0 < width <= 2 ^ 53) (Hheight : 0 < height <= 2 ^ 53) :
  (exists x y,
     Log2Life.IPToXY arch addr width height = Ok (x, y)
     /\ - Z.quot width 2 <= x <= width - Z.quot width 2
     /\ - Z.quot height 2 <= y <= height - Z.quot height 2
     /\ (x = width - Z.quot width 2 <->
         exists ip, GoNet.ParseIP addr = Some ip
                    /\ nth 12 ip 0 = 255 /\ nth 13 ip 0 = 255)
     /\ (y = height - Z.quot height 2 <->
         exists ip, GoNet.ParseIP addr = Some ip
                    /\ nth 14 ip 0 = 255 /\ nth 15 ip 0 = 255))
  /\ Log2Life.IPToXY arch "0.0.0.0" width height
     = Ok (- Z.quot width 2, - Z.quot height 2)
  /\ Log2Life.IPToXY arch "255.255.255.255" width height
     = Ok (width - Z.quot width 2, height - Z.quot height 2).
Proof.
  assert (Hmax : forall size, 0 < size <= 2 ^ 53 -> 0 < size <= Int64.max_int).
  { intros size H. unfold Int64.max_int. change (2 ^ 53) with 9007199254740992 in H.
    change (2 ^ 63 - 1) with 9223372036854775807. lia. }
  assert (Hq : forall size, 0 < size -> 0 <= Z.quot size 2 /\ 2 * Z.quot size 2 <= size).
  { intros size H. rewrite Z.quot_div_nonneg by lia.
    split; [apply Z.div_pos; lia | apply Z.mul_div_le; lia]. }
  assert (Hedge : forall hi lo size,
             Spec.isByte hi -> Spec.isByte lo -> 0 < size <= 2 ^ 53 ->
             (Log2Life.scale arch hi lo size = size - Z.quot size 2
              <-> hi = 255 /\ lo = 255)).
  { intros hi lo size Hhi Hlo Hsize. split.
    - intros Hx. destruct (Z.eq_dec hi 255) as [-> | Nhi];
        [destruct (Z.eq_dec lo 255) as [-> | Nlo]; [split; reflexivity |] |].
      + pose proof (CoordinateFacts.scale_in_world arch 255 lo size Hhi Hlo
                      ltac:(intros [_ H]; contradiction) (Hmax size Hsize)). lia.
      + pose proof (CoordinateFacts.scale_in_world arch hi lo size Hhi Hlo
                      ltac:(intros [H _]; contradiction) (Hmax size Hsize)). lia.
    - intros [-> ->]. apply CoordinateFacts.scale_at_edge. exact Hsize. }
  split; [| split].
  - destruct (GoNet.ParseIP addr) as [ip |] eqn:E.
    + pose proof (AddressFacts.ParseIP_bytes addr ip E) as Hb.
      exists (Log2Life.scale arch (nth 12 ip 0) (nth 13 ip 0) width),
             (Log2Life.scale arch (nth 14 ip 0) (nth 15 ip 0) height).
      split; [apply AddressFacts.IPToXY_parsed; exact E |].
      split; [apply EdgeFacts.scale_closed;
              try apply AddressFacts.nth_isByte; assumption |].
      split; [apply EdgeFacts.scale_closed;
              try apply AddressFacts.nth_isByte; assumption |].
      split.
      * rewrite Hedge by (try apply AddressFacts.nth_isByte; assumption).
        split; [intros H; exists ip; split; [reflexivity | exact H] |].
        intros (ip' & Hip & H). injection Hip as <-. exact H.
      * rewrite Hedge by (try apply AddressFacts.nth_isByte; assumption).
        split; [intros H; exists ip; split; [reflexivity | exact H] |].
        intros (ip' & Hip & H). injection Hip as <-. exact H.
    + exists 0, 0. split; [apply AddressFacts.IPToXY_unparsed; exact E |].
      pose proof (Hq width ltac:(lia)). pose proof (Hq height ltac:(lia)).
      split; [lia |]. split; [lia |].
      split; (split; [intros H1; lia | intros (ip & Hip & _); discriminate Hip]).
  - rewrite (AddressFacts.IPToXY_parsed arch "0.0.0.0" width height
               (GoNet.IPv4 [0; 0; 0; 0])) by reflexivity.
    cbn [nth GoNet.IPv4 GoNet.v4InV6Prefix app].
    rewrite !EdgeFacts.scale_zero by (apply Hmax; assumption). reflexivity.
  - apply CoordinateFacts.IPToXY_edge; assumption.
Qed.

(** Witness of X15: the two extreme addresses on the default 100 by 100
    world. *)
Lemma IPToXY_closed_range_witness :
  Log2Life.IPToXY Float64.amd64 "0.0.0.0" 100 100 = Ok (-50, -50)
  /\ Log2Life.IPToXY Float64.amd64 "255.255.255.255" 100 100 = Ok (50, 50).
Proof.
  assert (H : 0 < 100 <= 2 ^ 53) by (split; [lia | vm_compute; discriminate]).
  destruct (IPToXY_closed_range Float64.amd64 "10.0.0.1" 100 100 H H)
    as (_ & Hlo & Hhi).
  split; [exact Hlo | exact Hhi].
Defined.

(** X16. On a world of up to 2^53 cells a side the coordinate of a
    text does not depend on the target the program was built for:
    the conversion from float64 never meets a value no integer
    holds. *)
Theorem IPToXY_same_on_both_targets (arch : Float64.GOARCH) (addr : string)
  (width height : Z)
  (Hwidth : 0 < width <= 2 ^ 53) (Hheight : 0 < height <= 2 ^ 53) :
  Log2Life.IPToXY arch addr width height
  = Log2Life.IPToXY Float64.amd64 addr width height.
Proof.
  destruct (GoNet.ParseIP addr) as [ip |] eqn:E.
  - pose proof (AddressFacts.ParseIP_bytes addr ip E) as Hb.
    rewrite !(AddressFacts.IPToXY_parsed _ addr width height ip E).
    rewrite (EdgeFacts.scale_arch arch _ _ width), (EdgeFacts.scale_arch arch _ _ height);
      try apply AddressFacts.nth_isByte; try assumption.
    reflexivity.
  - rewrite !(AddressFacts.IPToXY_unparsed _ addr width height E). reflexivity.
Qed.

(** Witness of X16: 10.0.0.1 on the default 100 by 100 world. *)
Lemma IPToXY_same_on_both_targets_witness :
  Log2Life.IPToXY Float64.arm64 "10.0.0.1" 100 100
  = Log2Life.IPToXY Float64.amd64 "10.0.0.1" 100 100.
Proof.
  assert (H : 0 < 100 <= 2 ^ 53) by (split; [lia | vm_compute; discriminate]).
  exact (IPToXY_same_on_both_targets Float64.arm64 "10.0.0.1" 100 100 H H).
Defined.

(** X17. A first field without dot and without colon, a host name for
    one, is no address for [net.ParseIP]: its coordinate is the
    centre (0, 0), whatever the size of the world. *)
Theorem IPToXY_host_name (arch : Float64.GOARCH) (addr : string) (width height : Z)
  (Hdot : Vocabulary.free "." addr = true)
  (Hcolon : Vocabulary.free ":" addr = true) :
  GoNet.ParseIP addr = None
  /\ Log2Life.IPToXY arch addr width height = Ok (0, 0).
Proof.
  assert (E : GoNet.ParseIP addr = None).
  { unfold GoNet.ParseIP. rewrite (EdgeFacts.firstSep_none addr Hdot Hcolon).
    reflexivity. }
  split; [exact E | apply AddressFacts.IPToXY_unparsed; exact E].
Qed.

(** Witness of X17: the host name [localhost]. *)
Lemma IPToXY_host_name_witness :
  Log2Life.IPToXY Float64.amd64 "localhost" 100 100 = Ok (0, 0).
Proof.
  exact (proj2 (IPToXY_host_name Float64.amd64 "localhost" 100 100 eq_refl eq_refl)).
Defined.

(** X18. A payload of at most eight bytes other than quotes is its own
    fingerprint: the fold copies those bytes in order and leaves the
    remaining bytes zero. *)
Theorem encode_short_payload (p : list Z)
  (Hshort : (List.length (Spec.withoutQuotes p) <= 8)%nat) :
  Pattern.encode p
  = (Spec.withoutQuotes p
     ++ repeat 0 (8 - List.length (Spec.withoutQuotes p)))%list.
Proof.
  unfold Pattern.encode, Pattern.xorInit. rewrite FoldFacts.fold_withoutQuotes.
  apply (LinearFacts.fold_fill (Spec.withoutQuotes p)
           (FoldFacts.withoutQuotes_Forall p) [] 0).
  - exact Hshort.
  - reflexivity.
Qed.

(** Witness of X18: a payload of four bytes, a space, a quote, a dash
    and a quote. *)
Lemma encode_short_payload_witness :
  Pattern.encode [32; 34; 45; 34] = [32; 45; 0; 0; 0; 0; 0; 0].
Proof.
  apply (encode_short_payload [32; 34; 45; 34]). cbn. lia.
Defined.

(** X19. The fold is linear over concatenation: when the first part
    holds a multiple of eight bytes other than quotes, the fingerprint
    of two payloads one after the other is the bytewise XOR of their
    fingerprints. So such a payload written twice folds to eight zero
    bytes, the fingerprint of the empty payload. *)
Theorem encode_concatenation (p q : list Z)
  (Haligned : Z.of_nat (List.length (Spec.withoutQuotes p)) mod 8 = 0) :
  Pattern.encode (p ++ q)%list
  = Vocabulary.xorBytes (Pattern.encode p) (Pattern.encode q)
  /\ Pattern.encode (p ++ p)%list = Pattern.encode [].
Proof.
  split; [apply LinearFacts.encode_app, Haligned |].
  rewrite (LinearFacts.encode_app p p Haligned), LinearFacts.xorBytes_self.
  rewrite FoldFacts.encode_length. reflexivity.
Qed.

(** Witness of X19: the eight bytes of [GET /a/b] before the bytes of
    [ HTTP], and the same eight bytes twice. *)
Lemma encode_concatenation_witness :
  Pattern.encode (GoString.bytes "GET /a/b HTTP")
  = Vocabulary.xorBytes (Pattern.encode (GoString.bytes "GET /a/b"))
      (Pattern.encode (GoString.bytes " HTTP"))
  /\ Pattern.encode (GoString.bytes "GET /a/bGET /a/b") = [0; 0; 0; 0; 0; 0; 0; 0].
Proof.
  exact (encode_concatenation (GoString.bytes "GET /a/b") (GoString.bytes " HTTP")
           eq_refl).
Defined.

(** X20. A record older than the one before it does not block: for
    whole-second instants in reverse order whose gap a [Duration]
    holds, the delay at speed 1.0 is exactly the negative gap, and
    [time.Sleep] of it returns at once. *)
Theorem pacing_backwards_never_blocks (arch : Float64.GOARCH)
  (lastTime timestamp : GoTime.t)
  (Hwhole1 : GoTime.nsec lastTime = 0) (Hwhole2 : GoTime.nsec timestamp = 0)
  (Horder : GoTime.unix timestamp <= GoTime.unix lastTime)
  (Hfit : Int64.min_int
          <= (GoTime.unix timestamp - GoTime.unix lastTime) * GoTime.Second) :
  Log2Life.delayOf arch lastTime timestamp Spec.speed1
  = (GoTime.unix timestamp - GoTime.unix lastTime) * GoTime.Second
  /\ Log2Life.delayOf arch lastTime timestamp Spec.speed1 <= 0
  /\ Log2Life.slept (Some (Log2Life.delayOf arch lastTime timestamp Spec.speed1)) = 0.
Proof.
  change Spec.speed1 with Float64.one.
  rewrite (BackwardFacts.delayOf_backwards arch lastTime timestamp
             Hwhole1 Hwhole2 Horder Hfit).
  unfold GoTime.Second, Log2Life.slept.
  split; [reflexivity |]. split; lia.
Qed.

(** Witness of X20: the example instant after the next second. *)
Lemma pacing_backwards_never_blocks_witness :
  Log2Life.delayOf Float64.amd64 Spec.exampleNext Spec.exampleInstant Spec.speed1
  = -1000000000
  /\ Log2Life.slept
       (Some (Log2Life.delayOf Float64.amd64 Spec.exampleNext Spec.exampleInstant
                Spec.speed1)) = 0.
Proof.
  assert (Horder : GoTime.unix Spec.exampleInstant <= GoTime.unix Spec.exampleNext)
    by (vm_compute; discriminate).
  assert (Hfit : Int64.min_int
                 <= (GoTime.unix Spec.exampleInstant - GoTime.unix Spec.exampleNext)
                    * GoTime.Second)
    by (vm_compute; discriminate).
  destruct (pacing_backwards_never_blocks Float64.amd64 Spec.exampleNext
              Spec.exampleInstant eq_refl eq_refl Horder Hfit) as (E & _ & S).
  split; [exact E | exact S].
Defined.

(** X21. Two records further apart than a [Duration] holds, about 292
    years: [Sub] saturates, the microseconds are rounded up by the
    conversion to float64, and the multiplication by
    [time.Microsecond] wraps around. At speed 1.0 the delay of the
    later record after the earlier one is negative, so it is not
    delayed at all; the delay of the earlier record after the later
    one is positive and about 292 years long. *)
Theorem pacing_beyond_duration (arch : Float64.GOARCH)
  (earlier later : GoTime.t)
  (Hapart : Int64.max_int
            < (GoTime.unix later - GoTime.unix earlier) * GoTime.Second
              + (GoTime.nsec later - GoTime.nsec earlier)) :
  GoTime.Sub later earlier = Int64.max_int
  /\ Log2Life.delayOf arch earlier later Spec.speed1 = -9223372036854775616
  /\ Log2Life.slept (Some (Log2Life.delayOf arch earlier later Spec.speed1)) = 0
  /\ GoTime.Sub earlier later = Int64.min_int
  /\ Log2Life.delayOf arch later earlier Spec.speed1 = 9223372036854775616.
Proof.
  change Spec.speed1 with Float64.one.
  destruct (BackwardFacts.delayOf_saturated arch earlier later Hapart) as [S1 D1].
  destruct (BackwardFacts.delayOf_saturated_back arch later earlier) as [S2 D2].
  { unfold Int64.min_int, Int64.max_int in *. lia. }
  rewrite D1, D2. auto.
Qed.

(** Witness of X21: 1 January 1700 and the example instant of 2022. *)
Lemma pacing_beyond_duration_witness :
  Log2Life.delayOf Float64.amd64 Vocabulary.earlyInstant Spec.exampleInstant
    Spec.speed1 = -9223372036854775616
  /\ Log2Life.delayOf Float64.amd64 Spec.exampleInstant Vocabulary.earlyInstant
       Spec.speed1 = 9223372036854775616.
Proof.
  assert (Hapart : Int64.max_int
                   < (GoTime.unix Spec.exampleInstant
                      - GoTime.unix Vocabulary.earlyInstant) * GoTime.Second
                     + (GoTime.nsec Spec.exampleInstant
                        - GoTime.nsec Vocabulary.earlyInstant))
    by (vm_compute; reflexivity).
  destruct (pacing_beyond_duration Float64.amd64 Vocabulary.earlyInstant
              Spec.exampleInstant Hapart) as (_ & D1 & _ & _ & D2).
  split; [exact D1 | exact D2].
Defined.

(** X22. Every instant of the calendar written as the log writes it,
    [02/Jan/2006:15:04:05 -0700], is read back by the [time.Parse]
    call of [LineToPattern] as that instant: the day is within its
    month (leap years counted), the year has four digits, and the zone
    is a sign, two digits of hours below 24 and two of minutes below
    60. *)
Theorem Parse_reads_written_instant (day : Z) (month : nat)
  (year hour min sec : Z) (east : bool) (zh zm : Z)
  (Hmonth : (month < 12)%nat)
  (Hday : 1 <= day <= GoTime.daysIn (Z.of_nat month + 1) year)
  (Hyear : 0 <= year < 10000)
  (Hhour : 0 <= hour < 24) (Hmin : 0 <= min < 60) (Hsec : 0 <= sec < 60)
  (Hzh : 0 <= zh < 24) (Hzm : 0 <= zm < 60) :
  GoTime.Parse (Vocabulary.stampText day month year hour min sec east zh zm)
  = Ok (GoTime.Date year (Z.of_nat month + 1) day hour min sec 0
          (Vocabulary.zoneSeconds east zh zm)).
Proof.
  pose proof (CalendarFacts.daysIn_bound (Z.of_nat month + 1) year) as Hbound.
  rewrite CalendarFacts.Parse_stampText by (assumption || lia).
  replace (24 <=? hour) with false by (symmetry; apply Z.leb_gt; lia).
  replace (60 <=? min) with false by (symmetry; apply Z.leb_gt; lia).
  replace (60 <=? sec) with false by (symmetry; apply Z.leb_gt; lia).
  replace ((day <? 1) || (GoTime.daysIn (Z.of_nat month + 1) year <? day)) with false
    by (symmetry; apply orb_false_iff; split; apply Z.ltb_ge; lia).
  reflexivity.
Qed.

(** Witness of X22: 29 February 2024, 23:59:58 at seven hours west. *)
Lemma Parse_reads_written_instant_witness :
  GoTime.Parse "29/Feb/2024:23:59:58 -0700"
  = Ok (GoTime.Date 2024 2 29 23 59 58 0 (-25200)).
Proof.
  assert (Hday : 1 <= 29 <= GoTime.daysIn (Z.of_nat 1 + 1) 2024)
    by (split; vm_compute; discriminate).
  exact (Parse_reads_written_instant 29 1 2024 23 59 58 false 7 0
           ltac:(lia) Hday ltac:(lia) ltac:(lia) ltac:(lia) ltac:(lia)
           ltac:(lia) ltac:(lia)).
Defined.

(** X23. The split [LineToPattern] starts with loses nothing of the
    line: there are between one and four fields, the first is the text
    before the first space, none but the last holds a space, and
    joined by single spaces they are the line again. So a run of
    spaces makes empty fields, and everything after the third space,
    spaces included, is the fourth field. *)
Theorem LineToPattern_fields (line : string) :
  let fields := GoString.SplitN line " " 4 in
  GoString.Join fields " " = line
  /\ (1 <= List.length fields <= 4)%nat
  /\ hd "" fields = Vocabulary.firstField line
  /\ Forall (fun f => Vocabulary.free " " f = true) (removelast fields).
Proof.
  cbv zeta. split; [apply (FieldFacts.Join_SplitN " " 3) |].
  split; [apply (FieldFacts.SplitN_length " " 3) |].
  split; [| apply (FieldFacts.SplitN_free " " 3)].
  destruct (SplitFacts.SplitN_4_head line) as (more & -> & _). reflexivity.
Qed.

(** X24. A replay at speed 1.0 takes as long as the log spans: when
    the instants of the accepted lines are whole seconds in order,
    each within the reach of a [Duration] from the one before, the
    sleeps of the run add up to the time from the first accepted
    instant to the last, whatever lines are rejected in between. *)
Theorem replay_takes_the_span (arch : Float64.GOARCH)
  (SendPattern : nat -> list string -> option string)
  (filename : string) (c : Log2Life.cmdlineArgs) (readErr : option string)
  (lines : list string) (first : GoTime.t) (others : list GoTime.t)
  (Hspeed : Log2Life.speedFor filename c = Float64.one)
  (Hstamps : map snd (Vocabulary.delivered arch (Log2Life.Columns c)
                        (Log2Life.Rows c) lines) = first :: others)
  (Hwhole : GoTime.nsec first = 0)
  (Hsteady : Vocabulary.steady first others) :
  Vocabulary.totalSleep (fst (Log2Life.main arch SendPattern filename c readErr lines))
  = (GoTime.unix (last others first) - GoTime.unix first) * GoTime.Second.
Proof.
  unfold Vocabulary.totalSleep, Log2Life.main.
  destruct (TraceFacts.scanLoop_sleeps_first arch SendPattern c
              (Log2Life.speedFor filename c) readErr lines 0%nat) as [Hs _].
  rewrite Hs, Hstamps, Hspeed.
  apply SpanFacts.gaps_sum; assumption.
Qed.

(** Witness of X24: two requests three seconds apart with a rejected
    line between them. *)
Lemma replay_takes_the_span_witness :
  Vocabulary.totalSleep
    (fst (Log2Life.main Float64.amd64 Vocabulary.quietNetwork "access.log"
            Log2Life.cfg None Vocabulary.pacedLog))
  = 3000000000.
Proof.
  apply (replay_takes_the_span Float64.amd64 Vocabulary.quietNetwork "access.log"
           Log2Life.cfg None Vocabulary.pacedLog
           Spec.exampleInstant [Vocabulary.laterInstant]).
  - reflexivity.
  - vm_compute. reflexivity.
  - reflexivity.
  - cbn [Vocabulary.steady]. repeat split; vm_compute; discriminate.
Defined.

(** X25. A timestamp in the layout whose clock or day is impossible is
    refused by the [time.Parse] call with an error: an hour from 24 on
    is out of range, then a minute from 60 on, then a second from 60
    on (there is no leap second), and last a day that is 0 or beyond
    the end of its month, 29 February of a common year included. *)
Theorem Parse_refuses_impossible_instant (day : Z) (month : nat)
  (year hour min sec : Z) (east : bool) (zh zm : Z)
  (Hmonth : (month < 12)%nat) (Hday : 0 <= day < 100) (Hyear : 0 <= year < 10000)
  (Hhour : 0 <= hour < 100) (Hmin : 0 <= min < 100) (Hsec : 0 <= sec < 100)
  (Hzh : 0 <= zh < 24) (Hzm : 0 <= zm < 60) :
  let parsed :=
    GoTime.Parse (Vocabulary.stampText day month year hour min sec east zh zm) in
  (24 <= hour -> parsed = Err (GoTime.rangeErr "hour"))
  /\ (hour < 24 -> 60 <= min -> parsed = Err (GoTime.rangeErr "minute"))
  /\ (hour < 24 -> min < 60 -> 60 <= sec -> parsed = Err (GoTime.rangeErr "second"))
  /\ (hour < 24 -> min < 60 -> sec < 60 ->
      day < 1 \/ GoTime.daysIn (Z.of_nat month + 1) year < day ->
      parsed = Err (GoTime.rangeErr "day")).
Proof.
  cbv zeta. rewrite CalendarFacts.Parse_stampText by (assumption || lia).
  destruct (Z.leb_spec 24 hour) as [H24 | H24];
    [repeat split; intros; (reflexivity || lia) |].
  destruct (Z.leb_spec 60 min) as [M60 | M60];
    [repeat split; intros; (reflexivity || lia) |].
  destruct (Z.leb_spec 60 sec) as [S60 | S60];
    [repeat split; intros; (reflexivity || lia) |].
  repeat split; intros; try lia.
  replace ((day <? 1) || (GoTime.daysIn (Z.of_nat month + 1) year <? day)) with true;
    [reflexivity |].
  symmetry. apply orb_true_iff.
  match goal with H : _ \/ _ |- _ => destruct H as [L | L] end;
    [left | right]; apply Z.ltb_lt; exact L.
Qed.

(** Witness of X25: 29 February 2023, a day the year does not have. *)
Lemma Parse_refuses_impossible_instant_witness :
  GoTime.Parse "29/Feb/2023:12:00:00 +0000" = Err (GoTime.rangeErr "day").
Proof.
  destruct (Parse_refuses_impossible_instant 29 1 2023 12 0 0 true 0 0
              ltac:(lia) ltac:(lia) ltac:(lia) ltac:(lia) ltac:(lia) ltac:(lia)
              ltac:(lia) ltac:(lia)) as (_ & _ & _ & Hd).
  apply Hd; try lia. right. vm_compute. reflexivity.
Defined.

(** X26. Every line of the common log format with a possible date is
    accepted: an address that passes the test, two fields without
    space, the instant in brackets as the log writes it, and any
    payload. The pattern is the rendering of the address's coordinate
    and of the fold of the payload; the instant returned is the one
    written, in its zone. *)
Theorem common_log_line_accepted (arch : Float64.GOARCH)
  (addr ident user payload : string) (width height : Z)
  (day : Z) (month : nat) (year hour min sec : Z) (east : bool) (zh zm : Z)
  (Haddr : Vocabulary.free " " addr = true)
  (Hident : Vocabulary.free " " ident = true)
  (Huser : Vocabulary.free " " user = true)
  (Hdash : addr <> "-") (Hblank : GoString.TrimSpace addr <> "")
  (Hmonth : (month < 12)%nat)
  (Hday : 1 <= day <= GoTime.daysIn (Z.of_nat month + 1) year)
  (Hyear : 0 <= year < 10000)
  (Hhour : 0 <= hour < 24) (Hmin : 0 <= min < 60) (Hsec : 0 <= sec < 60)
  (Hzh : 0 <= zh < 24) (Hzm : 0 <= zm < 60) :
  Log2Life.LineToPattern arch
    (addr ++ " " ++ ident ++ " " ++ user ++ " ["
     ++ Vocabulary.stampText day month year hour min sec east zh zm
     ++ "]" ++ payload)
    width height
  = ('(x, y) <- Log2Life.IPToXY arch addr width height ;;
     Ok (Pattern.MakeLife105 x y (Pattern.encode (GoString.bytes payload)),
         GoTime.Date year (Z.of_nat month + 1) day hour min sec 0
           (Vocabulary.zoneSeconds east zh zm))).
Proof.
  pose proof (CalendarFacts.daysIn_bound (Z.of_nat month + 1) year) as Hbound.
  apply (OutcomeFacts.LineToPattern_built arch addr ident user "["
           (Vocabulary.stampText day month year hour min sec east zh zm));
    try assumption.
  - cbn [Vocabulary.free].
    rewrite CalendarFacts.stampText_free by (assumption || lia). reflexivity.
  - rewrite CalendarFacts.Parse_stampText by (assumption || lia).
    replace (24 <=? hour) with false by (symmetry; apply Z.leb_gt; lia).
    replace (60 <=? min) with false by (symmetry; apply Z.leb_gt; lia).
    replace (60 <=? sec) with false by (symmetry; apply Z.leb_gt; lia).
    replace ((day <? 1) || (GoTime.daysIn (Z.of_nat month + 1) year <? day)) with false
      by (symmetry; apply orb_false_iff; split; apply Z.ltb_ge; lia).
    reflexivity.
Qed.

(** Witness of X26: the example line on the default 100 by 100 world. *)
Lemma common_log_line_accepted_witness :
  Log2Life.LineToPattern Float64.amd64 Spec.exampleLine 100 100
  = Ok (Pattern.MakeLife105 (-47) (-50)
          (Pattern.encode (GoString.bytes Spec.exampleAfterBracket)),
        Spec.exampleInstant).
Proof.
  assert (Hday : 1 <= 20 <= GoTime.daysIn (Z.of_nat 10 + 1) 2022)
    by (split; vm_compute; discriminate).
  assert (Hblank : GoString.TrimSpace "10.0.0.1" <> "") by (vm_compute; discriminate).
  exact (common_log_line_accepted Float64.amd64 "10.0.0.1" "-" "-"
           Spec.exampleAfterBracket 100 100 20 10 2022 2 27 49 true 0 0
           eq_refl eq_refl eq_refl ltac:(discriminate) Hblank
           ltac:(lia) Hday ltac:(lia) ltac:(lia) ltac:(lia) ltac:(lia)
           ltac:(lia) ltac:(lia)).
Defined.
